(** * Verification of the PT-Gen resolution pipeline

    The development embeds the two JavaScript sources of the repository,
    [src/lib/douban_challenge.js] (module [Lib]) and the stand-alone Node
    server (module [Server]), together with the few platform functions they
    call (module [JS] for string primitives, [Regex] for the regular
    expressions used, [SHA512] for the digest).

    Strings are byte strings holding the UTF-8 encoding of the JavaScript
    string, so that [TextEncoder.encode] and the default encoding of
    [Hash.update] are the identity on them. *)

From stdpp Require Import base gmap strings.
From Corelib Require Import PrimInt63.
From Stdlib Require Import List String Ascii NArith ZArith Lia Bool.
From Stdlib Require Import Sorting.Sorted Sorting.Permutation.
Import ListNotations.
Local Open Scope string_scope.
Local Open Scope list_scope.

(* ================================================================== *)
(** * Part I: definitions *)
(* ================================================================== *)

(** ** JavaScript string primitives *)
Module JS.

(** The double quote character *)
Definition DQUOTE : string := String (ascii_of_N 34) EmptyString.

Definition quoted (s : string) : string := DQUOTE +:+ s +:+ DQUOTE.

(** [s.startsWith(p)] *)
Definition startsWith (p s : string) : bool := String.prefix p s.

(** [s.includes(needle)] *)
Fixpoint includes (needle s : string) : bool :=
  if String.prefix needle s then true
  else match s with
       | EmptyString => false
       | String _ s' => includes needle s'
       end.

(** [s.repeat(n)] *)
Fixpoint repeat_str (s : string) (n : nat) : string :=
  match n with
  | O => ""
  | S n' => s +:+ repeat_str s n'
  end.

(** [s.substring(0, n)] on a string of one-byte characters *)
Fixpoint take (n : nat) (s : string) : string :=
  match n, s with
  | S n', String c s' => String c (take n' s')
  | _, _ => ""
  end.

Fixpoint drop (n : nat) (s : string) : string :=
  match n, s with
  | S n', String _ s' => drop n' s'
  | _, _ => s
  end.

(** Number of UTF-16 code units of the string whose UTF-8 encoding is [s]:
    continuation bytes count for nothing, the lead byte of a four-byte
    sequence for a surrogate pair. This is what [s.length] returns. *)
Definition code_units (c : ascii) : nat :=
  let n := N_of_ascii c in
  if (n <? 128)%N then 1
  else if (n <? 192)%N then 0
  else if (n <? 240)%N then 1
  else 2.

Fixpoint utf16_length (s : string) : nat :=
  match s with
  | EmptyString => 0
  | String c s' => code_units c + utf16_length s'
  end.

(** The first [k] characters of [cur ++ pad ++ pad ++ ...] *)
Fixpoint fill (k : nat) (pad cur : string) : string :=
  match k with
  | O => ""
  | S k' =>
      match cur with
      | String c r => String c (fill k' pad r)
      | EmptyString =>
          match pad with
          | String c r => String c (fill k' pad r)
          | EmptyString => ""
          end
      end
  end.

(** [s.padStart(n, pad)], for a filler made of one-byte characters *)
Definition padStart (n : nat) (pad s : string) : string :=
  fill (n - utf16_length s) pad pad +:+ s.

(** [Array.prototype.join] on an array of strings *)
Fixpoint join (sep : string) (l : list string) : string :=
  match l with
  | [] => ""
  | [x] => x
  | x :: r => x +:+ sep +:+ join sep r
  end.

(** Decimal digits of a natural number, most significant first
    ([Number.prototype.toString] on a non-negative safe integer). *)
Fixpoint digits_go (fuel : nat) (base n : N) (acc : list N) : list N :=
  match fuel with
  | O => acc
  | S f =>
      let acc' := (n mod base)%N :: acc in
      match (n / base)%N with
      | N0 => acc'
      | q => digits_go f base q acc'
      end
  end.

Definition digit_char (d : N) : ascii :=
  if (d <? 10)%N then ascii_of_N (48 + d) else ascii_of_N (87 + d).

Definition number_toString (base n : N) : string :=
  string_of_list_ascii (map digit_char (digits_go (S (N.size_nat n)) base n [])).

Definition decimal (n : N) : string := number_toString 10 n.

(** [s.split(sep)] for a non-empty separator. [skip] counts the bytes of a
    separator occurrence still to pass; [cur] is the current piece,
    reversed. *)
Fixpoint split_go (sep s : string) (skip : nat) (cur : list ascii) : list string :=
  match s with
  | EmptyString => [string_of_list_ascii (rev cur)]
  | String c s' =>
      match skip with
      | S k => split_go sep s' k cur
      | O =>
          if String.prefix sep s
          then string_of_list_ascii (rev cur) :: split_go sep s' (String.length sep - 1) []
          else split_go sep s' 0 (c :: cur)
      end
  end.

Definition split (sep s : string) : list string := split_go sep s 0 [].

(** [s.replace(pat, rep)] with a string pattern: the first occurrence only.
    [rep] contains no [$]. *)
Fixpoint replace_first (pat rep s : string) : string :=
  if String.prefix pat s then rep +:+ drop (String.length pat) s
  else match s with
       | EmptyString => ""
       | String c s' => String c (replace_first pat rep s')
       end.

(** [s.replace(/c/g, rep)] for a single character [c] *)
Fixpoint replace_char (c : ascii) (rep s : string) : string :=
  match s with
  | EmptyString => ""
  | String x s' =>
      if Ascii.eqb x c then rep +:+ replace_char c rep s'
      else String x (replace_char c rep s')
  end.

(** Removal of every character satisfying [p], as in
    [s.replace(/(\r\n|\n|\r|\t)/gm, '')] and [s.replace(/\n/ig, '')]. *)
Fixpoint remove_chars (p : ascii -> bool) (s : string) : string :=
  match s with
  | EmptyString => ""
  | String x s' => if p x then remove_chars p s' else String x (remove_chars p s')
  end.

Definition LF : ascii := ascii_of_N 10.
Definition CR : ascii := ascii_of_N 13.
Definition TAB : ascii := ascii_of_N 9.
Definition newline : string := String LF "".

Definition bytes (l : list N) : list ascii := map ascii_of_N l.

(** The UTF-8 encodings of the characters that [trim] removes: WhiteSpace
    (U+0009, U+000B, U+000C, U+0020, U+00A0, U+FEFF and the category Zs) and
    LineTerminator (U+000A, U+000D, U+2028, U+2029). *)
Definition white_space : list (list ascii) :=
  map bytes
    [[9]; [10]; [11]; [12]; [13]; [32]; [194; 160]; [225; 154; 128];
     [226; 128; 128]; [226; 128; 129]; [226; 128; 130]; [226; 128; 131];
     [226; 128; 132]; [226; 128; 133]; [226; 128; 134]; [226; 128; 135];
     [226; 128; 136]; [226; 128; 137]; [226; 128; 138]; [226; 128; 168];
     [226; 128; 169]; [226; 128; 175]; [226; 129; 159]; [227; 128; 128];
     [239; 187; 191]]%N.

Fixpoint strip_prefix (w l : list ascii) : option (list ascii) :=
  match w, l with
  | [], _ => Some l
  | a :: w', b :: l' => if Ascii.eqb a b then strip_prefix w' l' else None
  | _ :: _, [] => None
  end.

(** One white-space character taken off the front, if there is one. *)
Fixpoint strip_one (table : list (list ascii)) (l : list ascii) : option (list ascii) :=
  match table with
  | [] => None
  | w :: table' =>
      match strip_prefix w l with
      | Some r => Some r
      | None => strip_one table' l
      end
  end.

Fixpoint strip_all (fuel : nat) (table : list (list ascii)) (l : list ascii) : list ascii :=
  match fuel with
  | O => l
  | S f =>
      match strip_one table l with
      | Some r => strip_all f table r
      | None => l
      end
  end.

Definition trimStart_bytes (l : list ascii) : list ascii :=
  strip_all (List.length l) white_space l.

Definition trimEnd_bytes (l : list ascii) : list ascii :=
  rev (strip_all (List.length l) (map (@rev ascii) white_space) (rev l)).

(** [s.trim()] *)
Definition trim (s : string) : string :=
  string_of_list_ascii (trimEnd_bytes (trimStart_bytes (list_ascii_of_string s))).

(** The first [n] UTF-16 code units of [s], as far as they end on a
    character boundary ([s.substring(0, n)], [s.slice(0, n)]). *)
Fixpoint take_units (n : nat) (s : string) : string :=
  match s with
  | EmptyString => ""
  | String c s' =>
      let u := code_units c in
      if Nat.leb u n then String c (take_units (n - u) s') else ""
  end.

(** [s] without its first [n] code units *)
Fixpoint drop_units (n : nat) (s : string) : string :=
  match s with
  | EmptyString => ""
  | String c s' =>
      let u := code_units c in
      match u, n with
      | O, _ => drop_units n s'
      | _, O => s
      | _, _ => drop_units (n - u) s'
      end
  end.

(** [s.substr(start, len)] *)
Definition substr (start len : nat) (s : string) : string :=
  take_units len (drop_units start s).

(** [Array.prototype.sort(cmp)]: the sort is stable, and for a consistent
    comparator the result is the one of this insertion sort. *)
Section Sort.
Context {A : Type} (cmp : A -> A -> Z).

Fixpoint insert_sorted (x : A) (l : list A) : list A :=
  match l with
  | [] => [x]
  | y :: r => if (0 <? cmp x y)%Z then y :: insert_sorted x r else x :: l
  end.

Definition sort (l : list A) : list A := fold_right insert_sorted [] l.

End Sort.

End JS.

(** ** SHA-512 (FIPS 180-4)

    The digest is the platform's ([crypto.subtle.digest] in the worker,
    [crypto.createHash] in Node). A 64-bit word is held as two 32-bit
    halves in primitive 63-bit integers, high half first. *)
Module SHA512.
Local Open Scope uint63_scope.

Definition m32 : int := 0xffffffff.

(** One half of a right rotation or shift by [k < 32]: the bits of [h]
    moved down, filled from above with the low bits of [l]. The result is
    masked by the caller. *)
Definition rh (k h l : int) : int := lor (lsr h k) (lsl l (sub 32 k)).

Definition K512 : list (int * int) :=
  [(0x428a2f98, 0xd728ae22); (0x71374491, 0x23ef65cd); (0xb5c0fbcf, 0xec4d3b2f);
   (0xe9b5dba5, 0x8189dbbc); (0x3956c25b, 0xf348b538); (0x59f111f1, 0xb605d019);
   (0x923f82a4, 0xaf194f9b); (0xab1c5ed5, 0xda6d8118); (0xd807aa98, 0xa3030242);
   (0x12835b01, 0x45706fbe); (0x243185be, 0x4ee4b28c); (0x550c7dc3, 0xd5ffb4e2);
   (0x72be5d74, 0xf27b896f); (0x80deb1fe, 0x3b1696b1); (0x9bdc06a7, 0x25c71235);
   (0xc19bf174, 0xcf692694); (0xe49b69c1, 0x9ef14ad2); (0xefbe4786, 0x384f25e3);
   (0x0fc19dc6, 0x8b8cd5b5); (0x240ca1cc, 0x77ac9c65); (0x2de92c6f, 0x592b0275);
   (0x4a7484aa, 0x6ea6e483); (0x5cb0a9dc, 0xbd41fbd4); (0x76f988da, 0x831153b5);
   (0x983e5152, 0xee66dfab); (0xa831c66d, 0x2db43210); (0xb00327c8, 0x98fb213f);
   (0xbf597fc7, 0xbeef0ee4); (0xc6e00bf3, 0x3da88fc2); (0xd5a79147, 0x930aa725);
   (0x06ca6351, 0xe003826f); (0x14292967, 0x0a0e6e70); (0x27b70a85, 0x46d22ffc);
   (0x2e1b2138, 0x5c26c926); (0x4d2c6dfc, 0x5ac42aed); (0x53380d13, 0x9d95b3df);
   (0x650a7354, 0x8baf63de); (0x766a0abb, 0x3c77b2a8); (0x81c2c92e, 0x47edaee6);
   (0x92722c85, 0x1482353b); (0xa2bfe8a1, 0x4cf10364); (0xa81a664b, 0xbc423001);
   (0xc24b8b70, 0xd0f89791); (0xc76c51a3, 0x0654be30); (0xd192e819, 0xd6ef5218);
   (0xd6990624, 0x5565a910); (0xf40e3585, 0x5771202a); (0x106aa070, 0x32bbd1b8);
   (0x19a4c116, 0xb8d2d0c8); (0x1e376c08, 0x5141ab53); (0x2748774c, 0xdf8eeb99);
   (0x34b0bcb5, 0xe19b48a8); (0x391c0cb3, 0xc5c95a63); (0x4ed8aa4a, 0xe3418acb);
   (0x5b9cca4f, 0x7763e373); (0x682e6ff3, 0xd6b2b8a3); (0x748f82ee, 0x5defb2fc);
   (0x78a5636f, 0x43172f60); (0x84c87814, 0xa1f0ab72); (0x8cc70208, 0x1a6439ec);
   (0x90befffa, 0x23631e28); (0xa4506ceb, 0xde82bde9); (0xbef9a3f7, 0xb2c67915);
   (0xc67178f2, 0xe372532b); (0xca273ece, 0xea26619c); (0xd186b8c7, 0x21c0c207);
   (0xeada7dd6, 0xcde0eb1e); (0xf57d4f7f, 0xee6ed178); (0x06f067aa, 0x72176fba);
   (0x0a637dc5, 0xa2c898a6); (0x113f9804, 0xbef90dae); (0x1b710b35, 0x131c471b);
   (0x28db77f5, 0x23047d84); (0x32caab7b, 0x40c72493); (0x3c9ebe0a, 0x15c9bebc);
   (0x431d67c4, 0x9c100d4c); (0x4cc5d4be, 0xcb3e42b6); (0x597f299c, 0xfc657e2a);
   (0x5fcb6fab, 0x3ad6faec); (0x6c44198c, 0x4a475817)].

Definition H512 : list int :=
  [0x6a09e667; 0xf3bcc908; 0xbb67ae85; 0x84caa73b; 0x3c6ef372; 0xfe94f82b;
   0xa54ff53a; 0x5f1d36f1; 0x510e527f; 0xade682d1; 0x9b05688c; 0x2b3e6c1f;
   0x1f83d9ab; 0xfb41bd6b; 0x5be0cd19; 0x137e2179].

(** The eighty rounds over one block. The working variables a..h and the
    sliding window of sixteen schedule words are passed as halves; each round
    consumes [w0] and appends the next schedule word. *)
Fixpoint rounds (ks : list (int * int))
  (ah al bh bl ch cl dh dl eh el fh fl gh gl hh hl : int)
  (w0h w0l w1h w1l w2h w2l w3h w3l w4h w4l w5h w5l w6h w6l w7h w7l
   w8h w8l w9h w9l w10h w10l w11h w11l w12h w12l w13h w13l w14h w14l w15h w15l : int) {struct ks} : list int :=
  match ks with
  | [] => [ah; al; bh; bl; ch; cl; dh; dl; eh; el; fh; fl; gh; gl; hh; hl]
  | (kh, kl) :: ks' =>
      let s1h := lxor (rh 14 eh el) (lxor (rh 18 eh el) (rh 9 el eh)) in
      let s1l := lxor (rh 14 el eh) (lxor (rh 18 el eh) (rh 9 eh el)) in
      let xh := lxor (land eh fh) (land (lxor eh m32) gh) in
      let xl := lxor (land el fl) (land (lxor el m32) gl) in
      let t1l := add (add (add hl (land s1l m32)) (add xl kl)) w0l in
      let t1h := add (add (add (add hh (land s1h m32)) (add xh kh)) w0h) (lsr t1l 32) in
      let s0h := lxor (rh 28 ah al) (lxor (rh 2 al ah) (rh 7 al ah)) in
      let s0l := lxor (rh 28 al ah) (lxor (rh 2 ah al) (rh 7 ah al)) in
      let mh := lxor (land ah bh) (lxor (land ah ch) (land bh ch)) in
      let ml := lxor (land al bl) (lxor (land al cl) (land bl cl)) in
      let t1l' := land t1l m32 in
      let nal := add (add t1l' (land s0l m32)) ml in
      let nah := land (add (add (add t1h (land s0h m32)) mh) (lsr nal 32)) m32 in
      let nel := add dl t1l' in
      let neh := land (add (add dh t1h) (lsr nel 32)) m32 in
      let g1h := lxor (rh 19 w14h w14l) (lxor (rh 29 w14l w14h) (lsr w14h 6)) in
      let g1l := lxor (rh 19 w14l w14h) (lxor (rh 29 w14h w14l) (rh 6 w14l w14h)) in
      let g0h := lxor (rh 1 w1h w1l) (lxor (rh 8 w1h w1l) (lsr w1h 7)) in
      let g0l := lxor (rh 1 w1l w1h) (lxor (rh 8 w1l w1h) (rh 7 w1l w1h)) in
      let nwl := add (add (land g1l m32) w9l) (add (land g0l m32) w0l) in
      let nwh := land (add (add (add (land g1h m32) w9h) (add (land g0h m32) w0h))
                           (lsr nwl 32)) m32 in
      rounds ks' nah (land nal m32) ah al bh bl ch cl neh (land nel m32) eh el fh fl gh gl
        w1h w1l w2h w2l w3h w3l w4h w4l w5h w5l w6h w6l w7h w7l w8h w8l
        w9h w9l w10h w10l w11h w11l w12h w12l w13h w13l w14h w14l w15h w15l nwh (land nwl m32)
  end.

Definition bit (b : bool) (v : int) : int := if b then v else 0.

Definition int_of_ascii (c : ascii) : int :=
  let '(Ascii b0 b1 b2 b3 b4 b5 b6 b7) := c in
  add (bit b0 1) (add (bit b1 2) (add (bit b2 4) (add (bit b3 8)
    (add (bit b4 16) (add (bit b5 32) (add (bit b6 64) (bit b7 128))))))).

Definition tb (x m : int) : bool := negb (PrimInt63.eqb (land x m) 0).

Definition ascii_of_int (x : int) : ascii :=
  Ascii (tb x 1) (tb x 2) (tb x 4) (tb x 8) (tb x 16) (tb x 32) (tb x 64) (tb x 128).

Fixpoint bytes_of_string (s : string) : list int :=
  match s with
  | EmptyString => []
  | String c s' => int_of_ascii c :: bytes_of_string s'
  end.

Fixpoint len_int (bs : list int) : int :=
  match bs with
  | [] => 0
  | _ :: r => add 1 (len_int r)
  end.

(** Padding: a one bit, zeros up to 112 modulo 128 bytes, and the bit length
    as a 128-bit big-endian integer (its upper 64 bits are zero for every
    message shorter than 2^60 bytes). *)
Definition pad (bs : list int) : list int :=
  let z := Nat.sub 127 (Nat.modulo (List.length bs + 16) 128) in
  let bitlen := lsl (len_int bs) 3 in
  bs ++ [128] ++ repeat 0 z ++ repeat 0 8 ++
  [land (lsr bitlen 56) 255; land (lsr bitlen 48) 255; land (lsr bitlen 40) 255;
   land (lsr bitlen 32) 255; land (lsr bitlen 24) 255; land (lsr bitlen 16) 255;
   land (lsr bitlen 8) 255; land bitlen 255].

Definition be32 (a b c d : int) : int :=
  lor (lsl a 24) (lor (lsl b 16) (lor (lsl c 8) d)).

Fixpoint words32 (bs : list int) (fuel : nat) : list int :=
  match fuel with
  | O => []
  | S f =>
      match bs with
      | a :: b :: c :: d :: r => be32 a b c d :: words32 r f
      | _ => []
      end
  end.

Definition add64 (xh xl yh yl : int) (k : list int) : list int :=
  let l := add xl yl in
  land (add (add xh yh) (lsr l 32)) m32 :: land l m32 :: k.

Definition compress (s blk : list int) : list int :=
  match s, blk with
  | [ah; al; bh; bl; ch; cl; dh; dl; eh; el; fh; fl; gh; gl; hh; hl],
    [a0; a1; a2; a3; a4; a5; a6; a7; a8; a9; a10; a11; a12; a13; a14; a15;
     a16; a17; a18; a19; a20; a21; a22; a23; a24; a25; a26; a27; a28; a29; a30; a31] =>
      match rounds K512 ah al bh bl ch cl dh dl eh el fh fl gh gl hh hl
              a0 a1 a2 a3 a4 a5 a6 a7 a8 a9 a10 a11 a12 a13 a14 a15
              a16 a17 a18 a19 a20 a21 a22 a23 a24 a25 a26 a27 a28 a29 a30 a31 with
      | [ah'; al'; bh'; bl'; ch'; cl'; dh'; dl'; eh'; el'; fh'; fl'; gh'; gl'; hh'; hl'] =>
          add64 ah al ah' al' (add64 bh bl bh' bl' (add64 ch cl ch' cl'
            (add64 dh dl dh' dl' (add64 eh el eh' el' (add64 fh fl fh' fl'
              (add64 gh gl gh' gl' (add64 hh hl hh' hl' [])))))))
      | _ => s
      end
  | _, _ => s
  end.

Fixpoint blocks (fuel : nat) (s ws : list int) : list int :=
  match fuel with
  | O => s
  | S fuel' =>
      match ws with
      | [] => s
      | _ => blocks fuel' (compress s (firstn 32 ws)) (skipn 32 ws)
      end
  end.

Definition bytes_of_word (x : int) (k : list ascii) : list ascii :=
  ascii_of_int (lsr x 24) :: ascii_of_int (lsr x 16) :: ascii_of_int (lsr x 8)
    :: ascii_of_int x :: k.

(** The 64 bytes of the SHA-512 digest of the byte string [s]. *)
Definition sha512 (s : string) : list ascii :=
  let p := pad (bytes_of_string s) in
  let ws := words32 p (List.length p) in
  fold_right bytes_of_word [] (blocks (List.length ws) H512 ws).

End SHA512.

(** The digest as the solver sees it: a function from the message to the
    bytes of its digest, supplied by the platform. The statements about the
    solver hold for whatever it returns; [SHA512_crypto] is the digest
    itself. *)
Class Crypto : Type := { digest : string -> list ascii }.

Definition SHA512_crypto : Crypto := {| digest := SHA512.sha512 |}.

(** ** Outcomes of a call: a value or a thrown exception *)

Inductive exn : Type :=
| Error (message : string)
| TypeError (message : string)
| SyntaxError (message : string).

Definition err_message (e : exn) : string :=
  match e with
  | Error m | TypeError m | SyntaxError m => m
  end.

Definition err_name (e : exn) : string :=
  match e with
  | Error _ => "Error"
  | TypeError _ => "TypeError"
  | SyntaxError _ => "SyntaxError"
  end.

Inductive result (A : Type) : Type :=
| Ok (a : A)
| Throw (e : exn).
Arguments Ok {A} a.
Arguments Throw {A} e.

(** The loop bound shared by both copies of the solver. *)
Definition NONCE_LIMIT : N := 500000.

(** ** Regular expressions

    A backtracking matcher for the fragment the sources use: symbols,
    sequence, ordered alternation, greedy repetition, numbered capture
    groups and the end anchor. It works on the UTF-8 bytes. A symbol is
    given by the function that takes it off the front of the input; the
    classes that list or exclude ASCII characters are one byte wide, so a
    multi-byte character is matched byte by byte exactly where the original
    matches its code units, and [\S] takes a whole character. *)
Module Regex.

Inductive regex : Type :=
| Sym (step : string -> option string)
| Eps
| Seq (r1 r2 : regex)
| Alt (r1 r2 : regex)
| Star (r : regex)
| Group (i : nat) (r : regex)
| End_.

Definition captures : Type := list (nat * string).

Fixpoint capture (i : nat) (c : captures) : option string :=
  match c with
  | [] => None
  | (j, s) :: r => if Nat.eqb i j then Some s else capture i r
  end.

(** [rmatch r s caps k]: match [r] at the head of [s], then continue with [k]
    on the rest; the first success in backtracking order wins. An iteration
    of a star that consumes nothing is abandoned, as in ECMAScript. *)
Fixpoint rmatch (r : regex) (s : string) (caps : captures)
  (k : string -> captures -> option captures) {struct r} : option captures :=
  match r with
  | Sym step =>
      match step s with
      | Some s' => k s' caps
      | None => None
      end
  | Eps => k s caps
  | End_ => match s with EmptyString => k s caps | _ => None end
  | Seq r1 r2 => rmatch r1 s caps (fun s' caps' => rmatch r2 s' caps' k)
  | Alt r1 r2 =>
      match rmatch r1 s caps k with
      | Some c => Some c
      | None => rmatch r2 s caps k
      end
  | Star r1 =>
      (fix iter (n : nat) (s : string) (caps : captures) {struct n} : option captures :=
         match n with
         | O => k s caps
         | S n' =>
             match rmatch r1 s caps
                     (fun s' caps' =>
                        if Nat.ltb (String.length s') (String.length s)
                        then iter n' s' caps' else None) with
             | Some c => Some c
             | None => k s caps
             end
         end) (String.length s) s caps
  | Group i r1 =>
      rmatch r1 s caps
        (fun s' caps' =>
           k s' ((i, JS.take (String.length s - String.length s') s) :: caps'))
  end.

(** [s.match(r)] for a regular expression without the [g] flag: the leftmost
    position at which [r] matches, with its captures. *)
Fixpoint exec (r : regex) (s : string) : option captures :=
  match rmatch r s [] (fun _ c => Some c) with
  | Some c => Some c
  | None =>
      match s with
      | EmptyString => None
      | String _ s' => exec r s'
      end
  end.

Definition test (r : regex) (s : string) : bool :=
  match exec r s with Some _ => true | None => false end.

(** Building blocks. [Chr p] is one byte satisfying [p]. *)
Definition Chr (p : ascii -> bool) : regex :=
  Sym (fun s => match s with
                | String c s' => if p c then Some s' else None
                | EmptyString => None
                end).

Definition chr (c : ascii) : regex := Chr (Ascii.eqb c).

Definition is_upper (c : ascii) : bool :=
  let n := N_of_ascii c in ((65 <=? n) && (n <=? 90))%N.
Definition is_lower (c : ascii) : bool :=
  let n := N_of_ascii c in ((97 <=? n) && (n <=? 122))%N.
Definition to_lower (c : ascii) : ascii :=
  if is_upper c then ascii_of_N (N_of_ascii c + 32) else c.

(** A literal character under the [i] flag. Without the [u] flag a
    non-ASCII code unit is never canonicalised to an ASCII one, so only
    the two cases of an ASCII letter match. *)
Definition chr_i (c : ascii) : regex :=
  Chr (fun x => Ascii.eqb (to_lower x) (to_lower c)).

Fixpoint lit (s : string) : regex :=
  match s with
  | EmptyString => Eps
  | String c s' => Seq (chr c) (lit s')
  end.

Fixpoint lit_i (s : string) : regex :=
  match s with
  | EmptyString => Eps
  | String c s' => Seq (chr_i c) (lit_i s')
  end.

Definition opt (r : regex) : regex := Alt r Eps.
Definition plus (r : regex) : regex := Seq r (Star r).
Definition one_of (cs : string) : regex :=
  Chr (fun x => existsb (Ascii.eqb x) (list_ascii_of_string cs)).
Definition none_of (cs : string) : regex :=
  Chr (fun x => negb (existsb (Ascii.eqb x) (list_ascii_of_string cs))).
Definition is_digit (c : ascii) : bool :=
  let n := N_of_ascii c in ((48 <=? n) && (n <=? 57))%N.
Definition digit : regex := Chr is_digit.

(** [\S]: one character that [trim] would not remove. *)
Definition char_width (c : ascii) : nat :=
  let n := N_of_ascii c in
  if (n <? 128)%N then 1
  else if (n <? 224)%N then 2
  else if (n <? 240)%N then 3
  else 4.

Definition next_nonspace (s : string) : option string :=
  match s with
  | EmptyString => None
  | String c _ =>
      match JS.strip_one JS.white_space (list_ascii_of_string s) with
      | Some _ => None
      | None =>
          if Nat.leb (char_width c) (String.length s)
          then Some (JS.drop (char_width c) s) else None
      end
  end.

Definition nonspace : regex := Sym next_nonspace.

Fixpoint seq (rs : list regex) : regex :=
  match rs with
  | [] => Eps
  | [r] => r
  | r :: rs' => Seq r (seq rs')
  end.

End Regex.

(** ** Outbound HTTP

    [outbound] is what [fetch] is called with, [response] what the callers
    read of its result. *)

Record outbound : Type := mkOutbound {
  req_url : string;
  req_method : option string;
  req_headers : list (string * string);
  req_body : option string;
  req_redirect : option string
}.

(** What the callers read of a response: status, final URL ([resp.url],
    absent on the proxy variant of [fetch]), the two headers they ask for by
    their lower-case names, and the body text. *)
Record response : Type := mkResponse {
  resp_status : Z;
  resp_url : option string;
  resp_headers : list (string * string);
  resp_text : string
}.

Fixpoint headers_get (name : string) (h : list (string * string)) : option string :=
  match h with
  | [] => None
  | (k, v) :: r => if String.eqb k name then Some v else headers_get name r
  end.

(** The network: each request is answered by a response or fails. *)
Class Network : Type := { send : outbound -> result response }.

(** Computations that issue requests: the log of requests sent, in order,
    and the outcome. *)
Definition M (A : Type) : Type := (list outbound * result A)%type.

Definition ret {A} (a : A) : M A := ([], Ok a).
Definition throw {A} (e : exn) : M A := ([], Throw e).
Definition lift {A} (r : result A) : M A := ([], r).
Definition bind {A B} (m : M A) (f : A -> M B) : M B :=
  match m with
  | (l, Ok a) => let '(l', r) := f a in (l ++ l', r)
  | (l, Throw e) => (l, Throw e)
  end.
Definition fetch `{Network} (r : outbound) : M response := ([r], send r).

Notation "'let*' x ':=' m 'in' k" := (bind m (fun x => k))
  (at level 10, x name, m at level 100, k at level 200).

Definition requests {A} (m : M A) : list outbound := fst m.
Definition outcome {A} (m : M A) : result A := snd m.

(** The object returned by [solveDoubanChallenge]. *)
Module Challenge.
Record t : Type := make {
  solved : bool;
  text : string;
  error : option string;
  cookies : option string
}.
End Challenge.
Abbreviation challenge_result := Challenge.t.

(** JavaScript truthiness of an optional string. *)
Definition nonempty (o : option string) : option string :=
  match o with
  | Some "" => None
  | other => other
  end.

Definition USER_AGENT : string :=
  "Mozilla/5.0 (Macintosh; Intel Mac OS X 10_15_7) AppleWebKit/537.36".

(** The six patterns of the parameter extraction,
    [/id=["']NAME["'][^>]*value=["']([^"']+)["']/i] and
    [/value=["']([^"']+)["'][^>]*id=["']NAME["']/i]. *)
Definition quote : Regex.regex := Regex.one_of (JS.DQUOTE +:+ "'").
Definition not_quote : Regex.regex := Regex.none_of (JS.DQUOTE +:+ "'").

Definition id_then_value (name : string) : Regex.regex :=
  Regex.seq [Regex.lit_i "id="; quote; Regex.lit_i name; quote;
             Regex.Star (Regex.none_of ">"); Regex.lit_i "value="; quote;
             Regex.Group 1 (Regex.plus not_quote); quote].

Definition value_then_id (name : string) : Regex.regex :=
  Regex.seq [Regex.lit_i "value="; quote; Regex.Group 1 (Regex.plus not_quote); quote;
             Regex.Star (Regex.none_of ">"); Regex.lit_i "id="; quote;
             Regex.lit_i name; quote].

(** [responseText.match(A) || responseText.match(B)], then [m[1]] *)
Definition match_param (name responseText : string) : option string :=
  match Regex.exec (id_then_value name) responseText with
  | Some c => Regex.capture 1 c
  | None =>
      match Regex.exec (value_then_id name) responseText with
      | Some c => Regex.capture 1 c
      | None => None
      end
  end.

(** [URLSearchParams.prototype.toString] of the platform: the
    application/x-www-form-urlencoded serialisation. *)
Module Form.

Definition unreserved (c : ascii) : bool :=
  Regex.is_digit c || Regex.is_upper c || Regex.is_lower c
  || existsb (Ascii.eqb c) (list_ascii_of_string "*-._").

Definition upper_nibble (n : N) : ascii :=
  if (n <? 10)%N then ascii_of_N (48 + n) else ascii_of_N (55 + n).

Definition encode_byte (c : ascii) : string :=
  if Ascii.eqb c " " then "+"
  else if unreserved c then String c ""
  else let n := N_of_ascii c in
       String "%" (String (upper_nibble (n / 16)) (String (upper_nibble (n mod 16)) "")).

Fixpoint encode (s : string) : string :=
  match s with
  | EmptyString => ""
  | String c s' => encode_byte c +:+ encode s'
  end.

Definition toString (params : list (string * string)) : string :=
  JS.join "&" (map (fun kv => encode (fst kv) +:+ "=" +:+ encode (snd kv)) params).

End Form.

(** ** src/lib/douban_challenge.js *)
Module Lib.

(** [hashArray.map(b => b.toString(16).padStart(2, '0')).join('')] *)
Definition hex_of_hashArray (hashArray : list ascii) : string :=
  JS.join "" (map (fun b => JS.padStart 2 "0" (JS.number_toString 16 (N_of_ascii b))) hashArray).

(** The body of [while (true)], run from [nonce]. The loop leaves by [return]
    or [throw]; [fuel] counts the iterations still allowed to the model and
    [None] means that it ran out before the loop left. *)
Fixpoint solve_loop `{Crypto} (fuel : nat) (cha : string) (difficulty : nat) (target : string)
  (nonce : N) : option (result N) :=
  match fuel with
  | O => None
  | S fuel' =>
      let data := cha +:+ JS.decimal nonce in
      let hashArray := digest data in
      let hash := hex_of_hashArray hashArray in
      if String.eqb (JS.take difficulty hash) target then Some (Ok nonce)
      else
        let nonce := (nonce + 1)%N in
        if (NONCE_LIMIT <? nonce)%N
        then Some (Throw (Error "Challenge solution timeout - too many iterations"))
        else solve_loop fuel' cha difficulty target nonce
  end.

Definition run_solveChallenge `{Crypto} (fuel : nat) (cha : string) (difficulty : nat)
  : option (result N) :=
  let target := JS.repeat_str "0" difficulty in
  solve_loop fuel cha difficulty target 0.

(** [solveChallenge(cha, difficulty)]. The loop leaves within
    [NONCE_LIMIT + 1] iterations (lemma [Lib_solveChallenge_run] below), so the last
    branch is never taken. *)
Definition solveChallenge `{Crypto} (cha : string) (difficulty : nat) : result N :=
  match run_solveChallenge (S (N.to_nat NONCE_LIMIT)) cha difficulty with
  | Some r => r
  | None => Throw (Error "unreachable")
  end.

Definition solveDoubanChallenge `{Crypto} `{Network} (responseUrl responseText : string)
  : M challenge_result :=
  if negb (JS.includes "process(cha)" responseText)
     || negb (JS.includes ("id=" +:+ JS.quoted "cha") responseText)
  then ret {| Challenge.solved := false; Challenge.text := responseText; Challenge.error := None; Challenge.cookies := None |}
  else
    let tokMatch := match_param "tok" responseText in
    let chaMatch := match_param "cha" responseText in
    let redMatch := match_param "red" responseText in
    match tokMatch, chaMatch with
    | Some tok, Some cha =>
        let red := match redMatch with
                   | Some r => r
                   | None => "https://movie.douban.com/"
                   end in
        let* sol := lift (solveChallenge cha 4) in
        let formData :=
          [("tok", tok); ("cha", cha); ("sol", JS.decimal sol); ("red", red)] in
        let* submitResp :=
          fetch {| req_url := "https://sec.douban.com/c";
                   req_method := Some "POST";
                   req_headers :=
                     [("Content-Type", "application/x-www-form-urlencoded");
                      ("User-Agent", USER_AGENT);
                      ("Referer", responseUrl);
                      ("Origin", "https://sec.douban.com")];
                   req_body := Some (Form.toString formData);
                   req_redirect := Some "manual" |} in
        let cookies := headers_get "set-cookie" (resp_headers submitResp) in
        let location := headers_get "location" (resp_headers submitResp) in
        match nonempty cookies with
        | None =>
            ret {| Challenge.solved := false; Challenge.text := responseText;
                   Challenge.error := Some "No cookies received from challenge submission";
                   Challenge.cookies := None |}
        | Some cookies =>
            let* finalResp :=
              fetch {| req_url := match nonempty location with
                                  | Some l => l
                                  | None => red
                                  end;
                       req_method := None;
                       req_headers :=
                         [("Cookie", cookies);
                          ("User-Agent", USER_AGENT);
                          ("Referer", "https://sec.douban.com/")];
                       req_body := None;
                       req_redirect := None |} in
            let finalText := resp_text finalResp in
            ret {| Challenge.solved := true; Challenge.text := finalText; Challenge.error := None;
                   Challenge.cookies := Some cookies |}
        end
    | _, _ =>
        ret {| Challenge.solved := false; Challenge.text := responseText;
               Challenge.error := Some "Could not extract challenge parameters";
               Challenge.cookies := None |}
    end.

End Lib.

(** ** JavaScript values

    The values that flow through the server: what [JSON.parse] returns and
    the result objects the server builds. A number is kept as its
    [Number.prototype.toString] rendering; the server only tests numbers for
    truthiness and interpolates them into strings. A parsed object is the
    list of its properties. *)
#[warnings="-register-all"]
Inductive value : Type :=
| VUndefined
| VNull
| VBool (b : bool)
| VNum (repr : string)
| VStr (s : string)
| VArr (items : list value)
| VObj (fields : list (string * value)).

Definition truthy (v : value) : bool :=
  match v with
  | VUndefined | VNull => false
  | VBool b => b
  | VNum r => negb (String.eqb r "0" || String.eqb r "-0" || String.eqb r "NaN")
  | VStr s => negb (String.eqb s "")
  | VArr _ | VObj _ => true
  end.

(** [a || b] *)
Definition or_else (a b : value) : value := if truthy a then a else b.

Definition nullish (v : value) : bool :=
  match v with
  | VUndefined | VNull => true
  | _ => false
  end.

(** [String(v)], the conversion applied by template literals and by
    [Array.prototype.join]. *)
Fixpoint to_string (v : value) : string :=
  match v with
  | VUndefined => "undefined"
  | VNull => "null"
  | VBool true => "true"
  | VBool false => "false"
  | VNum r => r
  | VStr s => s
  | VArr items =>
      JS.join ","
        ((fix each (l : list value) : list string :=
            match l with
            | [] => []
            | x :: r => (if nullish x then "" else to_string x) :: each r
            end) items)
  | VObj _ => "[object Object]"
  end.

(** [items.join(sep)] *)
Definition join_values (sep : string) (items : list value) : string :=
  JS.join sep (map (fun x => if nullish x then "" else to_string x) items).

(** The property [k] of a parsed object. *)
Fixpoint field_get (k : string) (fields : list (string * value)) : value :=
  match fields with
  | [] => VUndefined
  | (k', v) :: r => if String.eqb k' k then v else field_get k r
  end.

(** A record, the object a resolution builds and the envelope wraps, is a
    finite map from property names to values. The order of its properties,
    which only shows as the order of the keys in the JSON text, is not
    kept. *)
Abbreviation object := (gmap string value).

(** An object literal *)
Definition record (properties : list (string * value)) : object := list_to_map properties.

(** [o.k] *)
Definition obj_get (k : string) (o : object) : value := default VUndefined (o !! k).

Definition has_key (k : string) (o : object) : bool := bool_decide (is_Some (o !! k)).

(** [o.k = v] *)
Definition obj_set (k : string) (v : value) (o : object) : object := <[k := v]> o.

(** [{...a, ...b}] *)
Definition spread (a b : object) : object := b ∪ a.

Definition number_of_nat (n : nat) : value := VNum (JS.decimal (N.of_nat n)).

(** [v.k] for a property name [k] that is no method and no index. *)
Definition get_prop (v : value) (k : string) : result value :=
  match v with
  | VUndefined =>
      Throw (TypeError ("Cannot read properties of undefined (reading '" +:+ k +:+ "')"))
  | VNull =>
      Throw (TypeError ("Cannot read properties of null (reading '" +:+ k +:+ "')"))
  | VObj fields => Ok (field_get k fields)
  | VArr items =>
      Ok (if String.eqb k "length" then number_of_nat (List.length items) else VUndefined)
  | VStr s =>
      Ok (if String.eqb k "length" then number_of_nat (JS.utf16_length s) else VUndefined)
  | VBool _ | VNum _ => Ok VUndefined
  end.

(** [v?.k] *)
Definition get_opt (v : value) (k : string) : value :=
  match get_prop v k with
  | Ok x => x
  | Throw _ => VUndefined
  end.

(** [v?.[0]] *)
Definition first_opt (v : value) : value :=
  match v with
  | VArr (x :: _) => x
  | VStr s => match JS.take_units 1 s with "" => VUndefined | c => VStr c end
  | VObj fields => field_get "0" fields
  | _ => VUndefined
  end.

(** [v?.slice(0, n)], where [callee] is the text of the expression [v] in
    the source, which the engine puts in the message of its [TypeError]. *)
Definition slice_opt (callee : string) (n : nat) (v : value) : result value :=
  match v with
  | VUndefined | VNull => Ok VUndefined
  | VStr s => Ok (VStr (JS.take_units n s))
  | VArr items => Ok (VArr (firstn n items))
  | _ => Throw (TypeError (callee +:+ "?.slice is not a function"))
  end.

(** [v.map(f)], where [f] may throw *)
Fixpoint map_result {A B} (f : A -> result B) (l : list A) : result (list B) :=
  match l with
  | [] => Ok []
  | x :: r =>
      match f x with
      | Throw e => Throw e
      | Ok y =>
          match map_result f r with
          | Throw e => Throw e
          | Ok ys => Ok (y :: ys)
          end
      end
  end.

(** [v.map(f)] for the expression [callee] of the source: on [null] and
    [undefined] the property cannot be read, on any other value that is no
    array there is no such function. *)
Definition array_map (callee : string) (f : value -> result value) (v : value)
  : result (list value) :=
  match v with
  | VArr items => map_result f items
  | VUndefined => Throw (TypeError "Cannot read properties of undefined (reading 'map')")
  | VNull => Throw (TypeError "Cannot read properties of null (reading 'map')")
  | _ => Throw (TypeError (callee +:+ ".map is not a function"))
  end.

Definition strings (l : list string) : value := VArr (map VStr l).

(** What [JSON.parse(JSON.stringify(v))] gives for a value [v] inside an
    object or an array: a property whose value is [undefined] is dropped, an
    [undefined] element and a number that is not finite become [null]. *)
Definition not_finite (repr : string) : bool :=
  String.eqb repr "NaN" || String.eqb repr "Infinity" || String.eqb repr "-Infinity".

Fixpoint jsonify (v : value) : value :=
  match v with
  | VUndefined => VNull
  | VNum r => if not_finite r then VNull else VNum r
  | VArr items => VArr (map jsonify items)
  | VObj fields =>
      VObj ((fix each (l : list (string * value)) : list (string * value) :=
               match l with
               | [] => []
               | (k, VUndefined) :: r => each r
               | (k, x) :: r => (k, jsonify x) :: each r
               end) fields)
  | other => other
  end.

(** The record that a cache entry written from [o] deserialises to. *)
Definition jsonify_object (o : object) : object :=
  omap (fun v => match v with
                 | VUndefined => None
                 | x => Some (jsonify x)
                 end) o.

Definition opt_string (o : option string) : value :=
  match o with
  | Some s => VStr s
  | None => VUndefined
  end.

(** [encodeURIComponent] *)
Definition uri_unreserved (c : ascii) : bool :=
  Regex.is_digit c || Regex.is_upper c || Regex.is_lower c
  || existsb (Ascii.eqb c) (list_ascii_of_string "-_.!~*'()").

Fixpoint encodeURIComponent (s : string) : string :=
  match s with
  | EmptyString => ""
  | String c s' =>
      (if uri_unreserved c then String c ""
       else let n := N_of_ascii c in
            String "%" (String (Form.upper_nibble (n / 16))
                          (String (Form.upper_nibble (n mod 16)) "")))
      +:+ encodeURIComponent s'
  end.

(** What [url.parse(s, true)] gives of a request URL: the path, the query
    string with its leading [?] (empty if there is none) and the decoded
    parameters. A parameter is taken to occur at most once, so that its
    value is a string. *)
Record Uri : Type := mkUri {
  pathname : string;
  search : string;
  query : list (string * string)
}.

(** The parts of the platform the server calls and this development does
    not define: URL parsing, the JSON parser, the [cheerio] queries on a parsed document
    (given by the document text and the selector), collation, date parsing
    and case mapping. *)
Class Platform : Type := {
  JSON_parse : string -> result value;
  (** [$(selector).text()] *)
  cheerio_text : string -> string -> string;
  (** [$(selector).html()] *)
  cheerio_html : string -> string -> option string;
  (** [$(selector).attr(name)] *)
  cheerio_attr : string -> string -> string -> option string;
  (** [$(selector).length] *)
  cheerio_length : string -> string -> nat;
  (** [$(selector).map((i, el) => $(el).text()).get()] *)
  cheerio_texts : string -> string -> list string;
  (** [$(selector)[0]?.nextSibling?.nodeValue] *)
  cheerio_next_value : string -> string -> option string;
  (** [a.localeCompare(b)] *)
  localeCompare : string -> string -> Z;
  (** [new Date(s)] as a number, [None] for an invalid date *)
  Date_parse : string -> option Z;
  (** [s.toLowerCase()] *)
  toLowerCase : string -> string;
  (** [url.parse(s, true)] *)
  url_parse : string -> Uri
}.

(** ** The Node server *)
Module Server.

(** [crypto.createHash('sha512').update(s).digest('hex')]: two lower-case
    hexadecimal digits per byte, high nibble first. *)
Definition nibble_char (b3 b2 b1 b0 : bool) : ascii :=
  match b3, b2, b1, b0 with
  | false, false, false, false => "0"
  | false, false, false, true => "1"
  | false, false, true, false => "2"
  | false, false, true, true => "3"
  | false, true, false, false => "4"
  | false, true, false, true => "5"
  | false, true, true, false => "6"
  | false, true, true, true => "7"
  | true, false, false, false => "8"
  | true, false, false, true => "9"
  | true, false, true, false => "a"
  | true, false, true, true => "b"
  | true, true, false, false => "c"
  | true, true, false, true => "d"
  | true, true, true, false => "e"
  | true, true, true, true => "f"
  end%char.

Definition hex_byte (b : ascii) (k : string) : string :=
  let '(Ascii b0 b1 b2 b3 b4 b5 b6 b7) := b in
  String (nibble_char b7 b6 b5 b4) (String (nibble_char b3 b2 b1 b0) k).

Definition digest_hex (bytes : list ascii) : string := fold_right hex_byte "" bytes.

Definition sha512_hex `{Crypto} (s : string) : string := digest_hex (digest s).

Fixpoint solve_loop `{Crypto} (fuel : nat) (cha : string) (difficulty : nat) (target : string)
  (nonce : N) : option (result N) :=
  match fuel with
  | O => None
  | S fuel' =>
      let hash := sha512_hex (cha +:+ JS.decimal nonce) in
      if String.eqb (JS.take difficulty hash) target then Some (Ok nonce)
      else
        let nonce := (nonce + 1)%N in
        if (NONCE_LIMIT <? nonce)%N then Some (Throw (Error "Challenge timeout"))
        else solve_loop fuel' cha difficulty target nonce
  end.

Definition run_solveChallenge `{Crypto} (fuel : nat) (cha : string) (difficulty : nat)
  : option (result N) :=
  let target := JS.repeat_str "0" difficulty in
  solve_loop fuel cha difficulty target 0.

(** [solveChallenge(cha, difficulty)]. The loop leaves within
    [NONCE_LIMIT + 1] iterations (lemma [Server_solveChallenge_run] below), so the last
    branch is never taken. *)
Definition solveChallenge `{Crypto} (cha : string) (difficulty : nat) : result N :=
  match run_solveChallenge (S (N.to_nat NONCE_LIMIT)) cha difficulty with
  | Some r => r
  | None => Throw (Error "unreachable")
  end.

Section WithHost.
Context `{Crypto} `{Network} `{Platform}.

Definition LD_JSON : string := "script[type=" +:+ JS.quoted "application/ld+json" +:+ "]".

Definition NONE_EXIST_ERROR : string := "The corresponding resource does not exist.".

Definition VERSION : string := "0.6.4".

Definition GET (url : string) : outbound :=
  {| req_url := url; req_method := None; req_headers := []; req_body := None;
     req_redirect := None |}.

(** [resp.json()] *)
Definition resp_json (resp : response) : M value := lift (JSON_parse (resp_text resp)).

(** [descr += guard ? line : ""] *)
Definition line_if (guard : bool) (line : string) : string := if guard then line else "".

Definition nonempty_str (s : string) : bool := negb (String.eqb s "").

Definition img (poster : value) : string :=
  line_if (truthy poster) ("[img]" +:+ to_string poster +:+ "[/img]" +:+ JS.newline +:+ JS.newline).

(** [formData.append(...)]: [global.URLSearchParams] was replaced at start-up
    by a class that has a constructor, [get] and [has] and nothing else, so
    [formData.append] is [undefined] and the call throws. *)
Definition formData_append (formData : list (string * string)) (k v : string)
  : result (list (string * string)) :=
  Throw (TypeError "formData.append is not a function").

(** [formData.toString()] falls to [Object.prototype.toString]. *)
Definition formData_toString (formData : list (string * string)) : string :=
  "[object Object]".

Definition solveDoubanChallenge (responseUrl responseText : string) : M challenge_result :=
  if negb (JS.includes "process(cha)" responseText)
     || negb (JS.includes ("id=" +:+ JS.quoted "cha") responseText)
  then ret {| Challenge.solved := false; Challenge.text := responseText; Challenge.error := None; Challenge.cookies := None |}
  else
    let tokMatch := match_param "tok" responseText in
    let chaMatch := match_param "cha" responseText in
    let redMatch := match_param "red" responseText in
    match tokMatch, chaMatch with
    | Some tok, Some cha =>
        let red := match redMatch with
                   | Some r => r
                   | None => "https://movie.douban.com/"
                   end in
        let* sol := lift (solveChallenge cha 4) in
        let formData := [] in
        let* formData := lift (formData_append formData "tok" tok) in
        let* formData := lift (formData_append formData "cha" cha) in
        let* formData := lift (formData_append formData "sol" (JS.decimal sol)) in
        let* formData := lift (formData_append formData "red" red) in
        let* submitResp :=
          fetch {| req_url := "https://sec.douban.com/c";
                   req_method := Some "POST";
                   req_headers :=
                     [("Content-Type", "application/x-www-form-urlencoded");
                      ("User-Agent", USER_AGENT);
                      ("Referer", responseUrl);
                      ("Origin", "https://sec.douban.com")];
                   req_body := Some (formData_toString formData);
                   req_redirect := Some "manual" |} in
        let cookies := headers_get "set-cookie" (resp_headers submitResp) in
        let location := headers_get "location" (resp_headers submitResp) in
        match nonempty cookies with
        | None =>
            ret {| Challenge.solved := false; Challenge.text := responseText;
                   Challenge.error := Some "No cookies received"; Challenge.cookies := None |}
        | Some cookies =>
            let* finalResp :=
              fetch {| req_url := match nonempty location with
                                  | Some l => l
                                  | None => red
                                  end;
                       req_method := None;
                       req_headers :=
                         [("Cookie", cookies);
                          ("User-Agent", USER_AGENT);
                          ("Referer", "https://sec.douban.com/")];
                       req_body := None;
                       req_redirect := None |} in
            ret {| Challenge.solved := true; Challenge.text := resp_text finalResp; Challenge.error := None;
                   Challenge.cookies := Some cookies |}
        end
    | _, _ =>
        ret {| Challenge.solved := false; Challenge.text := responseText;
               Challenge.error := Some "Could not extract challenge parameters";
               Challenge.cookies := None |}
    end.

(** *** Douban *)

Definition suggestion (d : value) : result value :=
  match get_prop d "year", get_prop d "type", get_prop d "title",
        get_prop d "sub_title", get_prop d "id" with
  | Ok year, Ok type, Ok title, Ok sub_title, Ok id =>
      Ok (VObj [("year", year); ("subtype", type); ("title", title);
                ("subtitle", sub_title);
                ("link", VStr ("https://movie.douban.com/subject/" +:+ to_string id +:+ "/"))])
  | Throw e, _, _, _, _ | _, Throw e, _, _, _ | _, _, Throw e, _, _
  | _, _, _, Throw e, _ | _, _, _, _, Throw e => Throw e
  end.

Definition search_douban (query : string) : M object :=
  let search_url :=
    "https://movie.douban.com/j/subject_suggest?q=" +:+ encodeURIComponent query in
  let* resp := fetch (GET search_url) in
  let text := resp_text resp in
  let* challenge :=
    solveDoubanChallenge (match nonempty (resp_url resp) with
                          | Some u => u
                          | None => search_url
                          end) text in
  let text := if Challenge.solved challenge then Challenge.text challenge else text in
  match (match JSON_parse text with
         | Ok data => array_map "data" suggestion data
         | Throw e => Throw e
         end) with
  | Ok items => ret (record [("data", VArr items)])
  | Throw e =>
      ret (record
             [("error", VStr "Failed to parse search results");
              ("debug_info",
               VObj [("response_preview", VStr (JS.take_units 2000 text));
                     ("parse_error", VStr (err_message e))])])
  end.

(** [fetch_anchor(anchor)]:
    [anchor[0]?.nextSibling?.nodeValue?.trim() || ''] *)
Definition fetch_anchor (doc selector : string) : string :=
  match cheerio_next_value doc selector with
  | Some v => JS.trim v
  | None => ""
  end.

Definition info_anchor (label : string) : string :=
  "#info span.pl:contains(" +:+ JS.quoted label +:+ ")".

(** [aka = fetch_anchor(aka_anchor).split(" / ").sort((a, b) =>
    a.localeCompare(b)).join("/")] *)
Definition aka_entries (anchor_text : string) : list string :=
  JS.sort localeCompare (JS.split " / " anchor_text).

Definition aka_of (anchor_text : string) : string := JS.join "/" (aka_entries anchor_text).

(** [(a, b) => new Date(a) - new Date(b)]; a [NaN] counts as [+0]. *)
Definition by_date (a b : string) : Z :=
  match Date_parse a, Date_parse b with
  | Some x, Some y => (x - y)%Z
  | _, _ => 0%Z
  end.

(** [v.length], as a truth value *)
Definition has_length (v : value) : bool :=
  match get_prop v "length" with
  | Ok n => truthy n
  | Throw _ => false
  end.

(** [v.map(x => x.name)], for the variable [callee] *)
Definition names (callee : string) (v : value) : result (list value) :=
  array_map callee (fun x => get_prop x "name") v.

(** [s.replace(/s(_ratio_poster|pic)/g, "l$1")] *)
Fixpoint enlarge (s : string) : string :=
  match s with
  | EmptyString => ""
  | String c s' =>
      if String.prefix "s_ratio_poster" s || String.prefix "spic" s
      then String "l" (enlarge s')
      else String c (enlarge s')
  end.

(** The description of a Douban subject, from the values [gen_douban] has
    extracted ("Generate format"). [imdb_rating] is declared and never
    assigned. *)
Definition IDEOGRAPHIC_SPACE : string := "　".

Definition format_douban
  (poster trans_title this_title year : string)
  (region genre language playdate : list string)
  (imdb_rating imdb_link : option string)
  (douban_rating douban_link episodes duration : string)
  (director writer cast : value) (tags : list string) (introduction : string)
  : result string :=
  let nl := JS.newline in
  let descr := line_if (nonempty_str poster) ("[img]" +:+ poster +:+ "[/img]" +:+ nl +:+ nl) in
  let descr := descr +:+ line_if (nonempty_str trans_title) ("◎译　　名　" +:+ trans_title +:+ nl) in
  let descr := descr +:+ line_if (nonempty_str this_title) ("◎片　　名　" +:+ this_title +:+ nl) in
  let descr := descr +:+ line_if (nonempty_str year) ("◎年　　代　" +:+ JS.trim year +:+ nl) in
  let descr := descr +:+ line_if (negb (Nat.eqb (List.length region) 0))
                           ("◎产　　地　" +:+ JS.join " / " region +:+ nl) in
  let descr := descr +:+ line_if (negb (Nat.eqb (List.length genre) 0))
                           ("◎类　　别　" +:+ JS.join " / " genre +:+ nl) in
  let descr := descr +:+ line_if (negb (Nat.eqb (List.length language) 0))
                           ("◎语　　言　" +:+ JS.join " / " language +:+ nl) in
  let descr := descr +:+ line_if (negb (Nat.eqb (List.length playdate) 0))
                           ("◎上映日期　" +:+ JS.join " / " playdate +:+ nl) in
  let descr := descr +:+ match nonempty imdb_rating with
                         | Some r => "◎IMDb评分  " +:+ r +:+ nl
                         | None => ""
                         end in
  let descr := descr +:+ match nonempty imdb_link with
                         | Some l => "◎IMDb链接  " +:+ l +:+ nl
                         | None => ""
                         end in
  let descr := descr +:+ line_if (nonempty_str douban_rating)
                           ("◎豆瓣评分　" +:+ douban_rating +:+ nl) in
  let descr := descr +:+ line_if (nonempty_str douban_link)
                           ("◎豆瓣链接　" +:+ douban_link +:+ nl) in
  let descr := descr +:+ line_if (nonempty_str episodes) ("◎集　　数　" +:+ episodes +:+ nl) in
  let descr := descr +:+ line_if (nonempty_str duration) ("◎片　　长　" +:+ duration +:+ nl) in
  match (if has_length director then names "director" director else Ok []) with
  | Throw e => Throw e
  | Ok directors =>
  let descr := descr +:+ line_if (has_length director)
                           ("◎导　　演　" +:+ join_values " / " directors +:+ nl) in
  match (if has_length writer then names "writer" writer else Ok []) with
  | Throw e => Throw e
  | Ok writers =>
  let descr := descr +:+ line_if (has_length writer)
                           ("◎编　　剧　" +:+ join_values " / " writers +:+ nl) in
  match (if has_length cast then names "cast" cast else Ok []) with
  | Throw e => Throw e
  | Ok actors =>
  let descr :=
    descr +:+ line_if (has_length cast)
                ("◎主　　演　"
                 +:+ JS.trim (join_values
                                (nl +:+ JS.repeat_str IDEOGRAPHIC_SPACE 4 +:+ "  　") actors)
                 +:+ nl) in
  let descr := descr +:+ line_if (negb (Nat.eqb (List.length tags) 0))
                           (nl +:+ "◎标　　签　" +:+ JS.join " | " tags +:+ nl) in
  let descr :=
    descr +:+ line_if (nonempty_str introduction)
                (nl +:+ "◎简　　介" +:+ nl +:+ nl +:+ "　　"
                 +:+ JS.replace_char JS.LF (nl +:+ JS.repeat_str IDEOGRAPHIC_SPACE 2) introduction
                 +:+ nl) in
  Ok (JS.trim descr)
  end end end.

Definition INTRO_SELECTOR : string :=
  "#link-report-intra > span.all.hidden, #link-report-intra > [property="
  +:+ JS.quoted "v:summary"
  +:+ "], #link-report > span.all.hidden, #link-report > [property="
  +:+ JS.quoted "v:summary" +:+ "]".

Definition gen_douban (sid : string) : M object :=
  let data : object := record [("site", VStr "douban"); ("sid", VStr sid)] in
  let douban_link := "https://movie.douban.com/subject/" +:+ sid +:+ "/" in
  let* resp := fetch (GET douban_link) in
  let text := resp_text resp in
  let* challenge :=
    solveDoubanChallenge (match nonempty (resp_url resp) with
                          | Some u => u
                          | None => douban_link
                          end) text in
  let* refetched :=
    if Challenge.solved challenge then
      match nonempty (Challenge.cookies challenge) with
      | Some c =>
          let* resp :=
            fetch {| req_url := douban_link; req_method := None;
                     req_headers := [("Cookie", c); ("User-Agent", "Mozilla/5.0")];
                     req_body := None; req_redirect := None |} in
          ret (resp, resp_text resp)
      | None => ret (resp, Challenge.text challenge)
      end
    else ret (resp, text) in
  let resp := fst refetched in
  let text := snd refetched in
  if JS.includes "你想访问的页面不存在" text then
    ret (spread data (record [("error", VStr NONE_EXIST_ERROR)]))
  else if JS.includes "检测到有异常请求" text then
    ret (spread data (record [("error", VStr "GenHelp was temporary banned by Douban")]))
  else
    let title := JS.trim (JS.replace_first "(豆瓣)" "" (cheerio_text text "title")) in
    let ldScript := cheerio_html text LD_JSON in
    let final_url := match nonempty (resp_url resp) with
                     | Some u => u
                     | None => douban_link
                     end in
    match nonempty ldScript with
    | None =>
        ret (spread data (record
               [("error", VStr "Could not find movie data");
                ("debug_info",
                 VObj [("final_url", VStr final_url);
                       ("title", VStr title);
                       ("has_challenge", VBool (JS.includes "process(cha)" text));
                       ("page_length", number_of_nat (JS.utf16_length text));
                       ("page_preview", VStr (JS.take_units 2000 text))])]))
    | Some ldScript =>
        match JSON_parse
                (JS.remove_chars
                   (fun c => Ascii.eqb c JS.CR || Ascii.eqb c JS.LF || Ascii.eqb c JS.TAB)
                   ldScript) with
        | Throw e =>
            ret (spread data (record
                   [("error", VStr "Failed to parse movie data");
                    ("debug_info",
                     VObj [("final_url", VStr final_url);
                           ("title", VStr title);
                           ("ld_script_preview", VStr (JS.take_units 1000 ldScript));
                           ("parse_error", VStr (err_message e))])]))
        | Ok ld_json =>
            let has_imdb := Nat.ltb 0 (cheerio_length text (info_anchor "IMDb")) in
            let imdb_id :=
              if has_imdb then Some (fetch_anchor text (info_anchor "IMDb")) else None in
            let imdb_link :=
              match imdb_id with
              | Some i => Some ("https://www.imdb.com/title/" +:+ i +:+ "/")
              | None => None
              end in
            let imdb_rating : option string := None in
            let chinese_title := title in
            let foreign_title :=
              JS.trim (JS.replace_first chinese_title ""
                         (cheerio_text text ("span[property=" +:+ JS.quoted "v:itemreviewed" +:+ "]"))) in
            let aka :=
              if Nat.ltb 0 (cheerio_length text (info_anchor "又名"))
              then aka_of (fetch_anchor text (info_anchor "又名"))
              else "" in
            let trans_title :=
              if nonempty_str foreign_title
              then chinese_title +:+ (if nonempty_str aka then "/" +:+ aka else "")
              else aka in
            let this_title :=
              if nonempty_str foreign_title then foreign_title else chinese_title in
            let anchor_list (label : string) : list string :=
              if Nat.ltb 0 (cheerio_length text (info_anchor label))
              then JS.split " / " (fetch_anchor text (info_anchor label))
              else [] in
            let year := " " +:+ JS.substr 1 4 (cheerio_text text "#content > h1 > span.year") in
            let region := anchor_list "制片国家/地区" in
            let genre := map JS.trim (cheerio_texts text "#info span[property='v:genre']") in
            let language := anchor_list "语言" in
            let playdate :=
              JS.sort by_date
                (map JS.trim (cheerio_texts text "#info span[property='v:initialReleaseDate']")) in
            let episodes :=
              if Nat.ltb 0 (cheerio_length text (info_anchor "集数"))
              then fetch_anchor text (info_anchor "集数") else "" in
            let duration :=
              if Nat.ltb 0 (cheerio_length text (info_anchor "单集片长"))
              then fetch_anchor text (info_anchor "单集片长")
              else JS.trim (cheerio_text text "#info span[property='v:runtime']") in
            let introduction :=
              if Nat.ltb 0 (cheerio_length text INTRO_SELECTOR)
              then JS.join JS.newline
                     (filter nonempty_str
                        (map JS.trim (JS.split JS.newline (cheerio_text text INTRO_SELECTOR))))
              else "暂无相关剧情介绍" in
            let* aggregateRating := lift (get_prop ld_json "aggregateRating") in
            let douban_average_rating := or_else (get_opt aggregateRating "ratingValue") (VNum "0") in
            let douban_votes := or_else (get_opt aggregateRating "ratingCount") (VNum "0") in
            let douban_rating :=
              to_string douban_average_rating +:+ "/10 from " +:+ to_string douban_votes
              +:+ " users" in
            let* image := lift (get_prop ld_json "image") in
            let* poster :=
              lift (if truthy image then
                      match image with
                      | VStr s => Ok (JS.replace_first "img3" "img1" (enlarge s))
                      | _ => Throw (TypeError "ld_json.image.replace is not a function")
                      end
                    else Ok "") in
            let* director0 := lift (get_prop ld_json "director") in
            let director := or_else director0 (VArr []) in
            let* author := lift (get_prop ld_json "author") in
            let writer := or_else author (VArr []) in
            let* actor := lift (get_prop ld_json "actor") in
            let cast := or_else actor (VArr []) in
            let tags := cheerio_texts text ("div.tags-body > a[href^=" +:+ JS.quoted "/tag" +:+ "]") in
            let* descr :=
              lift (format_douban poster trans_title this_title year region genre language
                      playdate imdb_rating imdb_link douban_rating douban_link episodes
                      duration director writer cast tags introduction) in
            ret (spread data (record
                   [("success", VBool true);
                    ("format", VStr descr);
                    ("chinese_title", VStr chinese_title);
                    ("foreign_title", VStr foreign_title);
                    ("aka", strings (if nonempty_str aka then JS.split "/" aka else []));
                    ("trans_title", strings (JS.split "/" trans_title));
                    ("this_title", strings (JS.split "/" this_title));
                    ("year", VStr year);
                    ("region", strings region);
                    ("genre", strings genre);
                    ("language", strings language);
                    ("playdate", strings playdate);
                    ("episodes", VStr episodes);
                    ("duration", VStr duration);
                    ("introduction", VStr introduction);
                    ("douban_rating_average", douban_average_rating);
                    ("douban_votes", douban_votes);
                    ("douban_rating", VStr douban_rating);
                    ("poster", VStr poster);
                    ("director", director);
                    ("writer", writer);
                    ("cast", cast);
                    ("tags", strings tags);
                    ("imdb_id", opt_string imdb_id);
                    ("imdb_link", opt_string imdb_link)]))
        end
    end.

(** *** IMDb *)

Definition imdb_suggestion (d : value) : result value :=
  match get_prop d "y", get_prop d "q", get_prop d "l", get_prop d "id" with
  | Ok y, Ok q, Ok l, Ok id =>
      Ok (VObj [("year", y); ("subtype", q); ("title", l);
                ("link", VStr ("https://www.imdb.com/title/" +:+ to_string id))])
  | Throw e, _, _, _ | _, Throw e, _, _ | _, _, Throw e, _ | _, _, _, Throw e => Throw e
  end.

(** [.filter(d => /^tt/.test(d.id))] *)
Fixpoint filter_tt (l : list value) : result (list value) :=
  match l with
  | [] => Ok []
  | d :: r =>
      match get_prop d "id" with
      | Throw e => Throw e
      | Ok id =>
          match filter_tt r with
          | Throw e => Throw e
          | Ok r' => Ok (if JS.startsWith "tt" (to_string id) then d :: r' else r')
          end
      end
  end.

Definition search_imdb (query : string) : M object :=
  let query := toLowerCase query in
  let* resp :=
    fetch (GET ("https://v2.sg.media-imdb.com/suggestion/" +:+ JS.take_units 1 query
                +:+ "/" +:+ query +:+ ".json")) in
  let* data := resp_json resp in
  let* d := lift (get_prop data "d") in
  let* kept := lift (match or_else d (VArr []) with
                     | VArr items => filter_tt items
                     | _ => Throw (TypeError "(data.d || []).filter is not a function")
                     end) in
  let* items := lift (map_result imdb_suggestion kept) in
  ret (record [("data", VArr items)]).

(** The identifier and the page address [gen_imdb] derives from [sid]. *)
Definition imdb_id_of (sid : string) : string :=
  let sid := if JS.startsWith "tt" sid then JS.drop 2 sid else sid in
  "tt" +:+ JS.padStart 7 "0" sid.

Definition imdb_url_of (sid : string) : string :=
  "https://www.imdb.com/title/" +:+ imdb_id_of sid +:+ "/".

(** "Generate format" of [gen_imdb], on the [data] object. *)
Definition format_imdb (data : object) : string :=
  let nl := JS.newline in
  let descr := img (obj_get "poster" data) in
  let descr := descr +:+ line_if (truthy (obj_get "name" data))
                           ("Title: " +:+ to_string (obj_get "name" data) +:+ nl) in
  let descr := descr +:+ line_if (truthy (obj_get "datePublished" data))
                           ("Date Published: " +:+ to_string (obj_get "datePublished" data) +:+ nl) in
  let descr := descr +:+ line_if (truthy (obj_get "imdb_rating" data))
                           ("IMDb Rating: " +:+ to_string (obj_get "imdb_rating" data) +:+ nl) in
  let descr := descr +:+ line_if (truthy (obj_get "imdb_link" data))
                           ("IMDb Link: " +:+ to_string (obj_get "imdb_link" data) +:+ nl) in
  JS.trim descr.

Definition gen_imdb (sid : string) : M object :=
  let data : object := record [("site", VStr "imdb"); ("sid", VStr sid)] in
  let imdb_id := imdb_id_of sid in
  let imdb_url := imdb_url_of sid in
  let* resp := fetch (GET imdb_url) in
  let text := resp_text resp in
  if JS.includes "404 Error - IMDb" text then
    ret (spread data (record [("error", VStr NONE_EXIST_ERROR)]))
  else
    let* html :=
      lift (match cheerio_html text LD_JSON with
            | Some h => Ok h
            | None => Throw (TypeError "Cannot read properties of null (reading 'replace')")
            end) in
    let* page_json := lift (JSON_parse (JS.remove_chars (Ascii.eqb JS.LF) html)) in
    let data := obj_set "imdb_id" (VStr imdb_id) data in
    let data := obj_set "imdb_link" (VStr imdb_url) data in
    let* name := lift (get_prop page_json "name") in
    let data := obj_set "name" name data in
    let* genre := lift (get_prop page_json "genre") in
    let data := obj_set "genre" genre data in
    let* contentRating := lift (get_prop page_json "contentRating") in
    let data := obj_set "contentRating" contentRating data in
    let* datePublished := lift (get_prop page_json "datePublished") in
    let data := obj_set "datePublished" datePublished data in
    let* description := lift (get_prop page_json "description") in
    let data := obj_set "description" description data in
    let* duration := lift (get_prop page_json "duration") in
    let data := obj_set "duration" duration data in
    let* image := lift (get_prop page_json "image") in
    let data := obj_set "poster" image data in
    let* year := lift (slice_opt "page_json.datePublished" 4 datePublished) in
    let data := obj_set "year" year data in
    let* aggregateRating := lift (get_prop page_json "aggregateRating") in
    let data :=
      if truthy aggregateRating then
        let data := obj_set "imdb_votes"
                      (or_else (get_opt aggregateRating "ratingCount") (VNum "0")) data in
        let data := obj_set "imdb_rating_average"
                      (or_else (get_opt aggregateRating "ratingValue") (VNum "0")) data in
        obj_set "imdb_rating"
          (VStr (to_string (obj_get "imdb_rating_average" data) +:+ "/10 from "
                 +:+ to_string (obj_get "imdb_votes" data) +:+ " users")) data
      else data in
    let data := obj_set "format" (VStr (format_imdb data)) data in
    let data := obj_set "success" (VBool true) data in
    ret data.

(** *** Bangumi *)

Definition tp_dict (type : value) : value :=
  let k := to_string type in
  if String.eqb k "1" then VStr "漫画/小说"
  else if String.eqb k "2" then VStr "动画/二次元番"
  else if String.eqb k "3" then VStr "音乐"
  else if String.eqb k "4" then VStr "游戏"
  else if String.eqb k "6" then VStr "三次元番"
  else VUndefined.

Definition bangumi_suggestion (d : value) : result value :=
  match get_prop d "air_date" with
  | Throw e => Throw e
  | Ok air_date =>
      match slice_opt "d.air_date" 4 air_date with
      | Throw e => Throw e
      | Ok year =>
          Ok (VObj [("year", year);
                    ("subtype", tp_dict (get_opt d "type"));
                    ("title", or_else (get_opt d "name_cn") (get_opt d "name"));
                    ("subtitle", get_opt d "name");
                    ("link", get_opt d "url")])
      end
  end.

Definition search_bangumi (query : string) : M object :=
  let* resp :=
    fetch (GET ("http://api.bgm.tv/search/subject/" +:+ encodeURIComponent query
                +:+ "?responseGroup=large")) in
  let* data := resp_json resp in
  let* list := lift (get_prop data "list") in
  let* items := lift (array_map "(data.list || [])" bangumi_suggestion (or_else list (VArr []))) in
  ret (record [("data", VArr items)]).

(** [/^(中文名|话数|放送开始|放送星期|别名|官方网站)/.test(d)] *)
Definition is_info_line (d : string) : bool :=
  existsb (fun p => String.prefix p d)
    ["中文名"; "话数"; "放送开始"; "放送星期"; "别名"; "官方网站"].

(** [href.replace(/\/cover\/[lcmsg]\//, "/cover/l/")] *)
Fixpoint large_cover (s : string) : string :=
  match s with
  | EmptyString => ""
  | String c s' =>
      if existsb (fun p => String.prefix p s)
           ["/cover/l/"; "/cover/c/"; "/cover/m/"; "/cover/s/"; "/cover/g/"]
      then "/cover/l/" +:+ JS.drop 9 s
      else String c (large_cover s')
  end.

Definition format_bangumi (data : object) : string :=
  let nl := JS.newline in
  let descr := img (obj_get "poster" data) in
  let descr := descr +:+ line_if (truthy (obj_get "story" data))
                           ("[b]Story: [/b]" +:+ nl +:+ nl +:+ to_string (obj_get "story" data)
                            +:+ nl +:+ nl) in
  let descr :=
    descr +:+ line_if (truthy (get_opt (obj_get "staff" data) "length"))
                ("[b]Staff: [/b]" +:+ nl +:+ nl
                 +:+ match obj_get "staff" data with
                     | VArr items => join_values nl (firstn 15 items)
                     | _ => ""
                     end
                 +:+ nl +:+ nl) in
  let descr := descr +:+ line_if (truthy (obj_get "alt" data))
                           ("(来源于 " +:+ to_string (obj_get "alt" data) +:+ ")" +:+ nl) in
  JS.trim descr.

Definition gen_bangumi (sid : string) : M object :=
  let data : object := record [("site", VStr "bangumi"); ("sid", VStr sid)] in
  let bangumi_link := "https://bgm.tv/subject/" +:+ sid in
  let* resp := fetch (GET bangumi_link) in
  let text := resp_text resp in
  if JS.includes "呜咕，出错了" text then
    ret (spread data (record [("error", VStr NONE_EXIST_ERROR)]))
  else
    let data := obj_set "alt" (VStr bangumi_link) data in
    let cover := "div#bangumiInfo a.thickbox.cover" in
    let data :=
      obj_set "poster"
        (VStr (match nonempty (cheerio_attr text cover "href") with
               | Some href => "https:" +:+ large_cover href
               | None => ""
               end)) data in
    let data := obj_set "story" (VStr (JS.trim (cheerio_text text "div#subject_summary"))) data in
    let info := cheerio_texts text "div#bangumiInfo ul#infobox li" in
    let staff := filter (fun d => negb (is_info_line d)) info in
    let data := obj_set "staff" (strings staff) data in
    let data :=
      obj_set "info"
        (strings (filter (fun d => existsb (String.eqb d) staff) info)) data in
    let data :=
      obj_set "bangumi_votes" (VStr (cheerio_text text ("span[property=" +:+ JS.quoted "v:votes" +:+ "]"))) data in
    let data :=
      obj_set "bangumi_rating_average"
        (VStr (cheerio_text text ("div.global_score > span[property=" +:+ JS.quoted "v:average" +:+ "]"))) data in
    let data :=
      obj_set "tags"
        (strings (cheerio_texts text
                    "#subject_detail > div.subject_tag_section > div > a > span")) data in
    let data := obj_set "format" (VStr (format_bangumi data)) data in
    let data := obj_set "success" (VBool true) data in
    ret data.

(** *** Steam *)

(** [src.replace(/\?t=\d+$/, "")] *)
Definition cache_buster : Regex.regex :=
  Regex.seq [Regex.lit "?t="; Regex.plus Regex.digit; Regex.End_].

Fixpoint strip_cache_buster (s : string) : string :=
  match Regex.rmatch cache_buster s [] (fun _ c => Some c) with
  | Some _ => ""
  | None =>
      match s with
      | EmptyString => ""
      | String c s' => String c (strip_cache_buster s')
      end
  end.

Definition format_steam (sid : string) (data : object) : string :=
  let nl := JS.newline in
  let descr := img (obj_get "poster" data) in
  let descr := descr +:+ line_if (truthy (obj_get "name" data))
                           ("游戏名称: " +:+ to_string (obj_get "name" data) +:+ nl) in
  let descr := descr +:+ "Steam页面: https://store.steampowered.com/app/" +:+ sid +:+ "/" +:+ nl in
  JS.trim descr.

Definition gen_steam (sid : string) : M object :=
  let data : object := record [("site", VStr "steam"); ("sid", VStr sid)] in
  let* resp :=
    fetch {| req_url := "https://store.steampowered.com/app/" +:+ sid +:+ "/?l=schinese";
             req_method := None;
             req_headers :=
               [("Cookie",
                 "lastagecheckage=1-January-1975; birthtime=157737601; mature_content=1; wants_mature_content=1; Steam_Language=schinese")];
             req_body := None;
             req_redirect := Some "manual" |} in
  if (resp_status resp =? 302)%Z then
    ret (spread data (record [("error", VStr NONE_EXIST_ERROR)]))
  else if (resp_status resp =? 403)%Z then
    ret (spread data (record [("error", VStr "Steam Server ban")]))
  else
    let text := resp_text resp in
    let name := JS.trim (cheerio_text text "div.apphub_AppName") in
    let data :=
      obj_set "name"
        (VStr (if nonempty_str name then name
               else JS.trim (cheerio_text text "span[itemprop='name']"))) data in
    let data :=
      obj_set "poster"
        (match cheerio_attr text "img.game_header_image_full[src]" "src" with
         | Some src => VStr (strip_cache_buster src)
         | None => VUndefined
         end) data in
    let data := obj_set "tags" (strings (map JS.trim (cheerio_texts text "a.app_tag"))) data in
    let data := obj_set "format" (VStr (format_steam sid data)) data in
    let data := obj_set "success" (VBool true) data in
    ret data.

(** *** Indienova *)

Definition format_indienova (data : object) : string :=
  let nl := JS.newline in
  let descr := img (obj_get "poster" data) in
  let descr := descr +:+ line_if (truthy (obj_get "chinese_title" data))
                           ("中文名称：" +:+ to_string (obj_get "chinese_title" data) +:+ nl) in
  JS.trim descr.

Definition gen_indienova (sid : string) : M object :=
  let data : object := record [("site", VStr "indienova"); ("sid", VStr sid)] in
  let* resp := fetch (GET ("https://indienova.com/game/" +:+ sid)) in
  let text := resp_text resp in
  if JS.includes "出现错误" text then
    ret (spread data (record [("error", VStr NONE_EXIST_ERROR)]))
  else
    let data := obj_set "poster" (opt_string (cheerio_attr text "div.cover-image img" "src")) data in
    let data :=
      obj_set "chinese_title"
        (VStr (JS.trim (hd "" (JS.split "-" (hd "" (JS.split "|" (cheerio_text text "title")))))))
        data in
    let data := obj_set "format" (VStr (format_indienova data)) data in
    let data := obj_set "success" (VBool true) data in
    ret data.

(** *** Epic *)

Definition format_epic (data : object) : string :=
  let nl := JS.newline in
  let descr := img (obj_get "poster" data) in
  let descr := descr +:+ line_if (truthy (obj_get "name" data))
                           ("游戏名称：" +:+ to_string (obj_get "name" data) +:+ nl) in
  let descr := descr +:+ line_if (truthy (obj_get "epic_link" data))
                           ("商店链接：" +:+ to_string (obj_get "epic_link" data) +:+ nl) in
  let descr := descr +:+ line_if (truthy (obj_get "desc" data))
                           (nl +:+ "【游戏简介】" +:+ nl +:+ nl +:+ to_string (obj_get "desc" data)
                            +:+ nl) in
  JS.trim descr.

Definition gen_epic (sid : string) : M object :=
  let data : object := record [("site", VStr "epic"); ("sid", VStr sid)] in
  let* resp :=
    fetch (GET ("https://store-content.ak.epicgames.com/api/zh-CN/content/products/" +:+ sid)) in
  if (resp_status resp =? 404)%Z then
    ret (spread data (record [("error", VStr NONE_EXIST_ERROR)]))
  else
    let* api_json := resp_json resp in
    let* pages := lift (get_prop api_json "pages") in
    let page := first_opt pages in
    if negb (truthy page) then
      ret (spread data (record [("error", VStr "Invalid response")]))
    else
      let data := obj_set "name" (get_opt page "productName") data in
      let data :=
        obj_set "epic_link"
          (VStr ("https://www.epicgames.com/store/zh-CN/product/" +:+ sid +:+ "/home")) data in
      let page_data := get_opt page "data" in
      let data := obj_set "desc" (get_opt (get_opt page_data "about") "description") data in
      let data :=
        obj_set "poster" (get_opt (get_opt (get_opt page_data "hero") "logoImage") "src") data in
      let* screenshot :=
        lift (array_map "(page.data?.gallery?.galleryImages || [])"
                (fun x => get_prop x "src")
                (or_else (get_opt (get_opt page_data "gallery") "galleryImages") (VArr []))) in
      let data := obj_set "screenshot" (VArr screenshot) data in
      let data := obj_set "format" (VStr (format_epic data)) data in
      let data := obj_set "success" (VBool true) data in
      ret data.

(** *** The resolver *)

(** [support_list], in the order of its keys. *)
Definition scheme : Regex.regex :=
  Regex.opt (Regex.seq [Regex.lit "http"; Regex.opt (Regex.lit "s"); Regex.lit "://"]).

Definition trailing_slash : Regex.regex := Regex.opt (Regex.lit "/").

Definition support_list : list (string * Regex.regex) :=
  [("douban",
    Regex.seq [scheme;
               Regex.opt (Regex.Seq (Regex.Alt (Regex.lit "movie") (Regex.lit "www"))
                                    (Regex.lit "."));
               Regex.lit "douban.com/";
               Regex.Alt (Regex.lit "subject") (Regex.lit "movie");
               Regex.lit "/"; Regex.Group 1 (Regex.plus Regex.digit); trailing_slash]);
   ("imdb",
    Regex.seq [scheme; Regex.opt (Regex.lit "www."); Regex.lit "imdb.com/title/";
               Regex.Group 1 (Regex.Seq (Regex.lit "tt") (Regex.plus Regex.digit));
               trailing_slash]);
   ("bangumi",
    Regex.seq [scheme;
               Regex.Alt (Regex.lit "bgm.tv")
                 (Regex.Alt (Regex.lit "bangumi.tv") (Regex.lit "chii.in"));
               Regex.lit "/subject/"; Regex.Group 1 (Regex.plus Regex.digit);
               trailing_slash]);
   ("steam",
    Regex.seq [scheme; Regex.opt (Regex.lit "store."); Regex.lit "steam";
               Regex.Alt (Regex.lit "powered") (Regex.lit "community");
               Regex.lit ".com/app/"; Regex.Group 1 (Regex.plus Regex.digit);
               trailing_slash]);
   ("indienova",
    Regex.seq [scheme; Regex.lit "indienova.com/game/";
               Regex.Group 1 (Regex.plus Regex.nonspace)]);
   ("epic",
    Regex.seq [scheme; Regex.lit "www.epicgames.com/store/";
               Regex.plus (Regex.Chr (fun c => Regex.is_lower c || Regex.is_upper c
                                               || Ascii.eqb c "-"));
               Regex.lit "/product/"; Regex.Group 1 (Regex.plus Regex.nonspace);
               Regex.lit "/"; Regex.opt Regex.nonspace])].

(** The loop over [Object.entries(support_list)]: the first pattern that
    matches gives the site and the subject id. *)
Fixpoint identify (patterns : list (string * Regex.regex)) (url_str : string)
  : option (string * string) :=
  match patterns with
  | [] => None
  | (site_name, pattern) :: rest =>
      match Regex.exec pattern url_str with
      | Some m => Some (site_name, default "" (Regex.capture 1 m))
      | None => identify rest url_str
      end
  end.

(** [process.env] and the file read at start-up. *)
Record Env : Type := mkEnv {
  env_APIKEY : option string;
  env_DISABLE_SEARCH : option string;
  env_AUTHOR : option string;
  indexHtml : string
}.

Definition AUTHOR (env : Env) : string := default "Rhilip" (nonempty (env_AUTHOR env)).

(** [memoryCache]: key to value and expiry time. The value is the text
    [JSON.stringify(response_data)]; it is represented by the record that
    [JSON.parse] reads back from it, [jsonify_object response_data]. *)
Abbreviation Store := (gmap string (object * Z)).

(** [PT_GEN_STORE.get] at the instant [now] *)
Definition PT_GEN_STORE_get (now : Z) (key : string) (memoryCache : Store)
  : Store * option object :=
  match memoryCache !! key with
  | None => (memoryCache, None)
  | Some (value, expiry) =>
      if (expiry <? now)%Z then (delete key memoryCache, None)
      else (memoryCache, Some value)
  end.

(** [PT_GEN_STORE.put] *)
Definition PT_GEN_STORE_put (now : Z) (key : string) (value : object) (expirationTtl : Z)
  (memoryCache : Store) : Store :=
  let ttl := if (expirationTtl =? 0)%Z then 86400%Z else expirationTtl in
  <[key := (value, (now + ttl * 1000)%Z)]> memoryCache.

(** [restoreFromKV(cache_key)]: the text of an entry is never empty, and
    [JSON.parse] gives back its record. *)
Definition restoreFromKV (now : Z) (cache_key : string) (memoryCache : Store)
  : Store * option object :=
  PT_GEN_STORE_get now cache_key memoryCache.

Record Response : Type := mkResponseOut {
  status : Z;
  content_type : string;
  (** the body: a page, or the object of which the text sent is
      [JSON.stringify(body, null, 2)] *)
  body : string + object
}.

Definition makeJsonRawResponse (body : object) (status : Z) : Response :=
  {| status := if (status =? 0)%Z then 200%Z else status;
     content_type := "application/json";
     body := inr body |}.

Definition number_of_Z (z : Z) : value :=
  VNum ((if (z <? 0)%Z then "-" else "") +:+ JS.decimal (Z.abs_N z)).

Definition makeJsonResponse (env : Env) (now : Z) (body_update : object) (statusCode : Z)
  : Response :=
  let default_body : object :=
    record
    [("success", VBool false);
     ("error", VNull);
     ("format", VStr "");
     ("copyright", VStr ("Powered by @" +:+ AUTHOR env));
     ("version", VStr VERSION);
     ("generate_at", VNum "0")] in
  let body :=
    spread (spread default_body body_update) (record [("generate_at", number_of_Z now)]) in
  makeJsonRawResponse body statusCode.

(** [Date.now() / 1000] for a non-negative instant *)
Definition seconds (now : Z) : value :=
  let n := Z.abs_N now in
  let ms := (n mod 1000)%N in
  let frac :=
    if (ms =? 0)%N then ""
    else if (ms mod 100 =? 0)%N then "." +:+ JS.decimal (ms / 100)
    else if (ms mod 10 =? 0)%N then "." +:+ JS.padStart 2 "0" (JS.decimal (ms / 10))
    else "." +:+ JS.padStart 3 "0" (JS.decimal ms) in
  VNum (JS.decimal (n / 1000) +:+ frac).

Record Request : Type := mkRequestIn {
  url : string;
  method : string
}.

Definition debug_get_err (now : Z) (err : exn) (request : Request) : value :=
  VObj [("message", VStr (err_name err +:+ ": " +:+ err_message err));
        ("timestamp", seconds now);
        ("request", VObj [("method", VStr (method request)); ("url", VStr (url request))])].

Definition query_get (k : string) (uri : Uri) : option string :=
  nonempty (headers_get k (query uri)).

(** The search endpoint, after the cache lookup missed. *)
Definition dispatch_search (source keywords : string) : M object :=
  if String.eqb source "douban" then search_douban keywords
  else if String.eqb source "imdb" then search_imdb keywords
  else if String.eqb source "bangumi" then search_bangumi keywords
  else ret (record [("error", VStr ("Unknown source: " +:+ source))]).

(** The generate endpoint, after the cache lookup missed. *)
Definition dispatch_generate (site sid : string) : M object :=
  if String.eqb site "douban" then gen_douban sid
  else if String.eqb site "imdb" then gen_imdb sid
  else if String.eqb site "bangumi" then gen_bangumi sid
  else if String.eqb site "steam" then gen_steam sid
  else if String.eqb site "indienova" then gen_indienova sid
  else if String.eqb site "epic" then gen_epic sid
  else ret (record [("error", VStr ("Unknown site: " +:+ site))]).

(** The cache lookup and, on a miss, the live resolution [live]. *)
Definition cached_or (now : Z) (cache_key : string) (live : M object) (memoryCache : Store)
  : Store * M (object * option string) :=
  let '(memoryCache, cache_data) := restoreFromKV now cache_key memoryCache in
  (memoryCache,
   match cache_data with
   | Some cache_data => ret (cache_data, Some cache_key)
   | None => let* response_data := live in ret (response_data, Some cache_key)
   end).

(** The site and the subject id of a generate request: from the [url]
    parameter if there is one, else from [site] and [sid]. *)
Definition subject_of (uri : Uri) : option string * option string :=
  match query_get "url" uri with
  | Some url_str =>
      match identify support_list url_str with
      | Some (site, sid) => (nonempty (Some site), nonempty (Some sid))
      | None => (None, None)
      end
  | None => (query_get "site" uri, query_get "sid" uri)
  end.

Definition MISSING : string :=
  "Miss key of site or sid, or input unsupported resource url.".

(** The part of [handle] between the API key check and "Cache and return
    response": it leaves [response_data] and [cache_key]. *)
Definition resolve (env : Env) (now : Z) (uri : Uri) (memoryCache : Store)
  : Store * M (object * option string) :=
  match query_get "search" uri with
  | Some keywords =>
      match nonempty (env_DISABLE_SEARCH env) with
      | Some _ => (memoryCache, ret (record [("error", VStr "this ptgen disallow search")], None))
      | None =>
          let source := default "douban" (query_get "source" uri) in
          let cache_key := "search-" +:+ source +:+ "-" +:+ keywords in
          cached_or now cache_key (dispatch_search source keywords) memoryCache
      end
  | None =>
      match subject_of uri with
      | (Some site, Some sid) =>
          let cache_key := "info-" +:+ site +:+ "-" +:+ sid in
          cached_or now cache_key (dispatch_generate site sid) memoryCache
      | _ => (memoryCache, ret (record [("error", VStr MISSING)], None))
      end
  end.

Definition CACHE_TTL : Z := 86400 * 2.

(** "Cache and return response", and the [catch] clause. [global.PT_GEN_STORE]
    is defined at start-up, so its test always succeeds. *)
Definition respond (env : Env) (now : Z) (request : Request)
  (memoryCache : Store) (resolved : M (object * option string))
  : Store * list outbound * Response :=
  match resolved with
  | (sent, Ok (response_data, cache_key)) =>
      let response := makeJsonResponse env now response_data 200 in
      let memoryCache :=
        match cache_key with
        | Some cache_key =>
            if negb (truthy (obj_get "error" response_data))
            then PT_GEN_STORE_put now cache_key (jsonify_object response_data)
                   CACHE_TTL memoryCache
            else memoryCache
        | None => memoryCache
        end in
      (memoryCache, sent, response)
  | (sent, Throw err) =>
      (memoryCache, sent,
       makeJsonResponse env now
         (record [("error", VStr ("Internal Error: " +:+ err_message err));
                  ("debug", debug_get_err now err request)]) 500)
  end.

(** [process.env.APIKEY && uri.query.apikey !== process.env.APIKEY] *)
Definition apikey_missing (env : Env) (uri : Uri) : bool :=
  match nonempty (env_APIKEY env) with
  | Some key =>
      match headers_get "apikey" (query uri) with
      | Some given => negb (String.eqb given key)
      | None => true
      end
  | None => false
  end.

(** [handle(request)] at the instant [now], from the cache [memoryCache]:
    the cache afterwards, the requests sent and the response. *)
Definition handle (env : Env) (now : Z) (request : Request) (memoryCache : Store)
  : Store * list outbound * Response :=
  let uri := url_parse (url request) in
  if String.eqb (pathname uri) "/" && String.eqb (search uri) "" then
    (memoryCache, [],
     {| status := 200; content_type := "text/html"; body := inl (indexHtml env) |})
  else if apikey_missing env uri then
    (memoryCache, [], makeJsonRawResponse (record [("error", VStr "apikey required.")]) 403)
  else
    let '(memoryCache, resolved) := resolve env now uri memoryCache in
    respond env now request memoryCache resolved.

End WithHost.

End Server.

(** ** Vocabulary of the statements *)

(** The first [k] characters of [h] are all ['0']. *)
Definition leading_zeros (k : nat) (h : string) : Prop :=
  forall i, i < k -> String.get i h = Some "0"%char.

(** The hex-encoded SHA-512 digest of [cha] followed by the decimal [nonce]. *)
Definition pow_digest `{Crypto} (cha : string) (nonce : N) : string :=
  Server.sha512_hex (cha +:+ JS.decimal nonce).

(** [n] is the least nonce whose digest starts with four zeros, and it is
    within the limit of the search. *)
Definition least_nonce `{Crypto} (cha : string) (n : N) : Prop :=
  (n <= NONCE_LIMIT)%N
  /\ leading_zeros 4 (pow_digest cha n)
  /\ forall m, (m < n)%N -> ~ leading_zeros 4 (pow_digest cha m).

(** The test of the loops: the first [difficulty] characters of the digest
    make up the target. *)
Definition qualifies `{Crypto} (cha : string) (difficulty : nat) (nonce : N) : bool :=
  String.eqb (JS.take difficulty (pow_digest cha nonce)) (JS.repeat_str "0" difficulty).

(** [needle] occurs in [s]. *)
Definition contains (needle s : string) : Prop :=
  exists before after, s = before +:+ needle +:+ after.

(** The two markers of a gate page. *)
Definition HOOK_MARKER : string := "process(cha)".
Definition FIELD_MARKER : string := "id=" +:+ JS.quoted "cha".

(** The page is passed on to the parameter extraction exactly when both
    markers occur in it. *)
Definition is_gate (responseText : string) : bool :=
  JS.includes HOOK_MARKER responseText && JS.includes FIELD_MARKER responseText.

(** The result for a page that is not a gate. *)
Definition not_a_gate (responseText : string) : challenge_result :=
  {| Challenge.solved := false; Challenge.text := responseText;
     Challenge.error := None; Challenge.cookies := None |}.

(** A gate page carrying the token "T0K" and the challenge "c1E16". *)
Definition gate_page : string :=
  "<form><input type='hidden' id=" +:+ JS.quoted "tok" +:+ " value=" +:+ JS.quoted "T0K"
  +:+ "><input type='hidden' id=" +:+ JS.quoted "cha" +:+ " value=" +:+ JS.quoted "c1E16"
  +:+ "></form><script>process(cha)</script>".

(** A page that holds a structured data block with the empty object and
    nothing else. *)
Definition LD_PAGE : string := "<script type='application/ld+json'>{}</script>".

(** The addresses at which the sites answer in JSON: the suggestions of
    Douban and IMDb and the interfaces of Bangumi and Epic. *)
Definition json_address (url : string) : bool :=
  existsb (fun part => JS.includes part url)
    ["/j/subject_suggest"; "/suggestion/"; "api.bgm.tv"; "/api/"].

(** A network that answers every request with status 200 and no header: the
    empty JSON object at a JSON address, the page [LD_PAGE] at any other. *)
Definition bare_network : Network :=
  {| send := fun r => Ok {| resp_status := 200; resp_url := None; resp_headers := [];
                           resp_text := if json_address (req_url r) then "{}"
                                        else LD_PAGE |} |}.

(** Byte-wise lexicographic comparison. *)
Fixpoint lex_compare (a b : string) : Z :=
  match a, b with
  | EmptyString, EmptyString => 0
  | EmptyString, String _ _ => -1
  | String _ _, EmptyString => 1
  | String x a', String y b' =>
      if (N_of_ascii x <? N_of_ascii y)%N then -1
      else if (N_of_ascii y <? N_of_ascii x)%N then 1
      else lex_compare a' b'
  end%Z.

(** [url.parse] without percent-decoding: the path up to the first [?] and
    the parameters [name=value] separated by [&]. *)
Definition plain_url_parse (s : string) : Uri :=
  match JS.split "?" s with
  | [] | [_] => {| pathname := s; search := ""; query := [] |}
  | path :: rest =>
      let qs := JS.join "?" rest in
      {| pathname := path;
         search := "?" +:+ qs;
         query := map (fun pair => match JS.split "=" pair with
                                   | [] => ("", "")
                                   | k :: v => (k, JS.join "=" v)
                                   end) (JS.split "&" qs) |}
  end.

(** A small platform for the examples: its JSON parser reads the empty
    object only, in a document it finds the structured data block of
    [LD_PAGE] when the document holds it and nothing else, it collates
    byte-wise, knows no date and maps no letter to lower case. *)
Definition plain_platform : Platform :=
  {| JSON_parse := fun s => if String.eqb s "{}" then Ok (VObj [])
                            else Throw (SyntaxError "Unexpected token");
     cheerio_text := fun _ _ => "";
     cheerio_html := fun document selector =>
                       if String.eqb selector Server.LD_JSON && JS.includes LD_PAGE document
                       then Some "{}" else None;
     cheerio_attr := fun _ _ _ => None;
     cheerio_length := fun _ _ => 0;
     cheerio_texts := fun _ _ => [];
     cheerio_next_value := fun _ _ => None;
     localeCompare := lex_compare;
     Date_parse := fun _ => None;
     toLowerCase := fun s => s;
     url_parse := plain_url_parse |}.

(** An environment without API key, with search enabled. *)
Definition open_env : Server.Env :=
  {| Server.env_APIKEY := None; Server.env_DISABLE_SEARCH := None;
     Server.env_AUTHOR := None; Server.indexHtml := "<html></html>" |}.

Definition get_request (url : string) : Server.Request :=
  {| Server.url := url; Server.method := "GET" |}.

(** The invariant of a record, as the caller sees it in the envelope: with
    [success: true] there is no error, with [success: false] the format is
    the empty string, and without [success: true] no format is populated. *)
Definition record_ok (body : object) : Prop :=
  (obj_get "success" body = VBool true -> nullish (obj_get "error" body) = true)
  /\ (obj_get "success" body = VBool false -> obj_get "format" body = VStr "")
  /\ (obj_get "success" body <> VBool true -> truthy (obj_get "format" body) = false).

(** The same on what a resolution produces, before the envelope supplies its
    defaults: a record marked successful has no error, and any other record
    has no format. *)
Definition data_ok (response_data : object) : Prop :=
  (obj_get "success" response_data = VBool true
   -> nullish (obj_get "error" response_data) = true)
  /\ (obj_get "success" response_data <> VBool true
      -> has_key "format" response_data = false).

(** Every cache entry holds a record in that shape and without an error. *)
Definition store_ok (memoryCache : gmap string (object * Z)) : Prop :=
  forall key response_data expiry,
    memoryCache !! key = Some (response_data, expiry) ->
    data_ok response_data /\ truthy (obj_get "error" response_data) = false.

(** Every cache entry of a generate request, that is under a key that
    begins with [info-], holds a record marked successful. *)
Definition info_marked (memoryCache : gmap string (object * Z)) : Prop :=
  forall key response_data expiry,
    memoryCache !! key = Some (response_data, expiry) ->
    String.prefix "info-" key = true ->
    obj_get "success" response_data = VBool true.

(** The response reports a failure: its body is a record with an error. *)
Definition failed (response : Server.Response) : Prop :=
  match Server.body response with
  | inr body => truthy (obj_get "error" body) = true
  | inl _ => False
  end.

(** [m] sends no request. *)
Definition silent {A} (m : M A) : Prop := requests m = [].

(** A string of decimal digits, and [tt] followed by at least seven of them. *)
Definition all_digits (s : string) : bool :=
  forallb Regex.is_digit (list_ascii_of_string s).

Definition canonical_imdb_id (imdb_id : string) : bool :=
  JS.startsWith "tt" imdb_id
  && all_digits (JS.drop 2 imdb_id)
  && (7 <=? String.length (JS.drop 2 imdb_id))%nat.

(** The record that a response carries; a page carries none. *)
Definition record_sent (response : Server.Response) : object :=
  match Server.body response with
  | inr body => body
  | inl _ => ∅
  end.

(** Where [resolve] sends a request: to a fixed error record, or to the cache
    under a key with a live resolution to fall back on. *)
Definition route `{Crypto} `{Network} `{Platform} (env : Server.Env) (uri : Uri)
  : object + string * M object :=
  match Server.query_get "search" uri with
  | Some keywords =>
      match nonempty (Server.env_DISABLE_SEARCH env) with
      | Some _ => inl (record [("error", VStr "this ptgen disallow search")])
      | None =>
          let source := default "douban" (Server.query_get "source" uri) in
          inr ("search-" +:+ source +:+ "-" +:+ keywords,
               Server.dispatch_search source keywords)
      end
  | None =>
      match Server.subject_of uri with
      | (Some site, Some sid) =>
          inr ("info-" +:+ site +:+ "-" +:+ sid, Server.dispatch_generate site sid)
      | _ => inl (record [("error", VStr Server.MISSING)])
      end
  end.

(** The number that a string of decimal digits denotes. *)
Fixpoint undecimal_from (acc : N) (s : string) : N :=
  match s with
  | EmptyString => acc
  | String c s' => undecimal_from (acc * 10 + (N_of_ascii c - 48)) s'
  end.

Definition undecimal (s : string) : N := undecimal_from 0 s.

(** Two digest functions that mark the limits of the search: under the
    first no message has a digest starting with a zero; under the second
    exactly the message [msg] has. *)
Definition all_ff : list ascii := repeat (ascii_of_N 255) 64.
Definition all_00 : list ascii := repeat (ascii_of_N 0) 64.

Definition unsolvable : Crypto := {| digest := fun _ => all_ff |}.

Definition solved_by (msg : string) : Crypto :=
  {| digest := fun s => if String.eqb s msg then all_00 else all_ff |}.

(** The shape common to the two nonce loops, for the proofs that treat both
    at once. *)
Fixpoint nonce_search (qualifies : N -> bool) (timeout : exn) (fuel : nat) (nonce : N)
  : option (result N) :=
  match fuel with
  | O => None
  | S fuel' =>
      if qualifies nonce then Some (Ok nonce)
      else if (NONCE_LIMIT <? nonce + 1)%N then Some (Throw timeout)
           else nonce_search qualifies timeout fuel' (nonce + 1)%N
  end.

(** The number that a list of decimal digits denotes, after [a]. *)
Definition digits_value (a : N) (l : list N) : N := fold_left (fun x d => x * 10 + d)%N l a.

(** [post P m]: if [m] returns, what it returns satisfies [P]. *)
Definition post {A} (P : A -> Prop) (m : M A) : Prop :=
  forall sent a, m = (sent, Ok a) -> P a.

(** ** Further vocabulary *)

(** A network that answers every request with the same status and text, and
    one on which every request fails with the same error. *)
Definition page_network (status : Z) (text : string) : Network :=
  {| send := fun _ => Ok {| resp_status := status; resp_url := None; resp_headers := [];
                           resp_text := text |} |}.

Definition failing_network (e : exn) : Network := {| send := fun _ => Throw e |}.

(** An environment that asks for the API key [key]. *)
Definition keyed_env (key : string) : Server.Env :=
  {| Server.env_APIKEY := Some key; Server.env_DISABLE_SEARCH := None;
     Server.env_AUTHOR := None; Server.indexHtml := "<html></html>" |}.

(** The expiry that [PT_GEN_STORE.put] gives an entry written at [now]. *)
Definition expiry_of (now expirationTtl : Z) : Z :=
  (now + (if (expirationTtl =? 0)%Z then 86400 else expirationTtl) * 1000)%Z.

(** The sites that [handle] can generate from and the sources it can search. *)
Definition SITES : list string :=
  ["douban"; "imdb"; "bangumi"; "steam"; "indienova"; "epic"].

Definition SOURCES : list string := ["douban"; "imdb"; "bangumi"].

(** What each generator takes for the site's "no such subject": a marker in
    the page, or a status. A Douban page is searched after the challenge
    step, which a gate page with its parameters does not pass. *)
Definition not_found (site : string) (resp : response) : bool :=
  let text := resp_text resp in
  if String.eqb site "douban" then
    negb (is_gate text
          && match match_param "tok" text, match_param "cha" text with
             | Some _, Some _ => true
             | _, _ => false
             end)
    && JS.includes "你想访问的页面不存在" text
  else if String.eqb site "imdb" then JS.includes "404 Error - IMDb" text
  else if String.eqb site "bangumi" then JS.includes "呜咕，出错了" text
  else if String.eqb site "steam" then (resp_status resp =? 302)%Z
  else if String.eqb site "indienova" then JS.includes "出现错误" text
  else if String.eqb site "epic" then (resp_status resp =? 404)%Z
  else false.

(** The string does not go on with a decimal digit. *)
Definition no_leading_digit (s : string) : bool :=
  match s with
  | String c _ => negb (Regex.is_digit c)
  | EmptyString => true
  end.

(** The beginnings of the addresses of a Douban subject that the pattern of
    [support_list] allows: with or without scheme, on the bare host or on
    [movie.] or [www.], under [subject] or [movie]. *)
Definition douban_prefixes : list string :=
  flat_map (fun scheme =>
    flat_map (fun host =>
      map (fun path => scheme +:+ host +:+ "douban.com/" +:+ path +:+ "/")
          ["subject"; "movie"])
      ["movie."; "www."; ""])
    ["https://"; "http://"; ""].

(** Addresses of the sites after Douban in [support_list] whose subjects are
    numbered: the site, the beginning of the address and the letters that
    belong to the subject id. *)
Definition numbered_addresses : list (string * string * string) :=
  [("imdb", "https://www.imdb.com/title/", "tt");
   ("imdb", "imdb.com/title/", "tt");
   ("bangumi", "https://bgm.tv/subject/", "");
   ("bangumi", "http://bangumi.tv/subject/", "");
   ("bangumi", "chii.in/subject/", "");
   ("steam", "https://store.steampowered.com/app/", "");
   ("steam", "https://steamcommunity.com/app/", "")].

(** A page of Bangumi whose info box has two lines, the first with one of
    the labels that [gen_bangumi] leaves out, and a platform that reads the
    lines of that page and is [plain_platform] otherwise. *)
Definition infobox_page : string :=
  "<div id='bangumiInfo'><ul id='infobox'><li>中文名: 甲</li><li>导演: 乙</li></ul></div>".

Definition infobox_platform : Platform :=
  {| JSON_parse := @JSON_parse plain_platform;
     cheerio_text := @cheerio_text plain_platform;
     cheerio_html := @cheerio_html plain_platform;
     cheerio_attr := @cheerio_attr plain_platform;
     cheerio_length := @cheerio_length plain_platform;
     cheerio_texts := fun document selector =>
                        if String.eqb document infobox_page
                           && String.eqb selector "div#bangumiInfo ul#infobox li"
                        then ["中文名: 甲"; "导演: 乙"] else [];
     cheerio_next_value := @cheerio_next_value plain_platform;
     localeCompare := @localeCompare plain_platform;
     Date_parse := @Date_parse plain_platform;
     toLowerCase := @toLowerCase plain_platform;
     url_parse := @url_parse plain_platform |}.
(* ================================================================== *)
(** * Part II: lemmas and theorems *)
(* ================================================================== *)

(** ** The nonce search *)

Section NonceSearch.
Variables (qualifies : N -> bool) (timeout : exn).

Lemma nonce_search_terminates fuel nonce :
  (nonce <= NONCE_LIMIT)%N ->
  N.to_nat (NONCE_LIMIT - nonce) < fuel ->
  exists r, nonce_search qualifies timeout fuel nonce = Some r.
Proof.
  revert nonce. induction fuel as [|fuel IH]; intros nonce Hle Hfuel; [lia|].
  simpl. destruct (qualifies nonce); [eauto|].
  destruct (N.ltb_spec NONCE_LIMIT (nonce + 1)); [eauto|].
  apply IH; lia.
Qed.

Lemma nonce_search_found fuel nonce n :
  (nonce <= NONCE_LIMIT)%N ->
  nonce_search qualifies timeout fuel nonce = Some (Ok n) ->
  (nonce <= n <= NONCE_LIMIT)%N /\ qualifies n = true
  /\ forall m, (nonce <= m < n)%N -> qualifies m = false.
Proof.
  revert nonce. induction fuel as [|fuel IH]; intros nonce Hle; simpl; [discriminate|].
  destruct (qualifies nonce) eqn:Hq.
  - intros [= <-]. split; [lia|]. split; [done|]. intros m Hm. lia.
  - destruct (N.ltb_spec NONCE_LIMIT (nonce + 1)); [discriminate|].
    intros Hs. apply IH in Hs as (Hn & Hqn & Hbelow); [|lia].
    split; [lia|]. split; [done|].
    intros m Hm. destruct (N.eq_dec m nonce) as [->|]; [done|]. apply Hbelow. lia.
Qed.

Lemma nonce_search_timeout fuel nonce e :
  nonce_search qualifies timeout fuel nonce = Some (Throw e) ->
  e = timeout /\ forall m, (nonce <= m <= NONCE_LIMIT)%N -> qualifies m = false.
Proof.
  revert nonce. induction fuel as [|fuel IH]; intros nonce; simpl; [discriminate|].
  destruct (qualifies nonce) eqn:Hq; [discriminate|].
  destruct (N.ltb_spec NONCE_LIMIT (nonce + 1)).
  - intros [= <-]. split; [done|]. intros m Hm. assert (m = nonce) as -> by lia. done.
  - intros Hs. apply IH in Hs as [-> Hall]. split; [done|].
    intros m Hm. destruct (N.eq_dec m nonce) as [->|]; [done|]. apply Hall. lia.
Qed.

(** More fuel than the limit allows iterations changes nothing. *)
Lemma nonce_search_fuel fuel fuel' nonce r :
  nonce_search qualifies timeout fuel nonce = Some r ->
  fuel <= fuel' ->
  nonce_search qualifies timeout fuel' nonce = Some r.
Proof.
  revert fuel' nonce. induction fuel as [|fuel IH]; intros fuel' nonce; simpl; [discriminate|].
  intros Hs Hle. destruct fuel' as [|fuel']; [lia|]. simpl.
  destruct (qualifies nonce); [done|].
  destruct (NONCE_LIMIT <? nonce + 1)%N; [done|].
  apply IH; [done|lia].
Qed.

End NonceSearch.

Lemma append_nil s : "" +:+ s = s.
Proof. reflexivity. Qed.

Lemma append_cons c s t : String c s +:+ t = String c (s +:+ t).
Proof. reflexivity. Qed.

(** The test of the loops says that the digest starts with zeros. *)
Lemma take_repeat_zeros k h :
  String.eqb (JS.take k h) (JS.repeat_str "0" k) = true <-> leading_zeros k h.
Proof.
  revert h. induction k as [|k IH]; intros h.
  - split; [intros _ i Hi; lia | reflexivity].
  - destruct h as [|c h]; cbn [JS.take JS.repeat_str]; rewrite append_cons, append_nil.
    + split; [discriminate|]. intros Hz. specialize (Hz 0 ltac:(lia)). discriminate.
    + cbn [String.eqb]. destruct (Ascii.eqb_spec c "0"%char) as [->|Hc].
      * rewrite IH. split.
        -- intros Hz [|i] Hi; [reflexivity|]. apply (Hz i). lia.
        -- intros Hz i Hi. apply (Hz (S i)). lia.
      * split; [discriminate|]. intros Hz. specialize (Hz 0 ltac:(lia)).
        cbn in Hz. congruence.
Qed.

Lemma join_empty_cons x l : JS.join "" (x :: l) = x +:+ JS.join "" l.
Proof.
  destruct l as [|y l]; cbn [JS.join]; [|reflexivity].
  induction x as [|c x IHx]; [reflexivity|]. by rewrite append_cons, <- IHx.
Qed.

(** The worker's digit-by-digit rendering of a byte is the hex rendering. *)
Lemma toString16_padStart b :
  JS.padStart 2 "0" (JS.number_toString 16 (N_of_ascii b)) = Server.hex_byte b "".
Proof.
  destruct b as [[] [] [] [] [] [] [] []]; vm_compute; reflexivity.
Qed.

Lemma hex_byte_app b k : Server.hex_byte b k = Server.hex_byte b "" +:+ k.
Proof. destruct b. reflexivity. Qed.

Lemma hex_of_hashArray_digest_hex bytes :
  Lib.hex_of_hashArray bytes = Server.digest_hex bytes.
Proof.
  unfold Lib.hex_of_hashArray, Server.digest_hex.
  induction bytes as [|b bytes IH]; [reflexivity|].
  cbn [map fold_right]. rewrite join_empty_cons, IH, toString16_padStart.
  symmetry. apply hex_byte_app.
Qed.

Section Solver.
Context `{Crypto}.

(** Each loop is the common search, with its own timeout. *)
Lemma Server_solve_loop_search fuel cha difficulty nonce :
  Server.solve_loop fuel cha difficulty (JS.repeat_str "0" difficulty) nonce
  = nonce_search (qualifies cha difficulty) (Error "Challenge timeout") fuel nonce.
Proof.
  revert nonce. induction fuel as [|fuel IH]; intros nonce; [reflexivity|].
  cbn [Server.solve_loop nonce_search]. unfold qualifies at 1, pow_digest.
  destruct (String.eqb _ _); [reflexivity|].
  destruct (NONCE_LIMIT <? nonce + 1)%N; [reflexivity|]. apply IH.
Qed.

Lemma Lib_solve_loop_search fuel cha difficulty nonce :
  Lib.solve_loop fuel cha difficulty (JS.repeat_str "0" difficulty) nonce
  = nonce_search (qualifies cha difficulty)
      (Error "Challenge solution timeout - too many iterations") fuel nonce.
Proof.
  revert nonce. induction fuel as [|fuel IH]; intros nonce; [reflexivity|].
  cbn [Lib.solve_loop nonce_search]. unfold qualifies at 1, pow_digest, Server.sha512_hex.
  rewrite hex_of_hashArray_digest_hex.
  destruct (String.eqb _ _); [reflexivity|].
  destruct (NONCE_LIMIT <? nonce + 1)%N; [reflexivity|]. apply IH.
Qed.

Lemma qualifies_4 cha n : qualifies cha 4 n = true <-> leading_zeros 4 (pow_digest cha n).
Proof. apply take_repeat_zeros. Qed.

Lemma qualifies_4_false cha n :
  qualifies cha 4 n = false <-> ~ leading_zeros 4 (pow_digest cha n).
Proof. rewrite <- qualifies_4. destruct (qualifies cha 4 n); split; congruence. Qed.

(** The search from nonce 0 with the fuel of [solveChallenge]. *)
Section FromZero.
Variables (cha : string) (timeout : exn).

Local Abbreviation run :=
  (nonce_search (qualifies cha 4) timeout (S (N.to_nat NONCE_LIMIT)) 0).

Lemma search_total : exists r, run = Some r.
Proof. apply nonce_search_terminates; unfold NONCE_LIMIT; lia. Qed.

Lemma search_ok n : run = Some (Ok n) <-> least_nonce cha n.
Proof.
  split.
  - intros Hr. apply nonce_search_found in Hr as (Hn & Hq & Hbelow); [|unfold NONCE_LIMIT; lia].
    split; [lia|]. split; [by apply qualifies_4|].
    intros m Hm. apply qualifies_4_false, Hbelow. lia.
  - intros (Hn & Hq & Hbelow). destruct search_total as [r Hr]. rewrite Hr. f_equal.
    destruct r as [n'|e].
    + apply nonce_search_found in Hr as (Hn' & Hq' & Hbelow'); [|unfold NONCE_LIMIT; lia].
      f_equal.
      destruct (N.lt_trichotomy n' n) as [Hlt|[->|Hlt]]; [|done|].
      * apply Hbelow in Hlt. by apply qualifies_4 in Hq'.
      * apply qualifies_4 in Hq. rewrite Hbelow' in Hq by lia. discriminate.
    + apply nonce_search_timeout in Hr as [_ Hall].
      apply qualifies_4 in Hq. rewrite Hall in Hq by lia. discriminate.
Qed.

Lemma search_throw e :
  run = Some (Throw e)
  <-> e = timeout /\ forall n, (n <= NONCE_LIMIT)%N -> ~ leading_zeros 4 (pow_digest cha n).
Proof.
  split.
  - intros Hr. apply nonce_search_timeout in Hr as [-> Hall]. split; [done|].
    intros n Hn. apply qualifies_4_false, Hall. lia.
  - intros [-> Hall]. destruct search_total as [r Hr]. rewrite Hr. f_equal.
    destruct r as [n|e].
    + apply search_ok in Hr as (Hn & Hq & _). by apply Hall in Hq.
    + apply nonce_search_timeout in Hr as [-> _]. done.
Qed.

End FromZero.

Lemma Server_solveChallenge_run cha :
  Server.run_solveChallenge (S (N.to_nat NONCE_LIMIT)) cha 4
  = Some (Server.solveChallenge cha 4).
Proof.
  unfold Server.solveChallenge.
  destruct (search_total cha (Error "Challenge timeout")) as [r Hr].
  unfold Server.run_solveChallenge. rewrite Server_solve_loop_search, Hr. reflexivity.
Qed.

Lemma Lib_solveChallenge_run cha :
  Lib.run_solveChallenge (S (N.to_nat NONCE_LIMIT)) cha 4
  = Some (Lib.solveChallenge cha 4).
Proof.
  unfold Lib.solveChallenge.
  destruct (search_total cha (Error "Challenge solution timeout - too many iterations"))
    as [r Hr].
  unfold Lib.run_solveChallenge. rewrite Lib_solve_loop_search, Hr. reflexivity.
Qed.

Lemma Server_solveChallenge_search cha :
  nonce_search (qualifies cha 4) (Error "Challenge timeout") (S (N.to_nat NONCE_LIMIT)) 0
  = Some (Server.solveChallenge cha 4).
Proof.
  rewrite <- Server_solveChallenge_run. unfold Server.run_solveChallenge.
  by rewrite Server_solve_loop_search.
Qed.

Lemma Lib_solveChallenge_search cha :
  nonce_search (qualifies cha 4) (Error "Challenge solution timeout - too many iterations")
    (S (N.to_nat NONCE_LIMIT)) 0
  = Some (Lib.solveChallenge cha 4).
Proof.
  rewrite <- Lib_solveChallenge_run. unfold Lib.run_solveChallenge.
  by rewrite Lib_solve_loop_search.
Qed.

Lemma Server_solveChallenge_ok cha n :
  Server.solveChallenge cha 4 = Ok n <-> least_nonce cha n.
Proof.
  rewrite <- (search_ok cha (Error "Challenge timeout")), Server_solveChallenge_search.
  split; congruence.
Qed.

Lemma Lib_solveChallenge_ok cha n :
  Lib.solveChallenge cha 4 = Ok n <-> least_nonce cha n.
Proof.
  rewrite <- (search_ok cha (Error "Challenge solution timeout - too many iterations")),
    Lib_solveChallenge_search.
  split; congruence.
Qed.

Lemma least_nonce_unique cha n1 n2 : least_nonce cha n1 -> least_nonce cha n2 -> n1 = n2.
Proof.
  intros (_ & Hq1 & Hb1) (_ & Hq2 & Hb2).
  destruct (N.lt_trichotomy n1 n2) as [Hlt|[->|Hlt]]; [|done|].
  - by apply Hb2 in Hlt.
  - by apply Hb1 in Hlt.
Qed.
(** C1, as amended: for every challenge string, each copy of the solver
    returns the nonce [n] exactly when [n] is at most 500000, the hex-encoded
    SHA-512 digest of the challenge followed by the decimal [n] starts with
    four ['0'], and no smaller nonce has that property. Such a nonce is unique,
    so the answer depends on the challenge string alone. *)
Theorem solveChallenge_least_nonce (cha : string) (n : N) :
  (Server.solveChallenge cha 4 = Ok n <-> least_nonce cha n)
  /\ (Lib.solveChallenge cha 4 = Ok n <-> least_nonce cha n)
  /\ (forall n', least_nonce cha n' -> least_nonce cha n -> n' = n).
Proof.
  split; [apply Server_solveChallenge_ok|].
  split; [apply Lib_solveChallenge_ok|].
  intros n'. apply least_nonce_unique.
Qed.

(** C2, as amended: the search is bounded at 500001 attempts, the nonces 0 to
    500000. Whatever the challenge string, the loop of each copy leaves
    within 500001 iterations, by returning a nonce or by throwing its timeout
    error; it throws exactly when none of the nonces 0 to 500000 gives a
    digest starting with four ['0']. *)
Theorem solveChallenge_bounded (cha : string) :
  (forall fuel, (500000 < N.of_nat fuel)%N ->
     Server.run_solveChallenge fuel cha 4 = Some (Server.solveChallenge cha 4)
     /\ Lib.run_solveChallenge fuel cha 4 = Some (Lib.solveChallenge cha 4))
  /\ ((exists n, Server.solveChallenge cha 4 = Ok n)
      \/ Server.solveChallenge cha 4 = Throw (Error "Challenge timeout"))
  /\ ((exists n, Lib.solveChallenge cha 4 = Ok n)
      \/ Lib.solveChallenge cha 4
         = Throw (Error "Challenge solution timeout - too many iterations"))
  /\ (Server.solveChallenge cha 4 = Throw (Error "Challenge timeout")
      <-> forall n, (n <= 500000)%N -> ~ leading_zeros 4 (pow_digest cha n))
  /\ (Lib.solveChallenge cha 4
      = Throw (Error "Challenge solution timeout - too many iterations")
      <-> forall n, (n <= 500000)%N -> ~ leading_zeros 4 (pow_digest cha n)).
Proof.
  pose proof (Server_solveChallenge_search cha) as Hs.
  pose proof (Lib_solveChallenge_search cha) as Hl.
  split; [|split; [|split; [|split]]].
  - intros fuel Hle. unfold Server.run_solveChallenge, Lib.run_solveChallenge.
    rewrite Server_solve_loop_search, Lib_solve_loop_search.
    split; eapply nonce_search_fuel; eauto; unfold NONCE_LIMIT; lia.
  - destruct (Server.solveChallenge cha 4) as [n|e]; [eauto|].
    apply search_throw in Hs as [-> _]. by right.
  - destruct (Lib.solveChallenge cha 4) as [n|e]; [eauto|].
    apply search_throw in Hl as [-> _]. by right.
  - split.
    + intros He. rewrite He in Hs. by apply search_throw in Hs as [_ Hall].
    + intros Hall. assert (Ht := conj (eq_refl (Error "Challenge timeout")) Hall).
      apply search_throw in Ht. congruence.
  - split.
    + intros He. rewrite He in Hl. by apply search_throw in Hl as [_ Hall].
    + intros Hall.
      assert (Ht := conj (eq_refl (Error "Challenge solution timeout - too many iterations"))
                         Hall).
      apply search_throw in Ht. congruence.
Qed.

End Solver.

(** ** Decimal rendering *)

Lemma digits_go_value fuel n acc :
  (n < 2 ^ N.of_nat fuel)%N ->
  digits_value 0 (JS.digits_go fuel 10 n acc) = digits_value n acc.
Proof.
  revert n acc. induction fuel as [|fuel IH]; intros n acc Hn.
  - cbn in Hn. assert (n = 0%N) as -> by lia. reflexivity.
  - cbn [JS.digits_go]. rewrite Nat2N.inj_succ, N.pow_succ_r' in Hn.
    pose proof (N.div_mod n 10 ltac:(lia)) as Hdm.
    pose proof (N.mod_lt n 10 ltac:(lia)) as Hm.
    revert Hdm Hm. generalize (n mod 10)%N. intros r Hdm Hm.
    destruct (n / 10)%N as [|q].
    + unfold digits_value. cbn [fold_left]. f_equal. lia.
    + assert (forall X, n < 2 * X -> N.pos q < X)%N as HX by (intros; lia).
      rewrite IH by apply HX, Hn. unfold digits_value. cbn [fold_left]. f_equal. lia.
Qed.

Lemma digits_go_small fuel n acc :
  Forall (fun d => d < 10)%N acc -> Forall (fun d => d < 10)%N (JS.digits_go fuel 10 n acc).
Proof.
  revert n acc. induction fuel as [|fuel IH]; intros n acc Hacc; [done|].
  cbn [JS.digits_go].
  assert (Forall (fun d => d < 10)%N ((n mod 10)%N :: acc)) as Hacc'.
  { constructor; [apply N.mod_lt; lia | done]. }
  destruct (n / 10)%N; [done|]. by apply IH.
Qed.

Lemma undecimal_digits a l :
  Forall (fun d => d < 10)%N l ->
  undecimal_from a (string_of_list_ascii (map JS.digit_char l)) = digits_value a l.
Proof.
  revert a. induction l as [|d l IH]; intros a Hl; [reflexivity|].
  inversion Hl as [|? ? Hd Hl']; subst.
  cbn [map string_of_list_ascii undecimal_from].
  rewrite IH by done. unfold digits_value. cbn [fold_left]. f_equal. f_equal.
  unfold JS.digit_char. destruct (N.ltb_spec d 10); [|lia].
  rewrite N_ascii_embedding by lia. lia.
Qed.

Lemma size_nat_bound n : (n < 2 ^ N.of_nat (S (N.size_nat n)))%N.
Proof.
  rewrite Nat2N.inj_succ, N.pow_succ_r'.
  destruct n as [|p]; [cbn; lia|]. cbn [N.size_nat].
  induction p as [p IH|p IH|]; cbn [Pos.size_nat].
  - rewrite Nat2N.inj_succ, N.pow_succ_r'. lia.
  - rewrite Nat2N.inj_succ, N.pow_succ_r'. lia.
  - cbn. lia.
Qed.

(** The decimal rendering denotes the number rendered. *)
Lemma undecimal_decimal n : undecimal (JS.decimal n) = n.
Proof.
  unfold undecimal, JS.decimal, JS.number_toString.
  rewrite undecimal_digits by (apply digits_go_small; constructor).
  rewrite digits_go_value by apply size_nat_bound. reflexivity.
Qed.

Lemma decimal_inj n m : JS.decimal n = JS.decimal m -> n = m.
Proof. intros Heq. rewrite <- (undecimal_decimal n), Heq. apply undecimal_decimal. Qed.

Lemma append_inj_l s t u : s +:+ t = s +:+ u -> t = u.
Proof. induction s as [|c s IH]; [done|]. rewrite !append_cons. intros [= Heq]. auto. Qed.

(** ** The limits of the search, on explicit digests *)

Lemma leading_zeros_ff k rest : 0 < k -> ~ leading_zeros k (String "f" rest).
Proof. intros Hk Hz. specialize (Hz 0 Hk). discriminate. Qed.

Lemma pow_digest_unsolvable cha n :
  @pow_digest unsolvable cha n = Server.digest_hex all_ff.
Proof. reflexivity. Qed.

Lemma pow_digest_solved_by msg cha n :
  @pow_digest (solved_by msg) cha n
  = Server.digest_hex (if String.eqb (cha +:+ JS.decimal n) msg then all_00 else all_ff).
Proof. reflexivity. Qed.

(** C1, as stated, fails: under a digest none of whose values starts with a
    zero, the solver returns no nonce for the challenge "abc", it throws. *)
Lemma solveChallenge_returns_no_nonce :
  @Server.solveChallenge unsolvable "abc" 4 = Throw (Error "Challenge timeout")
  /\ ~ exists n, @Server.solveChallenge unsolvable "abc" 4 = Ok n.
Proof.
  assert (@Server.solveChallenge unsolvable "abc" 4 = Throw (Error "Challenge timeout")) as Ht.
  { pose proof (@Server_solveChallenge_search unsolvable "abc") as Hs.
    destruct (@Server.solveChallenge unsolvable "abc" 4) as [n|e].
    - apply search_ok in Hs as (_ & Hz & _). rewrite pow_digest_unsolvable in Hz.
      by apply leading_zeros_ff in Hz; [|lia].
    - apply search_throw in Hs as [-> _]. reflexivity. }
  split; [done|]. intros [n Hn]. rewrite Ht in Hn. discriminate.
Qed.

(** C2, as stated, fails: under a digest that starts with zeros for the
    message "abc500000" alone, no nonce among the first 500000 tried (0 to
    499999) solves the challenge "abc", and yet the solver does not fail: it
    goes on to try the nonce 500000 and returns it. *)
Lemma solveChallenge_tries_500001 :
  (forall n, (n < 500000)%N ->
     ~ leading_zeros 4 (@pow_digest (solved_by "abc500000") "abc" n))
  /\ @Server.solveChallenge (solved_by "abc500000") "abc" 4 = Ok 500000%N.
Proof.
  assert (forall n, (n < 500000)%N ->
            ~ leading_zeros 4 (@pow_digest (solved_by "abc500000") "abc" n)) as Hbelow.
  { intros n Hn. rewrite pow_digest_solved_by.
    destruct (String.eqb_spec ("abc" +:+ JS.decimal n) "abc500000") as [Heq|_].
    - apply (append_inj_l "abc" _ "500000"), (decimal_inj n 500000) in Heq. lia.
    - apply leading_zeros_ff. lia. }
  split; [done|]. apply Server_solveChallenge_ok. split; [done|]. split; [|done].
  intros [|[|[|[|i]]]] Hi; try reflexivity. lia.
Qed.

(** The solver on SHA-512 itself: the least nonce of the challenge "c1E16"
    is 1. *)
Lemma solveChallenge_c1E16 :
  @Server.solveChallenge SHA512_crypto "c1E16" 4 = Ok 1%N
  /\ @Lib.solveChallenge SHA512_crypto "c1E16" 4 = Ok 1%N.
Proof. split; vm_compute; reflexivity. Qed.

Lemma sha512_abc :
  @Server.sha512_hex SHA512_crypto "abc"
  = "ddaf35a193617abacc417349ae20413112e6fa4e89a97ea20a9eeee64b55d39a2192992a274fc1a836ba3c23a3feebbd454d4423643ce80e2a9ac94fa54ca49f".
Proof. vm_compute. reflexivity. Qed.

(** ** The challenge solver *)

Lemma prefix_spec p s : String.prefix p s = true <-> exists rest, s = p +:+ rest.
Proof.
  revert s. induction p as [|c p IH]; intros s.
  - split; [intros _; by exists s | by destruct s].
  - destruct s as [|d s]; cbn [String.prefix].
    + split; [discriminate | intros [rest Hr]; discriminate].
    + destruct (Ascii.ascii_dec c d) as [->|Hne].
      * rewrite IH. split; intros [rest Hr]; exists rest.
        -- by rewrite append_cons, <- Hr.
        -- rewrite append_cons in Hr. congruence.
      * split; [discriminate|]. intros [rest Hr]. rewrite append_cons in Hr. congruence.
Qed.

Lemma includes_spec needle s : JS.includes needle s = true <-> contains needle s.
Proof.
  induction s as [|c s IH].
  - cbn [JS.includes]. destruct (String.prefix needle "") eqn:Hp.
    + split; [|done]. intros _. apply prefix_spec in Hp as [rest Hr]. by exists "", rest.
    + split; [discriminate|]. intros ([|b before] & after & Hs).
      * rewrite append_nil in Hs. assert (String.prefix needle "" = true) as Hp'
          by (apply prefix_spec; eauto). congruence.
      * rewrite append_cons in Hs. discriminate.
  - cbn [JS.includes]. destruct (String.prefix needle (String c s)) eqn:Hp.
    + split; [|done]. intros _. apply prefix_spec in Hp as [rest Hr]. by exists "", rest.
    + rewrite IH. split.
      * intros (before & after & ->). by exists (String c before), after.
      * intros ([|b before] & after & Hs).
        -- rewrite append_nil in Hs. assert (String.prefix needle (String c s) = true) as Hp'
             by (apply prefix_spec; eauto). congruence.
        -- rewrite append_cons in Hs. injection Hs as _ ->. by exists before, after.
Qed.

Lemma bind_fetch_requests `{Network} {A} r (f : response -> M A) :
  requests (let* x := fetch r in f x) <> [].
Proof.
  unfold bind, fetch. destruct (send r) as [x|e]; [|done].
  destruct (f x). done.
Qed.

Section Challenge.
Context `{Crypto} `{Network}.

Lemma is_gate_spec responseText :
  is_gate responseText = true
  <-> contains HOOK_MARKER responseText /\ contains FIELD_MARKER responseText.
Proof. unfold is_gate. by rewrite andb_true_iff, !includes_spec. Qed.

Lemma Lib_not_gate url responseText :
  is_gate responseText = false ->
  Lib.solveDoubanChallenge url responseText = ret (not_a_gate responseText).
Proof.
  unfold is_gate, Lib.solveDoubanChallenge, HOOK_MARKER, FIELD_MARKER. intros Hg.
  destruct (JS.includes "process(cha)" responseText), (JS.includes _ responseText);
    done.
Qed.

Lemma Server_not_gate url responseText :
  is_gate responseText = false ->
  Server.solveDoubanChallenge url responseText = ret (not_a_gate responseText).
Proof.
  unfold is_gate, Server.solveDoubanChallenge, HOOK_MARKER, FIELD_MARKER. intros Hg.
  destruct (JS.includes "process(cha)" responseText), (JS.includes _ responseText);
    done.
Qed.

(** What each copy does with a gate page, by the outcome of the parameter
    extraction and of the proof of work. *)
Lemma Lib_gate_missing url responseText :
  is_gate responseText = true ->
  match_param "tok" responseText = None \/ match_param "cha" responseText = None ->
  Lib.solveDoubanChallenge url responseText
  = ret {| Challenge.solved := false; Challenge.text := responseText;
           Challenge.error := Some "Could not extract challenge parameters";
           Challenge.cookies := None |}.
Proof.
  unfold is_gate, Lib.solveDoubanChallenge, HOOK_MARKER, FIELD_MARKER.
  intros [-> ->]%andb_true_iff Hm. cbn [negb orb].
  destruct Hm as [-> | ->]; [done|]. by destruct (match_param "tok" responseText).
Qed.

Lemma Server_gate_missing url responseText :
  is_gate responseText = true ->
  match_param "tok" responseText = None \/ match_param "cha" responseText = None ->
  Server.solveDoubanChallenge url responseText
  = ret {| Challenge.solved := false; Challenge.text := responseText;
           Challenge.error := Some "Could not extract challenge parameters";
           Challenge.cookies := None |}.
Proof.
  unfold is_gate, Server.solveDoubanChallenge, HOOK_MARKER, FIELD_MARKER.
  intros [-> ->]%andb_true_iff Hm. cbn [negb orb].
  destruct Hm as [-> | ->]; [done|]. by destruct (match_param "tok" responseText).
Qed.

Lemma Lib_gate_throw url responseText tok cha e :
  is_gate responseText = true ->
  match_param "tok" responseText = Some tok ->
  match_param "cha" responseText = Some cha ->
  Lib.solveChallenge cha 4 = Throw e ->
  Lib.solveDoubanChallenge url responseText = throw e.
Proof.
  unfold is_gate, Lib.solveDoubanChallenge, HOOK_MARKER, FIELD_MARKER.
  intros [-> ->]%andb_true_iff -> -> ->. reflexivity.
Qed.

Lemma Server_gate_throw url responseText tok cha e :
  is_gate responseText = true ->
  match_param "tok" responseText = Some tok ->
  match_param "cha" responseText = Some cha ->
  Server.solveChallenge cha 4 = Throw e ->
  Server.solveDoubanChallenge url responseText = throw e.
Proof.
  unfold is_gate, Server.solveDoubanChallenge, HOOK_MARKER, FIELD_MARKER.
  intros [-> ->]%andb_true_iff -> -> ->. reflexivity.
Qed.

Lemma Lib_gate_solved url responseText tok cha sol :
  is_gate responseText = true ->
  match_param "tok" responseText = Some tok ->
  match_param "cha" responseText = Some cha ->
  Lib.solveChallenge cha 4 = Ok sol ->
  requests (Lib.solveDoubanChallenge url responseText) <> [].
Proof.
  unfold is_gate, Lib.solveDoubanChallenge, HOOK_MARKER, FIELD_MARKER.
  intros [-> ->]%andb_true_iff -> -> ->. cbn [negb orb lift bind app].
  match goal with
  | |- requests (let '(l, r) := ?m in (l, r)) <> [] =>
      pose proof (bind_fetch_requests _ _ : requests m <> []) as Hreq; destruct m
  end. done.
Qed.

Lemma Server_gate_solved url responseText tok cha sol :
  is_gate responseText = true ->
  match_param "tok" responseText = Some tok ->
  match_param "cha" responseText = Some cha ->
  Server.solveChallenge cha 4 = Ok sol ->
  Server.solveDoubanChallenge url responseText
  = throw (TypeError "formData.append is not a function").
Proof.
  unfold is_gate, Server.solveDoubanChallenge, HOOK_MARKER, FIELD_MARKER.
  intros [-> ->]%andb_true_iff -> -> ->. reflexivity.
Qed.

End Challenge.

Section ChallengeClaims.
Context `{Crypto} `{Network}.

Lemma Lib_gate_result url responseText :
  is_gate responseText = true ->
  Lib.solveDoubanChallenge url responseText <> ret (not_a_gate responseText).
Proof.
  intros Hg Heq.
  destruct (match_param "tok" responseText) as [tok|] eqn:Htok;
    [destruct (match_param "cha" responseText) as [cha|] eqn:Hcha|].
  - destruct (Lib.solveChallenge cha 4) as [sol|e] eqn:Hsol.
    + eapply Lib_gate_solved; eauto. by rewrite Heq.
    + erewrite Lib_gate_throw in Heq by eauto. discriminate.
  - rewrite Lib_gate_missing in Heq by auto. discriminate.
  - rewrite Lib_gate_missing in Heq by auto. discriminate.
Qed.

Lemma Server_gate_result url responseText :
  is_gate responseText = true ->
  Server.solveDoubanChallenge url responseText <> ret (not_a_gate responseText).
Proof.
  intros Hg Heq.
  destruct (match_param "tok" responseText) as [tok|] eqn:Htok;
    [destruct (match_param "cha" responseText) as [cha|] eqn:Hcha|].
  - destruct (Server.solveChallenge cha 4) as [sol|e] eqn:Hsol.
    + erewrite Server_gate_solved in Heq by eauto. discriminate.
    + erewrite Server_gate_throw in Heq by eauto. discriminate.
  - rewrite Server_gate_missing in Heq by auto. discriminate.
  - rewrite Server_gate_missing in Heq by auto. discriminate.
Qed.

(** C8: for every page body, each copy of the challenge solver returns
    [{solved: false, text: body}] without an error and without sending any
    request exactly when the body lacks the hook marker [process(cha)] or the
    form-field marker [id="cha"]; a body that contains both is treated as a
    gate and gets another outcome. *)
Theorem gate_detection (responseUrl responseText : string) :
  (Lib.solveDoubanChallenge responseUrl responseText = ([], Ok (not_a_gate responseText))
   <-> ~ (contains HOOK_MARKER responseText /\ contains FIELD_MARKER responseText))
  /\ (Server.solveDoubanChallenge responseUrl responseText
      = ([], Ok (not_a_gate responseText))
      <-> ~ (contains HOOK_MARKER responseText /\ contains FIELD_MARKER responseText)).
Proof.
  rewrite <- is_gate_spec. destruct (is_gate responseText) eqn:Hg.
  - split; (split; [intros Heq | intros Hn; by destruct Hn]).
    + by apply Lib_gate_result in Heq.
    + by apply Server_gate_result in Heq.
  - split; (split; [intros _; congruence | intros _]).
    + by apply Lib_not_gate.
    + by apply Server_not_gate.
Qed.

(** C9, as amended: the two copies give the same result, without sending
    any request, on every page that is not a gate and on every gate page
    whose token or challenge string cannot be extracted; and their proofs of
    work agree: one returns a nonce exactly when the other returns it, and one
    throws exactly when the other throws. *)
Theorem challenge_copies_agree (responseUrl responseText : string) :
  (is_gate responseText = false
   \/ match_param "tok" responseText = None
   \/ match_param "cha" responseText = None ->
   Lib.solveDoubanChallenge responseUrl responseText
   = Server.solveDoubanChallenge responseUrl responseText
   /\ requests (Lib.solveDoubanChallenge responseUrl responseText) = [])
  /\ (forall cha n, Lib.solveChallenge cha 4 = Ok n <-> Server.solveChallenge cha 4 = Ok n)
  /\ (forall cha,
        (exists e, Lib.solveChallenge cha 4 = Throw e)
        <-> (exists e, Server.solveChallenge cha 4 = Throw e)).
Proof.
  split; [|split].
  - intros Hcase. destruct (is_gate responseText) eqn:Hg.
    + destruct Hcase as [Hcase|Hcase]; [done|].
      by rewrite Lib_gate_missing, Server_gate_missing.
    + by rewrite Lib_not_gate, Server_not_gate.
  - intros cha n. by rewrite Lib_solveChallenge_ok, Server_solveChallenge_ok.
  - intros cha.
    assert (forall n, Lib.solveChallenge cha 4 = Ok n <-> Server.solveChallenge cha 4 = Ok n)
      as Hagree by (intros n; by rewrite Lib_solveChallenge_ok, Server_solveChallenge_ok).
    destruct (Lib.solveChallenge cha 4) as [n|e], (Server.solveChallenge cha 4) as [n'|e'].
    + split; intros [? ?]; discriminate.
    + by destruct (proj1 (Hagree n) eq_refl).
    + by destruct (proj2 (Hagree n') eq_refl).
    + split; eauto.
Qed.

End ChallengeClaims.

Lemma unsolvable_Server cha :
  @Server.solveChallenge unsolvable cha 4 = Throw (Error "Challenge timeout").
Proof.
  pose proof (@Server_solveChallenge_search unsolvable cha) as Hs.
  destruct (@Server.solveChallenge unsolvable cha 4) as [n|e].
  - apply search_ok in Hs as (_ & Hz & _). rewrite pow_digest_unsolvable in Hz.
    by apply leading_zeros_ff in Hz; [|lia].
  - apply search_throw in Hs as [-> _]. reflexivity.
Qed.

Lemma unsolvable_Lib cha :
  @Lib.solveChallenge unsolvable cha 4
  = Throw (Error "Challenge solution timeout - too many iterations").
Proof.
  pose proof (@Lib_solveChallenge_search unsolvable cha) as Hs.
  destruct (@Lib.solveChallenge unsolvable cha 4) as [n|e].
  - apply search_ok in Hs as (_ & Hz & _). rewrite pow_digest_unsolvable in Hz.
    by apply leading_zeros_ff in Hz; [|lia].
  - apply search_throw in Hs as [-> _]. reflexivity.
Qed.

Lemma gate_page_params :
  is_gate gate_page = true
  /\ match_param "tok" gate_page = Some "T0K"
  /\ match_param "cha" gate_page = Some "c1E16".
Proof. vm_compute. done. Qed.

(** C9, as stated, fails. On the page [gate_page], whose challenge SHA-512
    solves with the nonce 1, and a network that sets no cookie, the worker
    copy posts the solution and returns [solved: false] with the error "No
    cookies received from challenge submission", while the server copy has
    thrown before any request. And under a digest that no nonce solves, the
    two copies throw errors with different messages. *)
Lemma challenge_copies_differ :
  @Lib.solveDoubanChallenge SHA512_crypto bare_network "https://movie.douban.com/" gate_page
  = ([{| req_url := "https://sec.douban.com/c";
         req_method := Some "POST";
         req_headers :=
           [("Content-Type", "application/x-www-form-urlencoded");
            ("User-Agent", USER_AGENT);
            ("Referer", "https://movie.douban.com/");
            ("Origin", "https://sec.douban.com")];
         req_body :=
           Some "tok=T0K&cha=c1E16&sol=1&red=https%3A%2F%2Fmovie.douban.com%2F";
         req_redirect := Some "manual" |}],
     Ok {| Challenge.solved := false; Challenge.text := gate_page;
           Challenge.error := Some "No cookies received from challenge submission";
           Challenge.cookies := None |})
  /\ @Server.solveDoubanChallenge SHA512_crypto bare_network
       "https://movie.douban.com/" gate_page
     = ([], Throw (TypeError "formData.append is not a function"))
  /\ @Lib.solveDoubanChallenge unsolvable bare_network "https://movie.douban.com/" gate_page
     = ([], Throw (Error "Challenge solution timeout - too many iterations"))
  /\ @Server.solveDoubanChallenge unsolvable bare_network
       "https://movie.douban.com/" gate_page
     = ([], Throw (Error "Challenge timeout")).
Proof.
  destruct gate_page_params as (Hg & Htok & Hcha).
  split; [vm_compute; reflexivity|]. split; [vm_compute; reflexivity|]. split.
  - apply (@Lib_gate_throw unsolvable bare_network _ _ "T0K" "c1E16");
      [exact Hg | exact Htok | exact Hcha | apply unsolvable_Lib].
  - apply (@Server_gate_throw unsolvable bare_network _ _ "T0K" "c1E16");
      [exact Hg | exact Htok | exact Hcha | apply unsolvable_Server].
Qed.

(** ** Outcomes of the adapters *)

Lemma post_ret {A} (P : A -> Prop) a : P a -> post P (ret a).
Proof. intros HP sent a' [= _ <-]. done. Qed.

Lemma post_throw {A} (P : A -> Prop) e : post P (throw e).
Proof. intros sent a [=]. Qed.

Lemma post_bind {A B} (P : B -> Prop) (m : M A) (f : A -> M B) :
  (forall a, post P (f a)) -> post P (let* x := m in f x).
Proof.
  intros Hf sent b. unfold bind. destruct m as [l [a|e]]; [|discriminate].
  destruct (f a) as [l' r] eqn:Hfa. intros [= _ ->]. by eapply Hf.
Qed.

Lemma data_ok_failure (o : object) :
  o !! "success" = None -> o !! "format" = None -> data_ok o.
Proof.
  unfold data_ok, obj_get, has_key. intros -> ->. split; [discriminate|done].
Qed.

Lemma data_ok_success (o : object) :
  o !! "success" = Some (VBool true) -> o !! "error" = None -> data_ok o.
Proof.
  unfold data_ok, obj_get, has_key. intros -> ->. split; [done|]. intros Hn. by destruct Hn.
Qed.

Ltac solve_data_ok :=
  repeat match goal with
         | |- context [if truthy ?v then _ else _] => destruct (truthy v)
         end;
  solve [ apply data_ok_failure; reflexivity
        | apply data_ok_success; reflexivity ].

Ltac post_step :=
  lazymatch goal with
  | |- post _ (bind _ _) => apply post_bind; intros ?
  | |- post _ (ret _) => apply post_ret
  | |- post _ (throw _) => apply post_throw
  | |- post _ (if ?c then _ else _) => destruct c
  | |- post _ (match ?x with _ => _ end) => destruct x
  end.

Section Adapters.
Context `{Crypto} `{Network} `{Platform}.

Lemma gen_douban_ok sid : post data_ok (Server.gen_douban sid).
Proof. unfold Server.gen_douban. cbv zeta. repeat post_step. all: solve_data_ok. Qed.

Lemma gen_imdb_ok sid : post data_ok (Server.gen_imdb sid).
Proof. unfold Server.gen_imdb. cbv zeta. repeat post_step. all: solve_data_ok. Qed.

Lemma gen_bangumi_ok sid : post data_ok (Server.gen_bangumi sid).
Proof. unfold Server.gen_bangumi. cbv zeta. repeat post_step. all: solve_data_ok. Qed.

Lemma gen_steam_ok sid : post data_ok (Server.gen_steam sid).
Proof. unfold Server.gen_steam. cbv zeta. repeat post_step. all: solve_data_ok. Qed.

Lemma gen_indienova_ok sid : post data_ok (Server.gen_indienova sid).
Proof. unfold Server.gen_indienova. cbv zeta. repeat post_step. all: solve_data_ok. Qed.

Lemma gen_epic_ok sid : post data_ok (Server.gen_epic sid).
Proof. unfold Server.gen_epic. cbv zeta. repeat post_step. all: solve_data_ok. Qed.

Lemma search_douban_ok query : post data_ok (Server.search_douban query).
Proof. unfold Server.search_douban. cbv zeta. repeat post_step. all: solve_data_ok. Qed.

Lemma search_imdb_ok query : post data_ok (Server.search_imdb query).
Proof. unfold Server.search_imdb. cbv zeta. repeat post_step. all: solve_data_ok. Qed.

Lemma search_bangumi_ok query : post data_ok (Server.search_bangumi query).
Proof. unfold Server.search_bangumi. cbv zeta. repeat post_step. all: solve_data_ok. Qed.

Lemma dispatch_generate_ok site sid : post data_ok (Server.dispatch_generate site sid).
Proof.
  unfold Server.dispatch_generate.
  repeat post_step;
    eauto using gen_douban_ok, gen_imdb_ok, gen_bangumi_ok, gen_steam_ok,
      gen_indienova_ok, gen_epic_ok.
  all: solve_data_ok.
Qed.

(** A record that a generator returns without a truthy error is marked
    successful. *)
Lemma marked_failure (o : object) v :
  o !! "error" = Some v -> truthy v = true ->
  truthy (obj_get "error" o) = false -> obj_get "success" o = VBool true.
Proof. unfold obj_get. intros -> Hv He. cbn in He. congruence. Qed.

Lemma marked_success (o : object) :
  o !! "success" = Some (VBool true) ->
  truthy (obj_get "error" o) = false -> obj_get "success" o = VBool true.
Proof. unfold obj_get. by intros ->. Qed.

Ltac solve_marked :=
  repeat match goal with
         | |- context [if truthy ?v then _ else _] => destruct (truthy v)
         end;
  solve [ apply marked_success; reflexivity
        | eapply marked_failure; reflexivity ].

Lemma dispatch_generate_marked site sid :
  post (fun data => truthy (obj_get "error" data) = false
                    -> obj_get "success" data = VBool true)
    (Server.dispatch_generate site sid).
Proof.
  unfold Server.dispatch_generate.
  repeat lazymatch goal with
         | |- post _ (if ?c then _ else _) => destruct c
         end.
  - unfold Server.gen_douban. cbv zeta. repeat post_step. all: solve_marked.
  - unfold Server.gen_imdb. cbv zeta. repeat post_step. all: solve_marked.
  - unfold Server.gen_bangumi. cbv zeta. repeat post_step. all: solve_marked.
  - unfold Server.gen_steam. cbv zeta. repeat post_step. all: solve_marked.
  - unfold Server.gen_indienova. cbv zeta. repeat post_step. all: solve_marked.
  - unfold Server.gen_epic. cbv zeta. repeat post_step. all: solve_marked.
  - repeat post_step. solve_marked.
Qed.

Lemma dispatch_search_ok source keywords :
  post data_ok (Server.dispatch_search source keywords).
Proof.
  unfold Server.dispatch_search.
  repeat post_step; eauto using search_douban_ok, search_imdb_ok, search_bangumi_ok.
  all: solve_data_ok.
Qed.

End Adapters.

(** ** The envelope and the cache *)

Lemma jsonify_scalar v b : jsonify v = VBool b -> v = VBool b.
Proof. destruct v as [| | | r | | |]; cbn; try done. by destruct (not_finite r). Qed.

Lemma jsonify_falsy v : truthy v = false -> truthy (jsonify v) = false.
Proof. destruct v as [| | | r | | |]; cbn; try done. by destruct (not_finite r). Qed.

Lemma jsonify_nullish v : nullish v = true -> nullish (jsonify v) = true.
Proof. by destruct v. Qed.

Lemma lookup_jsonify_object (o : object) k :
  jsonify_object o !! k
  = match o !! k with
    | Some VUndefined | None => None
    | Some x => Some (jsonify x)
    end.
Proof.
  unfold jsonify_object. rewrite lookup_omap. destruct (o !! k) as [[]|]; done.
Qed.

Lemma jsonify_object_ok (o : object) :
  data_ok o -> truthy (obj_get "error" o) = false ->
  data_ok (jsonify_object o) /\ truthy (obj_get "error" (jsonify_object o)) = false.
Proof.
  unfold data_ok, obj_get, has_key. rewrite !lookup_jsonify_object.
  intros [Hs Hf] He. split; [split|].
  - intros Hsucc. destruct (o !! "success") as [s|] eqn:Hos; [|done].
    assert (s = VBool true) as ->.
    { destruct s; try done; cbn [default] in Hsucc; by apply jsonify_scalar. }
    specialize (Hs eq_refl). destruct (o !! "error") as [e|]; [|done].
    destruct e; try done.
  - intros Hsucc. rewrite bool_decide_eq_false. intros [x Hx].
    assert (default VUndefined (o !! "success") <> VBool true) as Hne.
    { intros Heq. apply Hsucc. destruct (o !! "success") as [s|]; [|done].
      cbn in Heq. by subst. }
    apply Hf in Hne. rewrite bool_decide_eq_false in Hne. apply Hne.
    destruct (o !! "format"); [eauto|done].
  - destruct (o !! "error") as [e|]; [|done]. cbn in He.
    destruct e; try done; cbn [default]; by apply jsonify_falsy.
Qed.

Section Envelope.
Context (env : Server.Env) (now : Z).

Lemma makeJsonResponse_body data statusCode :
  exists body,
    Server.body (Server.makeJsonResponse env now data statusCode) = inr body
    /\ body !! "success" = Some (default (VBool false) (data !! "success"))
    /\ body !! "error" = Some (default VNull (data !! "error"))
    /\ body !! "format" = Some (default (VStr "") (data !! "format"))
    /\ forall k v, data !! k = Some v -> k <> "generate_at" -> body !! k = Some v.
Proof.
  eexists. split; [reflexivity|]. unfold spread.
  repeat split.
  - rewrite lookup_union_r by reflexivity. rewrite lookup_union.
    by destruct (data !! "success").
  - rewrite lookup_union_r by reflexivity. rewrite lookup_union.
    by destruct (data !! "error").
  - rewrite lookup_union_r by reflexivity. rewrite lookup_union.
    by destruct (data !! "format").
  - intros k v Hk Hne. rewrite lookup_union_r.
    + by apply lookup_union_Some_l.
    + unfold record. cbn [list_to_map foldr fst snd]. by rewrite lookup_insert_ne.
Qed.

Lemma makeJsonResponse_ok data statusCode body :
  data_ok data ->
  Server.body (Server.makeJsonResponse env now data statusCode) = inr body ->
  record_ok body.
Proof.
  intros [Hs Hf] Hbody.
  destruct (makeJsonResponse_body data statusCode) as (b & Hb & Hsucc & Herr & Hfmt & _).
  rewrite Hb in Hbody. injection Hbody as <-.
  unfold record_ok, data_ok, obj_get, has_key in *. rewrite Hsucc, Herr, Hfmt. cbn [default].
  assert (default (VBool false) (data !! "success") <> VBool true ->
          default (VStr "") (data !! "format") = VStr "") as Hempty.
  { intros Hfalse.
    assert (default VUndefined (data !! "success") <> VBool true) as Hne.
    { destruct (data !! "success") as [s|]; [|done]. cbn in *. congruence. }
    apply Hf in Hne. rewrite bool_decide_eq_false in Hne.
    destruct (data !! "format"); [|done]. destruct Hne. eauto. }
  split; [|split].
  - intros Ht. destruct (data !! "success") as [s|]; [|done]. cbn in Ht. subst s.
    specialize (Hs eq_refl). by destruct (data !! "error").
  - intros Hfalse. apply Hempty. cbn in Hfalse. congruence.
  - intros Hne. cbn in Hne. by rewrite Hempty.
Qed.

Lemma makeJsonResponse_failed data statusCode :
  failed (Server.makeJsonResponse env now data statusCode)
  <-> truthy (obj_get "error" data) = true.
Proof.
  destruct (makeJsonResponse_body data statusCode) as (b & Hb & _ & Herr & _).
  unfold failed, obj_get. rewrite Hb, Herr. cbn [default].
  by destruct (data !! "error").
Qed.

End Envelope.

Lemma makeJsonResponse_marked env now data statusCode :
  obj_get "success" data = VBool true ->
  obj_get "success" (record_sent (Server.makeJsonResponse env now data statusCode))
  = VBool true.
Proof.
  intros Hs.
  destruct (makeJsonResponse_body env now data statusCode) as (b & Hb & Hsucc & _).
  unfold record_sent, obj_get in *. rewrite Hb, Hsucc.
  by destruct (data !! "success").
Qed.

Lemma jsonify_object_marked (o : object) :
  obj_get "success" o = VBool true -> obj_get "success" (jsonify_object o) = VBool true.
Proof.
  unfold obj_get. rewrite lookup_jsonify_object.
  destruct (o !! "success") as [s|]; [|done]. cbn. by intros ->.
Qed.

(** ** The handler *)

Lemma store_ok_empty : store_ok ∅.
Proof. intros key response_data expiry. by rewrite lookup_empty. Qed.

Lemma store_ok_delete key (memoryCache : gmap string (object * Z)) :
  store_ok memoryCache -> store_ok (delete key memoryCache).
Proof.
  intros Hok k d e. rewrite lookup_delete_Some. intros [_ Hk]. by eapply Hok.
Qed.

Lemma store_ok_put now key data ttl (memoryCache : gmap string (object * Z)) :
  store_ok memoryCache -> data_ok data -> truthy (obj_get "error" data) = false ->
  store_ok (Server.PT_GEN_STORE_put now key (jsonify_object data) ttl memoryCache).
Proof.
  intros Hok Hd He k d e. unfold Server.PT_GEN_STORE_put.
  rewrite lookup_insert_Some. intros [[_ [= <- _]]|[_ Hk]].
  - by apply jsonify_object_ok.
  - by eapply Hok.
Qed.

Section Handler.
Context `{Crypto} `{Network} `{Platform}.
Context (env : Server.Env).

Lemma resolve_route now uri memoryCache :
  Server.resolve env now uri memoryCache
  = match route env uri with
    | inl response_data => (memoryCache, ret (response_data, None))
    | inr (cache_key, live) => Server.cached_or now cache_key live memoryCache
    end.
Proof.
  unfold Server.resolve, route.
  destruct (Server.query_get "search" uri).
  - by destruct (nonempty (Server.env_DISABLE_SEARCH env)).
  - by destruct (Server.subject_of uri) as [[site|] [sid|]].
Qed.

Lemma route_refused uri response_data :
  route env uri = inl response_data ->
  data_ok response_data /\ truthy (obj_get "error" response_data) = true.
Proof.
  unfold route.
  destruct (Server.query_get "search" uri).
  - destruct (nonempty (Server.env_DISABLE_SEARCH env)); [|done].
    intros [= <-]. split; [by apply data_ok_failure|done].
  - destruct (Server.subject_of uri) as [[site|] [sid|]]; [done|..];
      (intros [= <-]; split; [by apply data_ok_failure|done]).
Qed.

Lemma route_live uri cache_key live :
  route env uri = inr (cache_key, live) -> post data_ok live.
Proof.
  unfold route.
  destruct (Server.query_get "search" uri).
  - destruct (nonempty (Server.env_DISABLE_SEARCH env)); [done|].
    intros [= _ <-]. apply dispatch_search_ok.
  - destruct (Server.subject_of uri) as [[site|] [sid|]]; try done.
    intros [= _ <-]. apply dispatch_generate_ok.
Qed.

(** Only a generate request has a key that begins with [info-], and what its
    live resolution returns without error is marked successful. *)
Lemma route_info_marked uri cache_key live :
  route env uri = inr (cache_key, live) ->
  String.prefix "info-" cache_key = true ->
  post (fun data => truthy (obj_get "error" data) = false
                    -> obj_get "success" data = VBool true) live.
Proof.
  unfold route.
  destruct (Server.query_get "search" uri).
  - destruct (nonempty (Server.env_DISABLE_SEARCH env)); [done|].
    intros [= <- _] Hprefix. discriminate Hprefix.
  - destruct (Server.subject_of uri) as [[site|] [sid|]]; try done.
    intros [= _ <-] _. apply dispatch_generate_marked.
Qed.

End Handler.

Lemma post_bind_ret {A B} (P : A -> Prop) (m : M A) (b : B) :
  post P m -> post (fun r => P (fst r)) (let* a := m in ret (a, b)).
Proof.
  intros Hm sent [a b']. unfold bind, ret. destruct m as [l [a0|e]]; [|discriminate].
  intros [= _ <- _]. by eapply Hm.
Qed.

Section Respond.
Context `{Crypto} `{Network} `{Platform}.
Context (env : Server.Env) (now : Z) (request : Server.Request).

(** What [handle] does once the index page and the API key are behind it. *)
Lemma handle_resolve memoryCache :
  let uri := url_parse (Server.url request) in
  (String.eqb (pathname uri) "/" && String.eqb (search uri) "") = false ->
  Server.apikey_missing env uri = false ->
  Server.handle env now request memoryCache
  = match route env uri with
    | inl response_data =>
        (memoryCache, [], Server.makeJsonResponse env now response_data 200)
    | inr (cache_key, live) =>
        let '(memoryCache, resolved) := Server.cached_or now cache_key live memoryCache in
        Server.respond env now request memoryCache resolved
    end.
Proof.
  intros uri Hroot Hkey. unfold Server.handle. fold uri. rewrite Hroot, Hkey.
  rewrite resolve_route. by destruct (route env uri) as [?|[? ?]].
Qed.

Lemma cached_or_hit cache_key live (memoryCache : gmap string (object * Z)) cache_data expiry :
  memoryCache !! cache_key = Some (cache_data, expiry) -> (now <= expiry)%Z ->
  Server.cached_or now cache_key live memoryCache
  = (memoryCache, ret (cache_data, Some cache_key)).
Proof.
  intros Hk Hle. unfold Server.cached_or, Server.restoreFromKV, Server.PT_GEN_STORE_get.
  rewrite Hk. destruct (Z.ltb_spec expiry now); [lia|done].
Qed.

Lemma cached_or_miss cache_key live (memoryCache : gmap string (object * Z)) :
  (forall cache_data expiry,
     memoryCache !! cache_key = Some (cache_data, expiry) -> (expiry < now)%Z) ->
  Server.cached_or now cache_key live memoryCache
  = (delete cache_key memoryCache,
     let* response_data := live in ret (response_data, Some cache_key)).
Proof.
  intros Hk. unfold Server.cached_or, Server.restoreFromKV, Server.PT_GEN_STORE_get.
  destruct (memoryCache !! cache_key) as [[cache_data expiry]|] eqn:Hc.
  - specialize (Hk _ _ eq_refl). destruct (Z.ltb_spec expiry now); [done|lia].
  - by rewrite delete_id.
Qed.

Lemma cached_or_cases cache_key (memoryCache : gmap string (object * Z)) :
  (exists cache_data expiry,
     memoryCache !! cache_key = Some (cache_data, expiry) /\ (now <= expiry)%Z)
  \/ (forall cache_data expiry,
        memoryCache !! cache_key = Some (cache_data, expiry) -> (expiry < now)%Z).
Proof.
  destruct (memoryCache !! cache_key) as [[cache_data expiry]|]; [|by right].
  destruct (Z.le_gt_cases now expiry); [left; eauto|].
  right. intros ? ? [= _ <-]. lia.
Qed.

Lemma respond_ok memoryCache resolved :
  store_ok memoryCache -> post (fun r => data_ok (fst r)) resolved ->
  let '(memoryCache', sent, response) :=
    Server.respond env now request memoryCache resolved in
  store_ok memoryCache'
  /\ forall body, Server.body response = inr body -> record_ok body.
Proof.
  intros Hok Hpost. unfold Server.respond.
  destruct resolved as [sent [[response_data cache_key]|err]].
  - specialize (Hpost _ _ eq_refl). cbn [fst] in Hpost. split.
    + destruct cache_key as [cache_key|]; [|done].
      destruct (truthy (obj_get "error" response_data)) eqn:He; [done|].
      by apply store_ok_put.
    + intros body. by apply (makeJsonResponse_ok _ _ _ 200).
  - split; [done|]. intros body. apply (makeJsonResponse_ok _ _ _ 500).
    apply data_ok_failure; reflexivity.
Qed.

End Respond.

Section HandlerClaims.
Context `{Crypto} `{Network} `{Platform}.
Context (env : Server.Env).

(** C4. Whatever the request, the sites' answers and the instant: if the
    records in the cache satisfy the invariant, so do the records in the cache
    afterwards, and the record sent to the caller has no error when it is
    marked successful and no populated format when it is not (an empty
    string when it is marked unsuccessful).  The cache is empty at start-up
    and only [handle] writes to it. *)
Theorem response_invariant now request (memoryCache : gmap string (object * Z)) :
  store_ok memoryCache ->
  let '(memoryCache', sent, response) := Server.handle env now request memoryCache in
  store_ok memoryCache'
  /\ forall body, Server.body response = inr body -> record_ok body.
Proof.
  intros Hok.
  destruct (String.eqb (pathname (url_parse (Server.url request))) "/"
            && String.eqb (search (url_parse (Server.url request))) "") eqn:Hroot.
  { unfold Server.handle. rewrite Hroot. split; [done|]. intros body [=]. }
  destruct (Server.apikey_missing env (url_parse (Server.url request))) eqn:Hkey.
  { unfold Server.handle. rewrite Hroot, Hkey. split; [done|]. intros body [= <-].
    repeat split; done. }
  rewrite handle_resolve by done.
  destruct (route env (url_parse (Server.url request))) as [response_data|[cache_key live]]
    eqn:Hroute.
  - split; [done|]. intros body. apply (makeJsonResponse_ok _ _ _ 200).
    by eapply route_refused.
  - destruct (cached_or_cases now cache_key memoryCache)
      as [(cache_data & expiry & Hk & Hle)|Hmiss].
    + rewrite (cached_or_hit _ _ _ _ _ _ Hk Hle). apply respond_ok; [done|].
      apply post_ret. by eapply Hok.
    + rewrite cached_or_miss by done. apply respond_ok.
      * by apply store_ok_delete.
      * apply post_bind_ret. by eapply route_live.
Qed.

(** C5. A generate request for a site and a subject id whose key
    [info-site-sid] has an unexpired entry in the cache is answered from
    that entry: no request is sent, the response is the envelope of the
    cached record with status 200, and every field of the cached record
    other than [generate_at] is in the body as it was stored. *)
Theorem cached_record_returned now request (memoryCache : gmap string (object * Z))
    site sid cache_data expiry :
  let uri := url_parse (Server.url request) in
  (String.eqb (pathname uri) "/" && String.eqb (search uri) "") = false ->
  Server.apikey_missing env uri = false ->
  Server.query_get "search" uri = None ->
  Server.subject_of uri = (Some site, Some sid) ->
  memoryCache !! ("info-" +:+ site +:+ "-" +:+ sid) = Some (cache_data, expiry) ->
  (now <= expiry)%Z ->
  let '(memoryCache', sent, response) := Server.handle env now request memoryCache in
  sent = []
  /\ response = Server.makeJsonResponse env now cache_data 200
  /\ exists body,
       Server.body response = inr body
       /\ forall k v, cache_data !! k = Some v -> k <> "generate_at" -> body !! k = Some v.
Proof.
  intros uri Hroot Hkey Hsearch Hsubject Hentry Hle.
  rewrite handle_resolve by done. fold uri. unfold route. rewrite Hsearch, Hsubject.
  rewrite (cached_or_hit _ _ _ _ _ _ Hentry Hle). unfold Server.respond, ret.
  split; [done|]. split; [done|].
  destruct (makeJsonResponse_body env now cache_data 200) as (body & Hb & _ & _ & _ & Hfields).
  eauto.
Qed.

(** What [handle] writes to the cache, and what it does after a failure. *)
Lemma cache_writes now request (memoryCache : gmap string (object * Z)) :
  store_ok memoryCache ->
  let '(memoryCache', sent, response) := Server.handle env now request memoryCache in
  (forall key entry,
     memoryCache' !! key = Some entry ->
     memoryCache !! key = Some entry
     \/ (~ failed response
         /\ exists live response_data,
              route env (url_parse (Server.url request)) = inr (key, live)
              /\ entry = (jsonify_object response_data, (now + 172800000)%Z)
              /\ truthy (obj_get "error" response_data) = false
              /\ response = Server.makeJsonResponse env now response_data 200))
  /\ (failed response ->
      (forall key entry, memoryCache' !! key = Some entry -> memoryCache !! key = Some entry)
      /\ forall now', exists response',
           Server.handle env now' request memoryCache' = (memoryCache', sent, response')
           /\ failed response').
Proof.
  intros Hok.
  destruct (String.eqb (pathname (url_parse (Server.url request))) "/"
            && String.eqb (search (url_parse (Server.url request))) "") eqn:Hroot.
  { unfold Server.handle. rewrite Hroot. split; [by left|]. intros []. }
  destruct (Server.apikey_missing env (url_parse (Server.url request))) eqn:Hkey.
  { unfold Server.handle. rewrite Hroot, Hkey. split; [by left|]. intros _.
    split; [done|]. intros now'. eexists. split; [reflexivity|done]. }
  rewrite handle_resolve by done.
  destruct (route env (url_parse (Server.url request))) as [response_data|[cache_key live]]
    eqn:Hroute.
  - split; [by left|]. intros _. split; [done|]. intros now'.
    rewrite handle_resolve, Hroute by done. eexists. split; [reflexivity|].
    apply makeJsonResponse_failed. by eapply route_refused.
  - destruct (cached_or_cases now cache_key memoryCache)
      as [(cache_data & expiry & Hk & Hle)|Hmiss].
    + rewrite (cached_or_hit _ _ _ _ _ _ Hk Hle). unfold Server.respond, ret.
      destruct (Hok _ _ _ Hk) as [_ He]. rewrite He. cbn [negb].
      split.
      * intros key entry. unfold Server.PT_GEN_STORE_put.
        rewrite lookup_insert_Some. intros [[<- <-]|[_ Hother]]; [right|by left].
        split; [rewrite makeJsonResponse_failed; congruence|].
        exists live, cache_data. done.
      * rewrite makeJsonResponse_failed. congruence.
    + rewrite cached_or_miss by done. unfold Server.respond, bind, ret.
      destruct live as [sent [response_data|err]].
      * rewrite app_nil_r.
        destruct (truthy (obj_get "error" response_data)) eqn:He; cbn [negb].
        -- split.
           { intros key entry. rewrite lookup_delete_Some. intros [_ Hkey']. by left. }
           intros _. split.
           { intros key entry. rewrite lookup_delete_Some. by intros [_ Hkey']. }
           intros now'. rewrite handle_resolve, Hroute by done.
           rewrite cached_or_miss.
           2:{ intros cache_data expiry. by rewrite lookup_delete_eq. }
           rewrite delete_delete_eq. unfold Server.respond, bind, ret.
           rewrite app_nil_r, He. cbn [negb]. eexists. split; [reflexivity|].
           by apply makeJsonResponse_failed.
        -- split.
           ++ intros key entry. unfold Server.PT_GEN_STORE_put.
              rewrite lookup_insert_Some.
              intros [[<- <-]|[_ Hother]].
              ** right. split; [rewrite makeJsonResponse_failed; congruence|].
                 exists (sent, Ok response_data), response_data. done.
              ** left. apply lookup_delete_Some in Hother. tauto.
           ++ rewrite makeJsonResponse_failed. congruence.
      * split.
        { intros key entry. rewrite lookup_delete_Some. intros [_ Hkey']. by left. }
        intros _. split.
        { intros key entry. rewrite lookup_delete_Some. by intros [_ Hkey']. }
        intros now'. rewrite handle_resolve, Hroute by done.
        rewrite cached_or_miss.
        2:{ intros cache_data expiry. by rewrite lookup_delete_eq. }
        rewrite delete_delete_eq. unfold Server.respond, bind, ret.
        eexists. split; [reflexivity|].
        by apply makeJsonResponse_failed.
Qed.

(** Under the keys of generate requests [handle] writes marked records only,
    and sends a response marked successful whenever it writes one. *)
Lemma info_entries_marked now request (memoryCache : gmap string (object * Z)) :
  info_marked memoryCache ->
  let '(memoryCache', sent, response) := Server.handle env now request memoryCache in
  info_marked memoryCache'
  /\ forall key entry,
       String.prefix "info-" key = true ->
       memoryCache' !! key = Some entry -> memoryCache !! key <> Some entry ->
       obj_get "success" (record_sent response) = VBool true.
Proof.
  intros Hm.
  destruct (String.eqb (pathname (url_parse (Server.url request))) "/"
            && String.eqb (search (url_parse (Server.url request))) "") eqn:Hroot.
  { unfold Server.handle. rewrite Hroot. split; [done|]. intros key entry _ Hk Hne. done. }
  destruct (Server.apikey_missing env (url_parse (Server.url request))) eqn:Hkey.
  { unfold Server.handle. rewrite Hroot, Hkey. split; [done|]. intros key entry _ Hk Hne.
    done. }
  rewrite handle_resolve by done.
  destruct (route env (url_parse (Server.url request))) as [response_data|[cache_key live]]
    eqn:Hroute.
  { split; [done|]. intros key entry _ Hk Hne. done. }
  destruct (cached_or_cases now cache_key memoryCache)
    as [(cache_data & expiry & Hk & Hle)|Hmiss].
  - rewrite (cached_or_hit _ _ _ _ _ _ Hk Hle). unfold Server.respond, ret.
    destruct (truthy (obj_get "error" cache_data)) eqn:He; cbn [negb].
    { split; [done|]. intros key entry _ Hk' Hne. done. }
    unfold Server.PT_GEN_STORE_put. split.
    + intros key data e. rewrite lookup_insert_Some. intros [[<- [= <- _]]|[_ Hother]] Hp.
      * apply jsonify_object_marked. by eapply Hm.
      * by eapply Hm.
    + intros key entry Hp. rewrite lookup_insert_Some. intros [[<- _]|[_ Hother]] Hne; [|done].
      apply makeJsonResponse_marked. by eapply Hm.
  - rewrite cached_or_miss by done. unfold Server.respond, bind, ret.
    pose proof (route_info_marked env _ _ _ Hroute) as Hlive.
    destruct live as [sent [response_data|err]].
    + destruct (truthy (obj_get "error" response_data)) eqn:He; cbn [negb].
      * split.
        -- intros key data e. rewrite lookup_delete_Some. intros [_ Hother]. by eapply Hm.
        -- intros key entry _. rewrite lookup_delete_Some. intros [_ Hother] Hne. done.
      * unfold Server.PT_GEN_STORE_put. split.
        -- intros key data e. rewrite lookup_insert_Some.
           intros [[<- [= <- _]]|[_ Hother]] Hp.
           ++ apply jsonify_object_marked. exact (Hlive Hp _ _ eq_refl He).
           ++ apply lookup_delete_Some in Hother as [_ Hother]. by eapply Hm.
        -- intros key entry Hp. rewrite lookup_insert_Some.
           intros [[<- _]|[_ Hother]] Hne.
           ++ apply makeJsonResponse_marked. exact (Hlive Hp _ _ eq_refl He).
           ++ apply lookup_delete_Some in Hother as [_ Hother]. done.
    + split.
      * intros key data e. rewrite lookup_delete_Some. intros [_ Hother]. by eapply Hm.
      * intros key entry _. rewrite lookup_delete_Some. intros [_ Hother] Hne. done.
Qed.

(** C3 (amended). An entry is written to the cache only for a response
    without error, under the key of the request, as the JSON image of the
    record, for two days.  Under the key of a generate request, one that
    begins with [info-], this is a record marked successful, sent in a
    response marked successful: as long as the cache holds only marked
    records under such keys it goes on doing so.  (The record of a search is
    written without any mark.)  After a response with an error the cache
    holds nothing that it did not hold before, and the same request, at any
    later instant, is resolved in the same way again: the same requests are
    sent and the response has an error. *)
Theorem failure_not_cached now request (memoryCache : gmap string (object * Z)) :
  store_ok memoryCache ->
  let '(memoryCache', sent, response) := Server.handle env now request memoryCache in
  (forall key entry,
     memoryCache' !! key = Some entry ->
     memoryCache !! key = Some entry
     \/ (~ failed response
         /\ exists live response_data,
              route env (url_parse (Server.url request)) = inr (key, live)
              /\ entry = (jsonify_object response_data, (now + 172800000)%Z)
              /\ truthy (obj_get "error" response_data) = false
              /\ response = Server.makeJsonResponse env now response_data 200))
  /\ (info_marked memoryCache ->
      info_marked memoryCache'
      /\ forall key entry,
           String.prefix "info-" key = true ->
           memoryCache' !! key = Some entry -> memoryCache !! key <> Some entry ->
           obj_get "success" (record_sent response) = VBool true)
  /\ (failed response ->
      (forall key entry, memoryCache' !! key = Some entry -> memoryCache !! key = Some entry)
      /\ forall now', exists response',
           Server.handle env now' request memoryCache' = (memoryCache', sent, response')
           /\ failed response').
Proof.
  intros Hok.
  pose proof (cache_writes now request memoryCache Hok) as Hwrites.
  pose proof (info_entries_marked now request memoryCache) as Hmarked.
  destruct (Server.handle env now request memoryCache) as [[memoryCache' sent] response].
  destruct Hwrites as [Hnew Hfailed].
  split; [exact Hnew|]. split; [exact Hmarked|exact Hfailed].
Qed.

End HandlerClaims.

Lemma response_invariant_witness :
  store_ok ∅
  /\ let '(memoryCache', sent, response) :=
       @Server.handle unsolvable bare_network plain_platform open_env 0
         (get_request "/?site=douban&sid=1") ∅ in
     store_ok memoryCache'
     /\ forall body, Server.body response = inr body -> record_ok body.
Proof.
  split.
  - intros key response_data expiry Hkey. rewrite lookup_empty in Hkey. discriminate.
  - apply (@response_invariant unsolvable bare_network plain_platform open_env 0
             (get_request "/?site=douban&sid=1") ∅).
    intros key response_data expiry Hkey. rewrite lookup_empty in Hkey. discriminate.
Defined.

Lemma cached_record_returned_witness :
  let cache_data := record [("success", VBool true); ("format", VStr "x")] in
  let memoryCache : gmap string (object * Z) := {[ "info-douban-1" := (cache_data, 10%Z) ]} in
  let '(memoryCache', sent, response) :=
    @Server.handle unsolvable bare_network plain_platform open_env 5
      (get_request "/?site=douban&sid=1") memoryCache in
  sent = []
  /\ response = Server.makeJsonResponse open_env 5 cache_data 200
  /\ exists body,
       Server.body response = inr body
       /\ forall k v, cache_data !! k = Some v -> k <> "generate_at" -> body !! k = Some v.
Proof.
  apply (@cached_record_returned unsolvable bare_network plain_platform open_env 5
           (get_request "/?site=douban&sid=1")
           {[ "info-douban-1" := (record [("success", VBool true); ("format", VStr "x")],
                                  10%Z) ]}
           "douban" "1" (record [("success", VBool true); ("format", VStr "x")]) 10%Z).
  - reflexivity.
  - reflexivity.
  - reflexivity.
  - reflexivity.
  - reflexivity.
  - lia.
Defined.

Lemma failure_not_cached_witness :
  (store_ok ∅ /\ info_marked ∅)
  /\ (let '(memoryCache', sent, response) :=
        @Server.handle unsolvable (page_network 200 "你想访问的页面不存在") plain_platform
          open_env 0 (get_request "/?site=douban&sid=1") ∅ in
      (forall key entry,
         memoryCache' !! key = Some entry ->
         (∅ : gmap string (object * Z)) !! key = Some entry
         \/ (~ failed response
             /\ exists live response_data,
                  @route unsolvable (page_network 200 "你想访问的页面不存在") plain_platform
                    open_env (plain_url_parse "/?site=douban&sid=1") = inr (key, live)
                  /\ entry = (jsonify_object response_data, (0 + 172800000)%Z)
                  /\ truthy (obj_get "error" response_data) = false
                  /\ response = Server.makeJsonResponse open_env 0 response_data 200))
      /\ (info_marked ∅ ->
          info_marked memoryCache'
          /\ forall key entry,
               String.prefix "info-" key = true ->
               memoryCache' !! key = Some entry ->
               (∅ : gmap string (object * Z)) !! key <> Some entry ->
               obj_get "success" (record_sent response) = VBool true)
      /\ (failed response ->
          (forall key entry,
             memoryCache' !! key = Some entry ->
             (∅ : gmap string (object * Z)) !! key = Some entry)
          /\ forall now', exists response',
               @Server.handle unsolvable (page_network 200 "你想访问的页面不存在")
                 plain_platform open_env now' (get_request "/?site=douban&sid=1")
                 memoryCache'
               = (memoryCache', sent, response')
               /\ failed response'))
  /\ let answer :=
       @Server.handle unsolvable (page_network 200 "你想访问的页面不存在") plain_platform
         open_env 0 (get_request "/?site=douban&sid=1") ∅ in
     answer.1.2 = [Server.GET "https://movie.douban.com/subject/1/"]
     /\ obj_get "error" (record_sent answer.2) = VStr Server.NONE_EXIST_ERROR
     /\ answer.1.1 !! "info-douban-1" = None.
Proof.
  split; [|split].
  - split; intros key response_data expiry Hkey; rewrite lookup_empty in Hkey; discriminate.
  - apply (@failure_not_cached unsolvable (page_network 200 "你想访问的页面不存在")
             plain_platform open_env 0 (get_request "/?site=douban&sid=1") ∅).
    intros key response_data expiry Hkey. rewrite lookup_empty in Hkey. discriminate.
  - intros answer. split; [|split]; vm_compute; reflexivity.
Defined.

(** C3, as the specification has it, fails: the answer to a search is written
    to the cache although neither it nor the record sent is marked successful. *)
Lemma search_cached_without_success :
  let answer :=
    @Server.handle unsolvable bare_network plain_platform open_env 0
      (get_request "/?search=x&source=imdb") ∅ in
  answer.1.1 !! "search-imdb-x" = Some (record [("data", VArr [])], 172800000%Z)
  /\ obj_get "success" (record_sent answer.2) = VBool false
  /\ obj_get "success" (record [("data", VArr [])]) = VUndefined.
Proof.
  intros answer. split; [|split]; vm_compute; reflexivity.
Qed.

(** ** The IMDb identifier *)

Lemma fill_zeros k :
  JS.fill k "0" "" = JS.repeat_str "0" k /\ JS.fill k "0" "0" = JS.repeat_str "0" k.
Proof.
  induction k as [|k [IH0 IH1]]; [done|]. cbn [JS.fill JS.repeat_str].
  rewrite IH0. by rewrite append_cons, append_nil.
Qed.

Lemma all_digits_utf16_length s : all_digits s = true -> JS.utf16_length s = String.length s.
Proof.
  unfold all_digits. induction s as [|c s IH]; [done|]. cbn [list_ascii_of_string forallb].
  intros [Hc Hs]%andb_prop. cbn [JS.utf16_length String.length]. rewrite IH by done.
  f_equal. unfold Regex.is_digit in Hc. unfold JS.code_units.
  apply andb_prop in Hc as [_ Hc%N.leb_le].
  destruct (N.ltb_spec (N_of_ascii c) 128); [done|lia].
Qed.

Lemma all_digits_not_tt s : all_digits s = true -> JS.startsWith "tt" s = false.
Proof.
  destruct s as [|c s]; [done|]. unfold all_digits. cbn [list_ascii_of_string forallb].
  intros [Hc _]%andb_prop. unfold JS.startsWith. cbn [String.prefix].
  destruct (ascii_dec "t" c) as [<-|]; [discriminate Hc|done].
Qed.

Lemma all_digits_app s t : all_digits s = true -> all_digits t = true -> all_digits (s +:+ t) = true.
Proof.
  unfold all_digits. induction s as [|c s IH]; [done|]. rewrite append_cons.
  cbn [list_ascii_of_string forallb]. intros [-> Hs]%andb_prop Ht. by apply IH.
Qed.

Lemma all_digits_zeros k : all_digits (JS.repeat_str "0" k) = true.
Proof.
  induction k as [|k IH]; [done|]. cbn [JS.repeat_str]. by rewrite append_cons, append_nil.
Qed.

Lemma length_append s t : String.length (s +:+ t) = (String.length s + String.length t)%nat.
Proof. induction s as [|c s IH]; [done|]. rewrite append_cons. cbn. by rewrite IH. Qed.

Lemma length_zeros k : String.length (JS.repeat_str "0" k) = k.
Proof.
  induction k as [|k IH]; [done|]. cbn [JS.repeat_str]. rewrite append_cons, append_nil.
  cbn. by rewrite IH.
Qed.

Lemma prefix_tt s : String.prefix "tt" (String "t" (String "t" s)) = true.
Proof. cbn. by destruct s. Qed.

Lemma imdb_id_of_digits digits sid :
  all_digits digits = true -> sid = digits \/ sid = "tt" +:+ digits ->
  Server.imdb_id_of sid
  = "tt" +:+ JS.repeat_str "0" (7 - String.length digits) +:+ digits.
Proof.
  intros Hd Hsid. unfold Server.imdb_id_of.
  assert ((if JS.startsWith "tt" sid then JS.drop 2 sid else sid) = digits) as ->.
  { destruct Hsid as [->| ->]; [by rewrite all_digits_not_tt|].
    rewrite !append_cons, append_nil. unfold JS.startsWith. by rewrite prefix_tt. }
  unfold JS.padStart. rewrite all_digits_utf16_length by done.
  by rewrite (proj2 (fill_zeros _)).
Qed.

(** ** Requests *)

Lemma silent_ret {A} (a : A) : silent (ret a).
Proof. done. Qed.

Lemma silent_throw {A} e : silent (@throw A e).
Proof. done. Qed.

Lemma silent_lift {A} (r : result A) : silent (lift r).
Proof. done. Qed.

Lemma silent_bind {A B} (m : M A) (f : A -> M B) :
  silent m -> (forall a, silent (f a)) -> silent (let* x := m in f x).
Proof.
  unfold silent, requests, bind. destruct m as [l [a|e]]; cbn; intros ->; [|done].
  intros Hf. specialize (Hf a). by destruct (f a).
Qed.

Lemma requests_fetch `{Network} {B} r (f : response -> M B) :
  (forall resp, silent (f resp)) -> requests (let* resp := fetch r in f resp) = [r].
Proof.
  intros Hf. unfold requests, bind, fetch. destruct (send r) as [resp|e]; [|done].
  specialize (Hf resp). unfold silent, requests in Hf. destruct (f resp) as [l' r'].
  cbn in *. by subst.
Qed.

Ltac silent_step :=
  lazymatch goal with
  | |- silent (bind _ _) => apply silent_bind; [|intros ?]
  | |- silent (ret _) => apply silent_ret
  | |- silent (throw _) => apply silent_throw
  | |- silent (lift _) => apply silent_lift
  | |- silent (if ?c then _ else _) => destruct c
  | |- silent (match ?x with _ => _ end) => destruct x
  end.

Section Imdb.
Context `{Crypto} `{Network} `{Platform}.

Lemma gen_imdb_requests sid :
  requests (Server.gen_imdb sid) = [Server.GET (Server.imdb_url_of sid)].
Proof.
  unfold Server.gen_imdb. cbv zeta. apply requests_fetch. intros resp.
  repeat silent_step.
Qed.

Lemma gen_imdb_id sid :
  post (fun data => obj_get "success" data = VBool true ->
                    obj_get "imdb_id" data = VStr (Server.imdb_id_of sid))
       (Server.gen_imdb sid).
Proof.
  unfold Server.gen_imdb. cbv zeta. repeat post_step.
  all: repeat match goal with
              | |- context [if truthy ?v then _ else _] => destruct (truthy v)
              end.
  all: first [ reflexivity | discriminate 1 ].
Qed.

(** C10 (amended). For a subject id made of decimal digits, with or without
    the prefix [tt]: the identifier is [tt] and the digits, padded on the
    left with zeros to seven; it is [tt] and at least seven digits; the one
    request goes to the title page of that identifier; and a record marked
    successful carries that identifier. *)
Theorem gen_imdb_normalizes digits sid :
  all_digits digits = true ->
  sid = digits \/ sid = "tt" +:+ digits ->
  Server.imdb_id_of sid = "tt" +:+ JS.repeat_str "0" (7 - String.length digits) +:+ digits
  /\ canonical_imdb_id (Server.imdb_id_of sid) = true
  /\ requests (Server.gen_imdb sid)
     = [Server.GET ("https://www.imdb.com/title/" +:+ Server.imdb_id_of sid +:+ "/")]
  /\ forall sent data,
       Server.gen_imdb sid = (sent, Ok data) ->
       obj_get "success" data = VBool true ->
       obj_get "imdb_id" data = VStr (Server.imdb_id_of sid).
Proof.
  intros Hd Hsid. split; [by apply imdb_id_of_digits|]. split; [|split].
  - rewrite (imdb_id_of_digits digits) by done. unfold canonical_imdb_id.
    rewrite !append_cons, append_nil. unfold JS.startsWith.
    rewrite prefix_tt.
    cbn [andb JS.drop].
    rewrite all_digits_app by (done || apply all_digits_zeros). cbn [andb].
    apply Nat.leb_le. rewrite length_append, length_zeros. lia.
  - apply gen_imdb_requests.
  - apply gen_imdb_id.
Qed.

End Imdb.

Lemma gen_imdb_normalizes_witness :
  all_digits "42" = true
  /\ ("tt42" = "42" \/ "tt42" = "tt" +:+ "42")
  /\ @Server.imdb_id_of "tt42" = "tt" +:+ JS.repeat_str "0" (7 - String.length "42") +:+ "42"
  /\ canonical_imdb_id (Server.imdb_id_of "tt42") = true
  /\ requests (@Server.gen_imdb bare_network plain_platform "tt42")
     = [Server.GET ("https://www.imdb.com/title/" +:+ Server.imdb_id_of "tt42" +:+ "/")]
  /\ forall sent data,
       @Server.gen_imdb bare_network plain_platform "tt42" = (sent, Ok data) ->
       obj_get "success" data = VBool true ->
       obj_get "imdb_id" data = VStr (Server.imdb_id_of "tt42").
Proof.
  split; [reflexivity|]. split; [right; reflexivity|].
  apply (@gen_imdb_normalizes bare_network plain_platform "42" "tt42");
    [reflexivity|right; reflexivity].
Defined.

(** The three spellings of one subject give one identifier and one request. *)
Example gen_imdb_42 :
  map Server.imdb_id_of ["tt42"; "42"; "0000042"] = ["tt0000042"; "tt0000042"; "tt0000042"]
  /\ map (fun sid => requests (@Server.gen_imdb bare_network plain_platform sid))
         ["tt42"; "42"; "0000042"]
     = repeat [Server.GET "https://www.imdb.com/title/tt0000042/"] 3.
Proof. split; vm_compute; reflexivity. Qed.

(** C10, as the specification has it, fails: a subject id that is not made
    of digits is padded all the same, and the record marked successful
    carries an identifier that is not [tt] and seven digits. *)
Lemma gen_imdb_keeps_letters :
  let answer :=
    @Server.handle unsolvable bare_network plain_platform open_env 0
      (get_request "/?site=imdb&sid=abc") ∅ in
  obj_get "success" (record_sent answer.2) = VBool true
  /\ obj_get "imdb_id" (record_sent answer.2) = VStr "tt0000abc"
  /\ canonical_imdb_id "tt0000abc" = false
  /\ requests (@Server.gen_imdb bare_network plain_platform "abc")
     = [Server.GET "https://www.imdb.com/title/tt0000abc/"].
Proof.
  intros answer. split; [|split; [|split]]; vm_compute; reflexivity.
Qed.

(** ** Sorting *)

Section SortLemmas.
Context {A : Type} (cmp : A -> A -> Z).

Lemma insert_sorted_perm x l : Permutation (JS.insert_sorted cmp x l) (x :: l).
Proof.
  induction l as [|y r IH]; [done|]. cbn [JS.insert_sorted].
  destruct (0 <? cmp x y)%Z; [|done]. rewrite IH. apply perm_swap.
Qed.

Lemma sort_perm l : Permutation (JS.sort cmp l) l.
Proof.
  unfold JS.sort. induction l as [|x l IH]; [done|]. cbn [fold_right].
  rewrite insert_sorted_perm. by constructor.
Qed.

Hypothesis cmp_total : forall a b, (0 < cmp a b)%Z -> (cmp b a <= 0)%Z.
Hypothesis cmp_trans : forall a b c, (cmp a b <= 0)%Z -> (cmp b c <= 0)%Z -> (cmp a c <= 0)%Z.

Lemma insert_sorted_sorted x l :
  StronglySorted (fun a b => (cmp a b <= 0)%Z) l ->
  StronglySorted (fun a b => (cmp a b <= 0)%Z) (JS.insert_sorted cmp x l).
Proof.
  induction 1 as [|y r Hr IH Hy]; [repeat constructor|]. cbn [JS.insert_sorted].
  destruct (Z.ltb_spec 0 (cmp x y)) as [Hlt|Hle].
  - constructor; [done|]. rewrite insert_sorted_perm. constructor; [by apply cmp_total|done].
  - constructor; [by constructor|]. constructor; [done|].
    eapply Forall_impl; [|exact Hy]. intros z Hz. by eapply cmp_trans.
Qed.

Lemma sort_sorted l : StronglySorted (fun a b => (cmp a b <= 0)%Z) (JS.sort cmp l).
Proof.
  unfold JS.sort. induction l as [|x l IH]; [constructor|]. cbn [fold_right].
  by apply insert_sorted_sorted.
Qed.

End SortLemmas.

Lemma lex_compare_total a b : (0 < lex_compare a b)%Z -> (lex_compare b a <= 0)%Z.
Proof.
  revert b. induction a as [|x a IH]; intros [|y b]; cbn [lex_compare]; try lia.
  destruct (N.ltb_spec (N_of_ascii x) (N_of_ascii y)),
           (N.ltb_spec (N_of_ascii y) (N_of_ascii x)); try lia. apply IH.
Qed.

Lemma lex_compare_trans a b c :
  (lex_compare a b <= 0)%Z -> (lex_compare b c <= 0)%Z -> (lex_compare a c <= 0)%Z.
Proof.
  revert b c. induction a as [|x a IH]; intros [|y b] [|z c]; cbn [lex_compare]; try lia.
  destruct (N.ltb_spec (N_of_ascii x) (N_of_ascii y)),
           (N.ltb_spec (N_of_ascii y) (N_of_ascii x)),
           (N.ltb_spec (N_of_ascii y) (N_of_ascii z)),
           (N.ltb_spec (N_of_ascii z) (N_of_ascii y)),
           (N.ltb_spec (N_of_ascii x) (N_of_ascii z)),
           (N.ltb_spec (N_of_ascii z) (N_of_ascii x)); try lia. apply IH.
Qed.

(** C6 (amended). The alternate titles are the pieces of the text between
    the separators [" / "], every piece as often as it occurs, put in the
    order of [localeCompare] and joined with [/]; this for a comparison that
    is total and transitive. *)
Theorem aka_sorted `{Platform} (anchor_text : string) :
  (forall a b, (0 < localeCompare a b)%Z -> (localeCompare b a <= 0)%Z) ->
  (forall a b c, (localeCompare a b <= 0)%Z -> (localeCompare b c <= 0)%Z ->
                 (localeCompare a c <= 0)%Z) ->
  Permutation (Server.aka_entries anchor_text) (JS.split " / " anchor_text)
  /\ StronglySorted (fun a b => (localeCompare a b <= 0)%Z) (Server.aka_entries anchor_text)
  /\ Server.aka_of anchor_text = JS.join "/" (Server.aka_entries anchor_text).
Proof.
  intros Htotal Htrans. unfold Server.aka_of, Server.aka_entries.
  split; [apply sort_perm|]. split; [by apply sort_sorted|done].
Qed.

Lemma aka_sorted_witness :
  (forall a b, (0 < lex_compare a b)%Z -> (lex_compare b a <= 0)%Z)
  /\ (forall a b c, (lex_compare a b <= 0)%Z -> (lex_compare b c <= 0)%Z ->
                    (lex_compare a c <= 0)%Z)
  /\ Permutation (@Server.aka_entries plain_platform "Beta / Alpha")
                 (JS.split " / " "Beta / Alpha")
  /\ StronglySorted (fun a b => (lex_compare a b <= 0)%Z)
                    (@Server.aka_entries plain_platform "Beta / Alpha")
  /\ @Server.aka_of plain_platform "Beta / Alpha"
     = JS.join "/" (@Server.aka_entries plain_platform "Beta / Alpha").
Proof.
  split; [exact lex_compare_total|]. split; [exact lex_compare_trans|].
  apply (@aka_sorted plain_platform "Beta / Alpha");
    [exact lex_compare_total | exact lex_compare_trans].
Defined.

(** The example of the specification. *)
Example aka_beta_alpha :
  JS.split " / " "Beta / Alpha" = ["Beta"; "Alpha"]
  /\ @Server.aka_of plain_platform "Beta / Alpha" = "Alpha/Beta".
Proof. split; vm_compute; reflexivity. Qed.

(** C6, as the specification has it, fails: a title that occurs twice is
    kept twice. *)
Lemma aka_keeps_duplicates :
  JS.split " / " "Alpha / Alpha" = ["Alpha"; "Alpha"]
  /\ @Server.aka_entries plain_platform "Alpha / Alpha" = ["Alpha"; "Alpha"]
  /\ @Server.aka_of plain_platform "Alpha / Alpha" = "Alpha/Alpha"
  /\ ~ List.NoDup (@Server.aka_entries plain_platform "Alpha / Alpha").
Proof.
  assert (@Server.aka_entries plain_platform "Alpha / Alpha" = ["Alpha"; "Alpha"]) as Hentries
    by (vm_compute; reflexivity).
  split; [vm_compute; reflexivity|]. split; [exact Hentries|].
  split; [vm_compute; reflexivity|]. rewrite Hentries. intros Hnodup.
  inversion Hnodup as [|? ? Hnotin _]. apply Hnotin. by left.
Qed.

(** ** The description of a Douban subject *)

Lemma year_always_kept (text : string) :
  Server.nonempty_str (" " +:+ JS.substr 1 4 text) = true.
Proof. by rewrite append_cons. Qed.

(** C7 fails on the year of a Douban subject. The year is a space followed by
    characters of the page, so the test that guards its line never fails;
    for a page without year the line is written with nothing after the
    label. *)
Theorem douban_blank_year_line :
  (forall text, Server.nonempty_str (" " +:+ JS.substr 1 4 text) = true)
  /\ let answer :=
       @Server.handle unsolvable bare_network plain_platform open_env 0
         (get_request "/?site=douban&sid=1") ∅ in
     obj_get "success" (record_sent answer.2) = VBool true
     /\ obj_get "year" (record_sent answer.2) = VStr " "
     /\ JS.trim " " = ""
     /\ match obj_get "format" (record_sent answer.2) with
        | VStr format => JS.startsWith ("◎年　　代　" +:+ JS.newline +:+ "◎豆瓣评分") format
        | _ => false
        end = true.
Proof.
  split; [exact year_always_kept|]. intros answer.
  split; [|split; [|split]]; vm_compute; reflexivity.
Qed.

(** * Part III: further properties of the code *)

(** ** The in-memory store *)

Section Store.
Context (now : Z) (key : string) (value : object) (expirationTtl : Z).
Context (memoryCache : gmap string (object * Z)).

(** X1. What [PT_GEN_STORE.put] has written, [PT_GEN_STORE.get] reads back
    unchanged at every instant up to the expiry (the instant of writing plus
    the time to live, one day when none is given), without changing the
    store; and the entry of another key is read as before the writing. *)
Theorem store_put_get (now' : Z) :
  ((now' <= expiry_of now expirationTtl)%Z ->
   Server.PT_GEN_STORE_get now' key
     (Server.PT_GEN_STORE_put now key value expirationTtl memoryCache)
   = (Server.PT_GEN_STORE_put now key value expirationTtl memoryCache, Some value))
  /\ (forall key', key' <> key ->
        snd (Server.PT_GEN_STORE_get now' key'
               (Server.PT_GEN_STORE_put now key value expirationTtl memoryCache))
        = snd (Server.PT_GEN_STORE_get now' key' memoryCache)).
Proof.
  unfold Server.PT_GEN_STORE_get, Server.PT_GEN_STORE_put, expiry_of. split.
  - intros Hle. rewrite lookup_insert_eq.
    destruct (Z.ltb_spec (now + (if (expirationTtl =? 0)%Z then 86400 else expirationTtl) * 1000)
                now'); [lia|done].
  - intros key' Hne. rewrite lookup_insert_ne by done.
    destruct (memoryCache !! key') as [[v e]|]; [|done]. by destruct (e <? now')%Z.
Qed.

(** X2. Once the expiry has passed, reading the key gives nothing and removes
    the entry, and leaves every other entry in place; a key that was never
    written gives nothing and the store is not changed. *)
Theorem store_get_expired (now' : Z) :
  ((expiry_of now expirationTtl < now')%Z ->
   Server.PT_GEN_STORE_get now' key
     (Server.PT_GEN_STORE_put now key value expirationTtl memoryCache)
   = (delete key memoryCache, None))
  /\ (forall key',
        key' <> key ->
        fst (Server.PT_GEN_STORE_get now' key memoryCache) !! key' = memoryCache !! key')
  /\ (memoryCache !! key = None ->
      Server.PT_GEN_STORE_get now' key memoryCache = (memoryCache, None)).
Proof.
  unfold Server.PT_GEN_STORE_get, Server.PT_GEN_STORE_put, expiry_of. split; [|split].
  - intros Hlt. rewrite lookup_insert_eq.
    destruct (Z.ltb_spec (now + (if (expirationTtl =? 0)%Z then 86400 else expirationTtl) * 1000)
                now'); [|lia].
    by rewrite delete_insert_eq.
  - intros key' Hne. destruct (memoryCache !! key) as [[v e]|]; [|done].
    destruct (e <? now')%Z; [|done]. cbn [fst]. by rewrite lookup_delete_ne.
  - by intros ->.
Qed.

End Store.

(** ** The handler: keys, failures and unknown subjects *)

Lemma fetch_fails `{Network} {B} r e (f : response -> M B) :
  send r = Throw e -> (let* resp := fetch r in f resp) = ([r], Throw e).
Proof. intros He. unfold bind, fetch. by rewrite He. Qed.

Lemma eqb_neq_false (a b : string) : a <> b -> String.eqb a b = false.
Proof. intros Hne. by apply String.eqb_neq. Qed.

Section HandlerEdges.
Context `{Crypto} `{Network} `{Platform}.
Context (env : Server.Env) (now : Z) (request : Server.Request).
Context (memoryCache : gmap string (object * Z)).

Lemma respond_status (store : gmap string (object * Z)) resolved :
  let response := snd (Server.respond env now request store resolved) in
  Server.status response = 200%Z \/ Server.status response = 500%Z.
Proof.
  unfold Server.respond. destruct resolved as [sent [[response_data cache_key]|err]]; cbn; auto.
Qed.

(** X3. When an API key is configured, the index page is still served
    without it; every other request that does not carry exactly that key is
    answered 403 with the error "apikey required.", sends nothing and leaves
    the cache as it is; and a request that carries the key is never
    answered 403. *)
Theorem apikey_guard (key : string) :
  nonempty (Server.env_APIKEY env) = Some key ->
  let uri := url_parse (Server.url request) in
  let answer := Server.handle env now request memoryCache in
  ((String.eqb (pathname uri) "/" && String.eqb (search uri) "") = true ->
   answer = (memoryCache, [],
             {| Server.status := 200; Server.content_type := "text/html";
                Server.body := inl (Server.indexHtml env) |}))
  /\ ((String.eqb (pathname uri) "/" && String.eqb (search uri) "") = false ->
      headers_get "apikey" (query uri) <> Some key ->
      answer = (memoryCache, [],
                Server.makeJsonRawResponse (record [("error", VStr "apikey required.")]) 403))
  /\ ((String.eqb (pathname uri) "/" && String.eqb (search uri) "") = false ->
      headers_get "apikey" (query uri) = Some key ->
      Server.status (snd answer) = 200%Z \/ Server.status (snd answer) = 500%Z).
Proof.
  intros Hkey uri answer. subst answer. split; [|split].
  - intros Hroot. unfold Server.handle. fold uri. by rewrite Hroot.
  - intros Hroot Hne. unfold Server.handle. fold uri. rewrite Hroot.
    unfold Server.apikey_missing. rewrite Hkey.
    destruct (headers_get "apikey" (query uri)) as [given|]; [|done].
    rewrite eqb_neq_false by congruence. done.
  - intros Hroot Hgiven.
    assert (Server.apikey_missing env uri = false) as Hok.
    { unfold Server.apikey_missing. rewrite Hkey, Hgiven. by rewrite String.eqb_refl. }
    rewrite handle_resolve by done. fold uri.
    destruct (route env uri) as [response_data|[cache_key live]]; [by left|].
    destruct (Server.cached_or now cache_key live memoryCache) as [store resolved].
    apply respond_status.
Qed.

End HandlerEdges.

Lemma apikey_guard_witness :
  nonempty (Server.env_APIKEY (keyed_env "secret")) = Some "secret"
  /\ let uri := plain_url_parse "/?site=douban&sid=1&apikey=guess" in
     let answer :=
       @Server.handle unsolvable bare_network plain_platform (keyed_env "secret") 0
         (get_request "/?site=douban&sid=1&apikey=guess") ∅ in
     ((String.eqb (pathname uri) "/" && String.eqb (search uri) "") = true ->
      answer = (∅, [],
                {| Server.status := 200; Server.content_type := "text/html";
                   Server.body := inl (Server.indexHtml (keyed_env "secret")) |}))
     /\ ((String.eqb (pathname uri) "/" && String.eqb (search uri) "") = false ->
         headers_get "apikey" (query uri) <> Some "secret" ->
         answer = (∅, [],
                   Server.makeJsonRawResponse (record [("error", VStr "apikey required.")]) 403))
     /\ ((String.eqb (pathname uri) "/" && String.eqb (search uri) "") = false ->
         headers_get "apikey" (query uri) = Some "secret" ->
         Server.status (snd answer) = 200%Z \/ Server.status (snd answer) = 500%Z).
Proof.
  split; [reflexivity|].
  apply (@apikey_guard unsolvable bare_network plain_platform (keyed_env "secret") 0
           (get_request "/?site=douban&sid=1&apikey=guess") ∅ "secret").
  reflexivity.
Defined.

Section Dispatch.
Context `{Crypto} `{Network} `{Platform}.

Lemma dispatch_generate_fails site sid e :
  In site SITES -> (forall r, send r = Throw e) ->
  exists r, Server.dispatch_generate site sid = ([r], Throw e).
Proof.
  intros Hsite Hfail. unfold SITES in Hsite. cbn [In] in Hsite.
  destruct Hsite as [<-|[<-|[<-|[<-|[<-|[<-|[]]]]]]]; cbn [Server.dispatch_generate];
    eexists; apply fetch_fails, Hfail.
Qed.

Lemma dispatch_search_fails source keywords e :
  In source SOURCES -> (forall r, send r = Throw e) ->
  exists r, Server.dispatch_search source keywords = ([r], Throw e).
Proof.
  intros Hsource Hfail. unfold SOURCES in Hsource. cbn [In] in Hsource.
  destruct Hsource as [<-|[<-|[<-|[]]]]; cbn [Server.dispatch_search];
    eexists; apply fetch_fails, Hfail.
Qed.

Lemma dispatch_generate_unknown site sid :
  ~ In site SITES ->
  Server.dispatch_generate site sid = ret (record [("error", VStr ("Unknown site: " +:+ site))]).
Proof.
  intros Hsite. unfold SITES in Hsite. cbn [In] in Hsite. unfold Server.dispatch_generate.
  rewrite !eqb_neq_false; [done|intros ->; tauto..].
Qed.

Lemma dispatch_search_unknown source keywords :
  ~ In source SOURCES ->
  Server.dispatch_search source keywords
  = ret (record [("error", VStr ("Unknown source: " +:+ source))]).
Proof.
  intros Hsource. unfold SOURCES in Hsource. cbn [In] in Hsource. unfold Server.dispatch_search.
  rewrite !eqb_neq_false; [done|intros ->; tauto..].
Qed.

End Dispatch.

Section HandlerFailures.
Context `{Crypto} `{Network} `{Platform}.
Context (env : Server.Env) (now : Z) (request : Server.Request).
Context (memoryCache : gmap string (object * Z)).

Lemma handle_miss cache_key live :
  let uri := url_parse (Server.url request) in
  (String.eqb (pathname uri) "/" && String.eqb (search uri) "") = false ->
  Server.apikey_missing env uri = false ->
  route env uri = inr (cache_key, live) ->
  memoryCache !! cache_key = None ->
  Server.handle env now request memoryCache
  = Server.respond env now request memoryCache
      (let* response_data := live in ret (response_data, Some cache_key)).
Proof.
  intros uri Hroot Hkey Hroute Hmiss. rewrite handle_resolve by done. fold uri.
  rewrite Hroute, cached_or_miss by (intros ? ?; by rewrite Hmiss).
  by rewrite delete_id.
Qed.

(** X4. When every request to the site fails with an error, a generate
    request for one of the six sites, or a search in one of the three
    sources, that is not in the cache is answered with status 500, the error
    "Internal Error: " followed by the message of the error and a debug
    record; one request has been attempted and nothing is written to the
    cache. *)
Theorem upstream_failure (e : exn) :
  let uri := url_parse (Server.url request) in
  (forall r, send r = Throw e) ->
  (String.eqb (pathname uri) "/" && String.eqb (search uri) "") = false ->
  Server.apikey_missing env uri = false ->
  (exists site sid,
     Server.query_get "search" uri = None
     /\ Server.subject_of uri = (Some site, Some sid)
     /\ In site SITES
     /\ memoryCache !! ("info-" +:+ site +:+ "-" +:+ sid) = None)
  \/ (exists keywords source,
        Server.query_get "search" uri = Some keywords
        /\ nonempty (Server.env_DISABLE_SEARCH env) = None
        /\ default "douban" (Server.query_get "source" uri) = source
        /\ In source SOURCES
        /\ memoryCache !! ("search-" +:+ source +:+ "-" +:+ keywords) = None) ->
  exists r,
    Server.handle env now request memoryCache
    = (memoryCache, [r],
       Server.makeJsonResponse env now
         (record [("error", VStr ("Internal Error: " +:+ err_message e));
                  ("debug", Server.debug_get_err now e request)]) 500).
Proof.
  intros uri Hfail Hroot Hkey Hcase.
  assert (exists cache_key live r,
            route env uri = inr (cache_key, live)
            /\ memoryCache !! cache_key = None /\ live = ([r], Throw e))
    as (cache_key & live & r & Hroute & Hmiss & Hlive).
  { destruct Hcase as [(site & sid & Hs & Hsub & Hin & Hmiss)
                      |(keywords & source & Hs & Hdis & Hsrc & Hin & Hmiss)].
    - destruct (dispatch_generate_fails site sid e Hin Hfail) as [r Hr].
      exists ("info-" +:+ site +:+ "-" +:+ sid), (Server.dispatch_generate site sid), r.
      unfold route. by rewrite Hs, Hsub.
    - destruct (dispatch_search_fails source keywords e Hin Hfail) as [r Hr].
      exists ("search-" +:+ source +:+ "-" +:+ keywords),
             (Server.dispatch_search source keywords), r.
      unfold route. by rewrite Hs, Hdis, Hsrc. }
  exists r. rewrite (handle_miss cache_key live) by done. by rewrite Hlive.
Qed.

(** X5. A generate request for a site that is not one of the six, or a
    search in a source that is not one of the three, not in the cache, is
    answered with status 200 and the error "Unknown site: " or "Unknown
    source: " followed by the name; no request is sent and nothing is written
    to the cache. *)
Theorem unknown_subject :
  let uri := url_parse (Server.url request) in
  (String.eqb (pathname uri) "/" && String.eqb (search uri) "") = false ->
  Server.apikey_missing env uri = false ->
  ((forall site sid,
      Server.query_get "search" uri = None ->
      Server.subject_of uri = (Some site, Some sid) ->
      ~ In site SITES ->
      memoryCache !! ("info-" +:+ site +:+ "-" +:+ sid) = None ->
      Server.handle env now request memoryCache
      = (memoryCache, [],
         Server.makeJsonResponse env now
           (record [("error", VStr ("Unknown site: " +:+ site))]) 200))
   /\ (forall keywords source,
         Server.query_get "search" uri = Some keywords ->
         nonempty (Server.env_DISABLE_SEARCH env) = None ->
         default "douban" (Server.query_get "source" uri) = source ->
         ~ In source SOURCES ->
         memoryCache !! ("search-" +:+ source +:+ "-" +:+ keywords) = None ->
         Server.handle env now request memoryCache
         = (memoryCache, [],
            Server.makeJsonResponse env now
              (record [("error", VStr ("Unknown source: " +:+ source))]) 200))).
Proof.
  intros uri Hroot Hkey. subst uri. split.
  - intros site sid Hs Hsub Hin Hmiss.
    rewrite (handle_miss ("info-" +:+ site +:+ "-" +:+ sid) (Server.dispatch_generate site sid))
      by (try done; unfold route; by rewrite Hs, Hsub).
    rewrite dispatch_generate_unknown by done. unfold Server.respond, bind, ret.
    cbn [app]. by rewrite append_cons.
  - intros keywords source Hs Hdis Hsrc Hin Hmiss.
    rewrite (handle_miss ("search-" +:+ source +:+ "-" +:+ keywords)
               (Server.dispatch_search source keywords))
      by (try done; unfold route; by rewrite Hs, Hdis, Hsrc).
    rewrite dispatch_search_unknown by done. unfold Server.respond, bind, ret.
    cbn [app]. by rewrite append_cons.
Qed.

(** X6. A request that is no search and names no subject is answered with
    status 200 and the error "Miss key of site or sid, or input unsupported
    resource url.", without any request and without touching the cache. This
    is so when the [url] parameter matches none of the six patterns, whatever
    [site] and [sid] say, and when there is no [url] parameter and [site] or
    [sid] is missing or empty. *)
Theorem missing_subject :
  let uri := url_parse (Server.url request) in
  (String.eqb (pathname uri) "/" && String.eqb (search uri) "") = false ->
  Server.apikey_missing env uri = false ->
  Server.query_get "search" uri = None ->
  (exists url_str,
     Server.query_get "url" uri = Some url_str
     /\ Server.identify Server.support_list url_str = None)
  \/ (Server.query_get "url" uri = None
      /\ (Server.query_get "site" uri = None \/ Server.query_get "sid" uri = None)) ->
  Server.handle env now request memoryCache
  = (memoryCache, [],
     Server.makeJsonResponse env now (record [("error", VStr Server.MISSING)]) 200).
Proof.
  intros uri Hroot Hkey Hs Hcase. rewrite handle_resolve by done. fold uri.
  assert (route env uri = inl (record [("error", VStr Server.MISSING)])) as ->; [|done].
  unfold route, Server.subject_of. rewrite Hs.
  destruct Hcase as [(url_str & -> & ->)|[-> [-> | ->]]]; [done|done|].
  by destruct (Server.query_get "site" uri).
Qed.

End HandlerFailures.

Lemma upstream_failure_witness :
  exists r,
    @Server.handle unsolvable (failing_network (Error "connect ECONNREFUSED")) plain_platform
      open_env 0 (get_request "/?site=steam&sid=10") ∅
    = (∅, [r],
       Server.makeJsonResponse open_env 0
         (record [("error", VStr ("Internal Error: "
                                  +:+ err_message (Error "connect ECONNREFUSED")));
                  ("debug", Server.debug_get_err 0 (Error "connect ECONNREFUSED")
                              (get_request "/?site=steam&sid=10"))]) 500).
Proof.
  apply (@upstream_failure unsolvable (failing_network (Error "connect ECONNREFUSED"))
           plain_platform open_env 0 (get_request "/?site=steam&sid=10") ∅
           (Error "connect ECONNREFUSED")).
  - reflexivity.
  - reflexivity.
  - reflexivity.
  - left. exists "steam", "10". repeat split; try reflexivity. cbn. tauto.
Defined.

Lemma unknown_subject_witness :
  let uri := plain_url_parse "/?site=netflix&sid=1" in
  (forall site sid,
     Server.query_get "search" uri = None ->
     Server.subject_of uri = (Some site, Some sid) ->
     ~ In site SITES ->
     (∅ : gmap string (object * Z)) !! ("info-" +:+ site +:+ "-" +:+ sid) = None ->
     @Server.handle unsolvable bare_network plain_platform open_env 0
       (get_request "/?site=netflix&sid=1") ∅
     = (∅, [],
        Server.makeJsonResponse open_env 0
          (record [("error", VStr ("Unknown site: " +:+ site))]) 200))
  /\ (forall keywords source,
        Server.query_get "search" uri = Some keywords ->
        nonempty (Server.env_DISABLE_SEARCH open_env) = None ->
        default "douban" (Server.query_get "source" uri) = source ->
        ~ In source SOURCES ->
        (∅ : gmap string (object * Z)) !! ("search-" +:+ source +:+ "-" +:+ keywords) = None ->
        @Server.handle unsolvable bare_network plain_platform open_env 0
          (get_request "/?site=netflix&sid=1") ∅
        = (∅, [],
           Server.makeJsonResponse open_env 0
             (record [("error", VStr ("Unknown source: " +:+ source))]) 200)).
Proof.
  apply (@unknown_subject unsolvable bare_network plain_platform open_env 0
           (get_request "/?site=netflix&sid=1") ∅); reflexivity.
Defined.

Lemma missing_subject_witness :
  @Server.handle unsolvable bare_network plain_platform open_env 0
    (get_request "/?url=https://example.org/&site=douban&sid=1") ∅
  = (∅, [],
     Server.makeJsonResponse open_env 0 (record [("error", VStr Server.MISSING)]) 200).
Proof.
  apply (@missing_subject unsolvable bare_network plain_platform open_env 0
           (get_request "/?url=https://example.org/&site=douban&sid=1") ∅).
  - reflexivity.
  - reflexivity.
  - reflexivity.
  - left. exists "https://example.org/". split; reflexivity.
Defined.

(** ** The cache: refreshed entries and search answers *)

Lemma jsonify_idempotent : forall v, jsonify (jsonify v) = jsonify v.
Proof.
  fix IH 1. intros [| |b|r|s|items|fields]; cbn [jsonify]; try reflexivity.
  - destruct (not_finite r) eqn:Hr; cbn [jsonify]; [reflexivity|by rewrite Hr].
  - f_equal. induction items as [|x items IHitems]; [reflexivity|].
    cbn [map]. f_equal; [apply IH|apply IHitems].
  - f_equal. induction fields as [|[k x] fields IHfields]; [reflexivity|].
    pose proof (IH x) as Hx.
    destruct x as [| |b|r|s|items|fields']; cbn [jsonify] in Hx |- *.
    + exact IHfields.
    + f_equal. exact IHfields.
    + f_equal. exact IHfields.
    + destruct (not_finite r) eqn:Hr; cbn [jsonify]; rewrite ?Hr; f_equal; exact IHfields.
    + f_equal. exact IHfields.
    + rewrite Hx. f_equal. exact IHfields.
    + rewrite Hx. f_equal. exact IHfields.
Qed.

Lemma jsonify_object_idempotent (o : object) :
  jsonify_object (jsonify_object o) = jsonify_object o.
Proof.
  apply map_eq. intros k. rewrite !lookup_jsonify_object.
  destruct (o !! k) as [v|]; [|done].
  destruct v as [| |b|r|s|items|fields]; try done.
  - cbn [jsonify]. destruct (not_finite r) eqn:Hr; [done|]. cbn [jsonify]. by rewrite Hr.
  - by rewrite (jsonify_idempotent (VArr items)).
  - by rewrite (jsonify_idempotent (VObj fields)).
Qed.

Lemma jsonify_object_error (o : object) :
  truthy (obj_get "error" o) = false ->
  truthy (obj_get "error" (jsonify_object o)) = false.
Proof.
  unfold obj_get. rewrite lookup_jsonify_object. intros He.
  destruct (o !! "error") as [e|]; [|done]. cbn in He.
  destruct e; try done; cbn [default]; by apply jsonify_falsy.
Qed.

Section CacheRefresh.
Context `{Crypto} `{Network} `{Platform}.
Context (env : Server.Env) (now : Z) (request : Server.Request).
Context (memoryCache : gmap string (object * Z)).

(** X7. A cache hit writes the entry again: when the record of the entry is
    one that [handle] wrote (the JSON image of a record without error), the
    cache afterwards holds the same record under the same key with the
    expiry now plus two days, so an entry that keeps being requested does
    not expire. *)
Theorem cache_hit_refreshes site sid response_data expiry :
  let uri := url_parse (Server.url request) in
  (String.eqb (pathname uri) "/" && String.eqb (search uri) "") = false ->
  Server.apikey_missing env uri = false ->
  Server.query_get "search" uri = None ->
  Server.subject_of uri = (Some site, Some sid) ->
  truthy (obj_get "error" response_data) = false ->
  memoryCache !! ("info-" +:+ site +:+ "-" +:+ sid)
  = Some (jsonify_object response_data, expiry) ->
  (now <= expiry)%Z ->
  fst (fst (Server.handle env now request memoryCache))
  = <["info-" +:+ site +:+ "-" +:+ sid
      := (jsonify_object response_data, (now + 172800000)%Z)]> memoryCache.
Proof.
  intros uri Hroot Hkey Hsearch Hsubject Herror Hentry Hle.
  rewrite handle_resolve by done. fold uri. unfold route. rewrite Hsearch, Hsubject.
  rewrite (cached_or_hit _ _ _ _ _ _ Hentry Hle). unfold Server.respond, ret.
  rewrite jsonify_object_error by done. cbn [negb fst].
  unfold Server.PT_GEN_STORE_put. by rewrite jsonify_object_idempotent.
Qed.

(** X8. A search in IMDb or Bangumi that is not in the cache and is answered
    with status 200 is always written to the cache for two days, whatever
    the site has sent: the record is a list [data] without error and without
    [success], and the envelope reports [success: false]. *)
Theorem search_answer_cached keywords source :
  let uri := url_parse (Server.url request) in
  (String.eqb (pathname uri) "/" && String.eqb (search uri) "") = false ->
  Server.apikey_missing env uri = false ->
  Server.query_get "search" uri = Some keywords ->
  nonempty (Server.env_DISABLE_SEARCH env) = None ->
  default "douban" (Server.query_get "source" uri) = source ->
  source = "imdb" \/ source = "bangumi" ->
  memoryCache !! ("search-" +:+ source +:+ "-" +:+ keywords) = None ->
  let answer := Server.handle env now request memoryCache in
  Server.status (snd answer) = 200%Z ->
  exists items,
    obj_get "data" (record_sent (snd answer)) = VArr items
    /\ obj_get "success" (record_sent (snd answer)) = VBool false
    /\ fst (fst answer) !! ("search-" +:+ source +:+ "-" +:+ keywords)
       = Some (jsonify_object (record [("data", VArr items)]), (now + 172800000)%Z).
Proof.
  intros uri Hroot Hkey Hs Hdis Hsrc Hsource Hmiss answer. subst answer uri.
  rewrite (handle_miss env now request memoryCache
             ("search-" +:+ source +:+ "-" +:+ keywords)
             (Server.dispatch_search source keywords))
    by (try done; unfold route; by rewrite Hs, Hdis, Hsrc).
  assert (post (fun data => exists items, data = record [("data", VArr items)])
               (Server.dispatch_search source keywords)) as Hpost.
  { destruct Hsource as [-> | ->]; cbn [Server.dispatch_search].
    - change (post (fun data => exists items, data = record [("data", VArr items)])
                (Server.search_imdb keywords)).
      unfold Server.search_imdb. cbv zeta. repeat post_step. eauto.
    - change (post (fun data => exists items, data = record [("data", VArr items)])
                (Server.search_bangumi keywords)).
      unfold Server.search_bangumi. cbv zeta. repeat post_step. eauto. }
  destruct (Server.dispatch_search source keywords) as [sent [data|err]].
  - destruct (Hpost _ _ eq_refl) as [items ->]. intros _. exists items.
    unfold Server.respond, bind, ret.
    assert (truthy (obj_get "error" (record [("data", VArr items)])) = false) as He
      by reflexivity.
    rewrite He. cbn [negb fst snd].
    split; [reflexivity|]. split; [reflexivity|].
    unfold Server.PT_GEN_STORE_put. by rewrite lookup_insert_eq.
  - unfold Server.respond, bind. cbn. discriminate.
Qed.

End CacheRefresh.

Lemma cache_hit_refreshes_witness :
  let response_data := record [("success", VBool true); ("format", VStr "x")] in
  let memoryCache : gmap string (object * Z) :=
    {[ "info-douban-1" := (jsonify_object response_data, 10%Z) ]} in
  fst (fst (@Server.handle unsolvable bare_network plain_platform open_env 5
              (get_request "/?site=douban&sid=1") memoryCache))
  = <["info-" +:+ "douban" +:+ "-" +:+ "1"
      := (jsonify_object response_data, (5 + 172800000)%Z)]> memoryCache.
Proof.
  apply (@cache_hit_refreshes unsolvable bare_network plain_platform open_env 5
           (get_request "/?site=douban&sid=1")
           {[ "info-douban-1"
              := (jsonify_object (record [("success", VBool true); ("format", VStr "x")]),
                  10%Z) ]}
           "douban" "1" (record [("success", VBool true); ("format", VStr "x")]) 10%Z).
  - reflexivity.
  - reflexivity.
  - reflexivity.
  - reflexivity.
  - reflexivity.
  - reflexivity.
  - lia.
Defined.

Lemma search_answer_cached_witness :
  let answer :=
    @Server.handle unsolvable bare_network plain_platform open_env 0
      (get_request "/?search=x&source=bangumi") ∅ in
  exists items,
    obj_get "data" (record_sent (snd answer)) = VArr items
    /\ obj_get "success" (record_sent (snd answer)) = VBool false
    /\ fst (fst answer) !! ("search-" +:+ "bangumi" +:+ "-" +:+ "x")
       = Some (jsonify_object (record [("data", VArr items)]), (0 + 172800000)%Z).
Proof.
  apply (@search_answer_cached unsolvable bare_network plain_platform open_env 0
           (get_request "/?search=x&source=bangumi") ∅ "x" "bangumi").
  - reflexivity.
  - reflexivity.
  - reflexivity.
  - reflexivity.
  - reflexivity.
  - right. reflexivity.
  - reflexivity.
  - reflexivity.
Defined.

(** ** The challenge and the requests of a resolution *)


Section ServerChallenge.
Context `{Crypto} `{Network} `{Platform}.

Lemma server_challenge_cases (responseUrl responseText : string) :
  (exists r,
     Server.solveDoubanChallenge responseUrl responseText = ret r
     /\ Challenge.solved r = false /\ Challenge.text r = responseText
     /\ Challenge.cookies r = None
     /\ (is_gate responseText = true ->
         match_param "tok" responseText = None \/ match_param "cha" responseText = None))
  \/ Server.solveDoubanChallenge responseUrl responseText
     = throw (Error "Challenge timeout")
  \/ Server.solveDoubanChallenge responseUrl responseText
     = throw (TypeError "formData.append is not a function").
Proof.
  destruct (is_gate responseText) eqn:Hg.
  2:{ left. eexists. split; [by apply Server_not_gate|]. done. }
  destruct (match_param "tok" responseText) as [tok|] eqn:Htok.
  2:{ left. eexists. split; [apply Server_gate_missing; auto|]. cbn. auto. }
  destruct (match_param "cha" responseText) as [cha|] eqn:Hcha.
  2:{ left. eexists. split; [apply Server_gate_missing; auto|]. cbn. auto. }
  right.
  pose proof (Server_solveChallenge_search cha) as Hs.
  destruct (Server.solveChallenge cha 4) as [n|e] eqn:Hsol.
  - right. by apply (Server_gate_solved _ _ tok cha n).
  - left. apply search_throw in Hs as [-> _]. by apply (Server_gate_throw _ _ tok cha).
Qed.

Lemma server_challenge_silent responseUrl responseText :
  silent (Server.solveDoubanChallenge responseUrl responseText).
Proof.
  destruct (server_challenge_cases responseUrl responseText)
    as [(r & -> & _)|[-> | ->]]; done.
Qed.

Lemma server_challenge_unsolved responseUrl responseText r :
  outcome (Server.solveDoubanChallenge responseUrl responseText) = Ok r ->
  Challenge.solved r = false /\ Challenge.text r = responseText
  /\ Challenge.cookies r = None.
Proof.
  destruct (server_challenge_cases responseUrl responseText)
    as [(r' & -> & Hr)|[-> | ->]]; [|done..].
  intros [= <-]. tauto.
Qed.

(** X9. The server's copy of the challenge solver never sends a request and
    never reports a solved challenge: what it returns has [solved: false],
    the text it was given and no cookies; and on a gate page whose token and
    challenge can be extracted it always throws, with the time-out of the
    proof of work or, once that is solved, with the [TypeError] of
    [formData.append]. *)
Theorem server_challenge_never_posts (responseUrl responseText : string) :
  requests (Server.solveDoubanChallenge responseUrl responseText) = []
  /\ (forall r,
        outcome (Server.solveDoubanChallenge responseUrl responseText) = Ok r ->
        Challenge.solved r = false /\ Challenge.text r = responseText
        /\ Challenge.cookies r = None)
  /\ (is_gate responseText = true ->
      match_param "tok" responseText <> None ->
      match_param "cha" responseText <> None ->
      outcome (Server.solveDoubanChallenge responseUrl responseText)
      = Throw (Error "Challenge timeout")
      \/ outcome (Server.solveDoubanChallenge responseUrl responseText)
         = Throw (TypeError "formData.append is not a function")).
Proof.
  split; [apply server_challenge_silent|]. split; [apply server_challenge_unsolved|].
  intros Hg Htok Hcha.
  destruct (server_challenge_cases responseUrl responseText)
    as [(r & _ & _ & _ & _ & Hmissing)|[-> | ->]]; [|by left|by right].
  destruct (Hmissing Hg); congruence.
Qed.


End ServerChallenge.

Section LibChallenge.
Context `{Crypto} `{Network}.

(** X11. The copy in [src/lib/douban_challenge.js] sends at most two
    requests. It reports a solved challenge only after both: the first
    posts the form to [https://sec.douban.com/c], the answer carried a
    non-empty [set-cookie] header, the second went, with that cookie, to the
    [location] of the answer or else to the redirect address of the page,
    and the text returned is the text of its answer. Whenever it returns
    [solved: false] the text is the page it was given. *)
Theorem lib_challenge_requests (responseUrl responseText : string) :
  let m := Lib.solveDoubanChallenge responseUrl responseText in
  List.length (requests m) <= 2
  /\ (forall r,
        outcome m = Ok r -> Challenge.solved r = false ->
        Challenge.text r = responseText /\ Challenge.cookies r = None)
  /\ (forall r,
        outcome m = Ok r -> Challenge.solved r = true ->
        exists submit final submitResp finalResp c,
          requests m = [submit; final]
          /\ req_url submit = "https://sec.douban.com/c"
          /\ req_method submit = Some "POST"
          /\ send submit = Ok submitResp
          /\ nonempty (headers_get "set-cookie" (resp_headers submitResp)) = Some c
          /\ headers_get "Cookie" (req_headers final) = Some c
          /\ req_url final
             = default (default "https://movie.douban.com/" (match_param "red" responseText))
                 (nonempty (headers_get "location" (resp_headers submitResp)))
          /\ send final = Ok finalResp
          /\ Challenge.text r = resp_text finalResp
          /\ Challenge.cookies r = Some c).
Proof.
  intros m. assert (m = Lib.solveDoubanChallenge responseUrl responseText) as Hm
    by reflexivity.
  clearbody m. unfold Lib.solveDoubanChallenge in Hm.
  destruct (negb (JS.includes "process(cha)" responseText) || negb _) in Hm.
  { subst m. split; [cbn; lia|]. split; [by intros r [= <-]|]. by intros r [= <-]. }
  destruct (match_param "tok" responseText) as [tok|] in Hm.
  2:{ subst m. split; [cbn; lia|]. split; [by intros r [= <-]|]. by intros r [= <-]. }
  destruct (match_param "cha" responseText) as [cha|] in Hm.
  2:{ subst m. split; [cbn; lia|]. split; [by intros r [= <-]|]. by intros r [= <-]. }
  cbv zeta in Hm. destruct (Lib.solveChallenge cha 4) as [sol|e] in Hm.
  2:{ subst m. split; [cbn; lia|]. split; by intros r [=]. }
  unfold bind at 1 in Hm. unfold lift in Hm. cbn [app] in Hm.
  unfold bind at 1 in Hm. unfold fetch at 1 in Hm.
  match type of Hm with
  | context [send ?submit] => destruct (send submit) as [submitResp|e] eqn:Hsubmit
  end.
  2:{ subst m. split; [cbn; lia|]. split; by intros r [=]. }
  destruct (nonempty (headers_get "set-cookie" (resp_headers submitResp))) as [c|] eqn:Hc.
  2:{ subst m. split; [cbn; lia|]. split; [by intros r [= <-]|]. by intros r [= <-]. }
  unfold bind, fetch, ret in Hm.
  match type of Hm with
  | context [send ?final] => destruct (send final) as [finalResp|e] eqn:Hfinal
  end.
  2:{ subst m. split; [cbn; lia|]. split; by intros r [=]. }
  subst m. split; [cbn; lia|]. split; [by intros r [= <-]|]. intros r [= <-] _.
  do 5 eexists. split; [reflexivity|]. split; [reflexivity|]. split; [reflexivity|].
  split; [exact Hsubmit|]. split; [exact Hc|]. split; [reflexivity|].
  split; [|split; [exact Hfinal|split; reflexivity]].
  cbn [req_url]. destruct (nonempty (headers_get "location" (resp_headers submitResp)));
    [reflexivity|]. cbn [default]. by destruct (match_param "red" responseText).
Qed.

End LibChallenge.

(** ** Trimming *)

Lemma strip_prefix_app w l r : JS.strip_prefix w l = Some r -> l = w ++ r.
Proof.
  revert l. induction w as [|a w IH]; intros l.
  - cbn. by intros [= ->].
  - destruct l as [|b l]; cbn; [done|].
    destruct (Ascii.eqb_spec a b) as [->|]; [|done]. intros Hr. f_equal. by apply IH.
Qed.

Lemma strip_prefix_more w l r q :
  JS.strip_prefix w l = Some r -> JS.strip_prefix w (l ++ q) = Some (r ++ q).
Proof.
  revert l. induction w as [|a w IH]; intros l.
  - cbn. by intros [= ->].
  - destruct l as [|b l]; cbn; [done|]. destruct (Ascii.eqb a b); [|done]. apply IH.
Qed.

Lemma strip_one_app table l r :
  JS.strip_one table l = Some r -> exists w, In w table /\ l = w ++ r.
Proof.
  induction table as [|w t IH]; cbn; [done|].
  destruct (JS.strip_prefix w l) as [r'|] eqn:Hp.
  - intros [= <-]. exists w. split; [by left|]. by apply strip_prefix_app.
  - intros Hone. destruct (IH Hone) as (w' & Hin & Hl). exists w'. auto.
Qed.

Lemma strip_one_nil table :
  Forall (fun w => w <> []) table -> JS.strip_one table [] = None.
Proof.
  induction 1 as [|w t Hw _ IH]; cbn; [done|]. by destruct w.
Qed.

Lemma strip_one_shorter table l r :
  Forall (fun w => w <> []) table ->
  JS.strip_one table l = Some r -> List.length r < List.length l.
Proof.
  intros Hne Hone. destruct (strip_one_app _ _ _ Hone) as (w & Hin & ->).
  rewrite Forall_forall in Hne. specialize (Hne w Hin). rewrite length_app.
  destruct w; [done|]. cbn. lia.
Qed.

Lemma strip_one_more table l q :
  JS.strip_one table l <> None -> JS.strip_one table (l ++ q) <> None.
Proof.
  induction table as [|w t IH]; cbn; [done|].
  destruct (JS.strip_prefix w l) as [r|] eqn:Hp.
  - by rewrite (strip_prefix_more _ _ _ q Hp).
  - intros Hn. destruct (JS.strip_prefix w (l ++ q)); [done|]. by apply IH.
Qed.

Lemma strip_all_stable fuel table l :
  JS.strip_one table l = None -> JS.strip_all fuel table l = l.
Proof. destruct fuel; cbn; [done|]. by intros ->. Qed.

Lemma strip_all_normal fuel table l :
  Forall (fun w => w <> []) table ->
  List.length l <= fuel -> JS.strip_one table (JS.strip_all fuel table l) = None.
Proof.
  intros Hne. revert l. induction fuel as [|fuel IH]; intros l Hl.
  - destruct l; [|cbn in Hl; lia]. cbn. by apply strip_one_nil.
  - cbn. destruct (JS.strip_one table l) as [r|] eqn:Hone; [|done].
    apply IH. apply strip_one_shorter in Hone; [lia|done].
Qed.

Lemma strip_all_suffix fuel table l : exists p, l = p ++ JS.strip_all fuel table l.
Proof.
  revert l. induction fuel as [|fuel IH]; intros l; [by exists []|]. cbn.
  destruct (JS.strip_one table l) as [r|] eqn:Hone; [|by exists []].
  destruct (IH r) as [p Hp]. destruct (strip_one_app _ _ _ Hone) as (w & _ & ->).
  exists (w ++ p). by rewrite <- app_assoc, <- Hp.
Qed.

Lemma white_space_nonempty : Forall (fun w => w <> []) JS.white_space.
Proof. apply Forall_forall. intros w Hw. cbn in Hw. intuition (by subst). Qed.

Lemma white_space_rev_nonempty : Forall (fun w => w <> []) (map (@rev ascii) JS.white_space).
Proof. apply Forall_forall. intros w Hw. cbn in Hw. intuition (by subst). Qed.

Lemma trim_bytes_stable l :
  let t := JS.trimEnd_bytes (JS.trimStart_bytes l) in
  JS.trimStart_bytes t = t /\ JS.trimEnd_bytes t = t.
Proof.
  intros t. set (s := JS.trimStart_bytes l) in *.
  assert (JS.strip_one JS.white_space s = None) as Hlead.
  { apply strip_all_normal; [apply white_space_nonempty|done]. }
  assert (JS.strip_one (map (@rev ascii) JS.white_space) (rev t) = None) as Htrail.
  { subst t. unfold JS.trimEnd_bytes. rewrite rev_involutive.
    apply strip_all_normal; [apply white_space_rev_nonempty|]. by rewrite length_rev. }
  split.
  - apply strip_all_stable.
    destruct (strip_all_suffix (List.length s) (map (@rev ascii) JS.white_space) (rev s))
      as [p Hp].
    assert (s = t ++ rev p) as Hs.
    { subst t. unfold JS.trimEnd_bytes. rewrite <- rev_app_distr, <- Hp.
      by rewrite rev_involutive. }
    destruct (JS.strip_one JS.white_space t) eqn:Hone; [|done].
    exfalso. apply (strip_one_more JS.white_space t (rev p)); [by rewrite Hone|].
    by rewrite <- Hs.
  - unfold JS.trimEnd_bytes at 1. rewrite strip_all_stable by done. apply rev_involutive.
Qed.

Lemma trim_idempotent s : JS.trim (JS.trim s) = JS.trim s.
Proof.
  unfold JS.trim. rewrite list_ascii_of_string_of_list_ascii.
  destruct (trim_bytes_stable (list_ascii_of_string s)) as [Hs He].
  cbv zeta in Hs, He. by rewrite Hs, He.
Qed.

(** ** The records of the generators *)

Lemma post_bind_lift {A B} (P : B -> Prop) (r : result A) (f : A -> M B) :
  (forall a, r = Ok a -> post P (f a)) -> post P (let* x := lift r in f x).
Proof.
  intros Hf sent b. unfold bind, lift. destruct r as [a|e]; [|discriminate].
  destruct (f a) as [l' r'] eqn:Hfa. intros [= _ ->]. by eapply (Hf a).
Qed.

Lemma post_outcome {A} (P : A -> Prop) (m : M A) :
  post P m -> match outcome m with Ok a => P a | Throw _ => True end.
Proof. intros Hm. destruct m as [l [a|e]]; cbn; [|done]. by eapply Hm. Qed.

Lemma post_impl {A} (P Q : A -> Prop) (m : M A) :
  (forall a, P a -> Q a) -> post P m -> post Q m.
Proof. intros HPQ Hm sent a Ha. by eapply HPQ, Hm. Qed.

Section Records.
Context `{Crypto} `{Network} `{Platform}.

Lemma format_douban_trimmed poster trans_title this_title year region genre language
    playdate imdb_rating imdb_link douban_rating douban_link episodes duration director
    writer cast tags introduction descr :
  Server.format_douban poster trans_title this_title year region genre language playdate
    imdb_rating imdb_link douban_rating douban_link episodes duration director writer cast
    tags introduction = Ok descr ->
  JS.trim descr = descr.
Proof.
  unfold Server.format_douban. cbv zeta.
  repeat match goal with
         | |- match ?x with _ => _ end = _ -> _ => destruct x; [|discriminate]
         end.
  intros [= <-]. apply trim_idempotent.
Qed.

Ltac record_step :=
  lazymatch goal with
  | |- post _ (bind (lift (Server.format_douban _ _ _ _ _ _ _ _ _ _ _ _ _ _ _ _ _ _ _)) _) =>
      apply post_bind_lift; intros ? ?
  | |- post _ (bind _ _) => apply post_bind; intros ?
  | |- post _ (ret _) => apply post_ret
  | |- post _ (throw _) => apply post_throw
  | |- post _ (if ?c then _ else _) => destruct c
  | |- post _ (match ?x with _ => _ end) => destruct x
  end.

Ltac split_truthy :=
  repeat match goal with
         | |- context [if truthy ?v then _ else _] => destruct (truthy v)
         end.

(** X12. Every record that a generator returns, one with an error as much
    as a successful one, carries the name of the site and the subject id as
    it was given: [gen_imdb] keeps the id as typed, not the padded one. *)
Theorem record_echoes_subject (site sid : string) :
  In site SITES ->
  match outcome (Server.dispatch_generate site sid) with
  | Ok data => obj_get "site" data = VStr site /\ obj_get "sid" data = VStr sid
  | Throw _ => True
  end.
Proof.
  intros Hsite. unfold SITES in Hsite. cbn [In] in Hsite.
  apply (post_outcome
           (fun data => obj_get "site" data = VStr site /\ obj_get "sid" data = VStr sid)).
  destruct Hsite as [<-|[<-|[<-|[<-|[<-|[<-|[]]]]]]]; cbn [Server.dispatch_generate].
  - change (post (fun data => obj_get "site" data = VStr "douban" /\ obj_get "sid" data = VStr sid)
              (Server.gen_douban sid)).
    unfold Server.gen_douban. cbv zeta. repeat record_step. all: split; reflexivity.
  - change (post (fun data => obj_get "site" data = VStr "imdb" /\ obj_get "sid" data = VStr sid)
              (Server.gen_imdb sid)).
    unfold Server.gen_imdb. cbv zeta. repeat record_step. all: split_truthy; split; reflexivity.
  - change (post (fun data => obj_get "site" data = VStr "bangumi" /\ obj_get "sid" data = VStr sid)
              (Server.gen_bangumi sid)).
    unfold Server.gen_bangumi. cbv zeta. repeat record_step. all: split; reflexivity.
  - change (post (fun data => obj_get "site" data = VStr "steam" /\ obj_get "sid" data = VStr sid)
              (Server.gen_steam sid)).
    unfold Server.gen_steam. cbv zeta. repeat record_step. all: split; reflexivity.
  - change (post (fun data => obj_get "site" data = VStr "indienova"
                              /\ obj_get "sid" data = VStr sid)
              (Server.gen_indienova sid)).
    unfold Server.gen_indienova. cbv zeta. repeat record_step. all: split; reflexivity.
  - change (post (fun data => obj_get "site" data = VStr "epic" /\ obj_get "sid" data = VStr sid)
              (Server.gen_epic sid)).
    unfold Server.gen_epic. cbv zeta. repeat record_step. all: split; reflexivity.
Qed.

(** X13. The description of every successful record is a trimmed string:
    trimming it again changes nothing, for each of the six generators. *)
Theorem format_is_trimmed (site sid : string) :
  In site SITES ->
  match outcome (Server.dispatch_generate site sid) with
  | Ok data =>
      obj_get "success" data = VBool true ->
      exists format, obj_get "format" data = VStr format /\ JS.trim format = format
  | Throw _ => True
  end.
Proof.
  intros Hsite. unfold SITES in Hsite. cbn [In] in Hsite.
  apply (post_outcome
           (fun data => obj_get "success" data = VBool true ->
                        exists format,
                          obj_get "format" data = VStr format /\ JS.trim format = format)).
  destruct Hsite as [<-|[<-|[<-|[<-|[<-|[<-|[]]]]]]]; cbn [Server.dispatch_generate].
  - change (post (fun data => obj_get "success" data = VBool true ->
                              exists format,
                                obj_get "format" data = VStr format /\ JS.trim format = format)
              (Server.gen_douban sid)).
    unfold Server.gen_douban. cbv zeta. repeat record_step.
    all: try (intros Hs; discriminate Hs).
    all: intros _; eexists; split; [reflexivity|]; by eapply format_douban_trimmed.
  - change (post (fun data => obj_get "success" data = VBool true ->
                              exists format,
                                obj_get "format" data = VStr format /\ JS.trim format = format)
              (Server.gen_imdb sid)).
    unfold Server.gen_imdb. cbv zeta. repeat record_step.
    all: try (intros Hs; discriminate Hs).
    all: intros _; split_truthy; eexists; (split; [reflexivity|]); apply trim_idempotent.
  - change (post (fun data => obj_get "success" data = VBool true ->
                              exists format,
                                obj_get "format" data = VStr format /\ JS.trim format = format)
              (Server.gen_bangumi sid)).
    unfold Server.gen_bangumi. cbv zeta. repeat record_step.
    all: try (intros Hs; discriminate Hs).
    all: intros _; split_truthy; eexists; (split; [reflexivity|]); apply trim_idempotent.
  - change (post (fun data => obj_get "success" data = VBool true ->
                              exists format,
                                obj_get "format" data = VStr format /\ JS.trim format = format)
              (Server.gen_steam sid)).
    unfold Server.gen_steam. cbv zeta. repeat record_step.
    all: try (intros Hs; discriminate Hs).
    all: intros _; split_truthy; eexists; (split; [reflexivity|]); apply trim_idempotent.
  - change (post (fun data => obj_get "success" data = VBool true ->
                              exists format,
                                obj_get "format" data = VStr format /\ JS.trim format = format)
              (Server.gen_indienova sid)).
    unfold Server.gen_indienova. cbv zeta. repeat record_step.
    all: try (intros Hs; discriminate Hs).
    all: intros _; split_truthy; eexists; (split; [reflexivity|]); apply trim_idempotent.
  - change (post (fun data => obj_get "success" data = VBool true ->
                              exists format,
                                obj_get "format" data = VStr format /\ JS.trim format = format)
              (Server.gen_epic sid)).
    unfold Server.gen_epic. cbv zeta. repeat record_step.
    all: try (intros Hs; discriminate Hs).
    all: intros _; split_truthy; eexists; (split; [reflexivity|]); apply trim_idempotent.
Qed.

End Records.

(** ** Subjects that the site does not have *)

Section NotFound.
Context `{Crypto} `{Network} `{Platform}.

Lemma missing_record site sid :
  spread (record [("site", VStr site); ("sid", VStr sid)])
         (record [("error", VStr Server.NONE_EXIST_ERROR)])
  = record [("site", VStr site); ("sid", VStr sid);
            ("error", VStr Server.NONE_EXIST_ERROR)].
Proof. reflexivity. Qed.

Lemma dispatch_generate_not_found resp site sid :
  (forall r, send r = Ok resp) ->
  not_found site resp = true ->
  exists r,
    Server.dispatch_generate site sid
    = ([r], Ok (record [("site", VStr site); ("sid", VStr sid);
                        ("error", VStr Server.NONE_EXIST_ERROR)])).
Proof.
  intros Hsend. unfold not_found, Server.dispatch_generate.
  destruct (String.eqb_spec site "douban") as [->|_].
  { intros [Hgate Hmarker]%andb_prop. apply negb_true_iff in Hgate.
    eexists. unfold Server.gen_douban. cbv zeta. unfold bind at 1. unfold fetch.
    rewrite Hsend.
    assert (forall url, Server.solveDoubanChallenge url (resp_text resp)
                        = ret (not_a_gate (resp_text resp))
                        \/ Server.solveDoubanChallenge url (resp_text resp)
                           = ret {| Challenge.solved := false;
                                    Challenge.text := resp_text resp;
                                    Challenge.error :=
                                      Some "Could not extract challenge parameters";
                                    Challenge.cookies := None |}) as Hc.
    { intros url. destruct (is_gate (resp_text resp)) eqn:Hg.
      - right. apply Server_gate_missing; [done|]. cbn [andb] in Hgate.
        destruct (match_param "tok" (resp_text resp)); [|by left].
        destruct (match_param "cha" (resp_text resp)); [done|by right].
      - left. by apply Server_not_gate. }
    match goal with
    | |- context [Server.solveDoubanChallenge ?url _] => destruct (Hc url) as [-> | ->]
    end; unfold bind, ret, not_a_gate; cbn [Challenge.solved fst snd app];
      rewrite Hmarker; by rewrite missing_record. }
  destruct (String.eqb_spec site "imdb") as [->|_].
  { intros Hmarker. eexists. unfold Server.gen_imdb. cbv zeta. unfold bind, fetch.
    rewrite Hsend, Hmarker. unfold ret. cbn [app]. by rewrite missing_record. }
  destruct (String.eqb_spec site "bangumi") as [->|_].
  { intros Hmarker. eexists. unfold Server.gen_bangumi. cbv zeta. unfold bind, fetch.
    rewrite Hsend, Hmarker. unfold ret. cbn [app]. by rewrite missing_record. }
  destruct (String.eqb_spec site "steam") as [->|_].
  { intros Hstatus. eexists. unfold Server.gen_steam. cbv zeta. unfold bind, fetch.
    rewrite Hsend, Hstatus. unfold ret. cbn [app]. by rewrite missing_record. }
  destruct (String.eqb_spec site "indienova") as [->|_].
  { intros Hmarker. eexists. unfold Server.gen_indienova. cbv zeta. unfold bind, fetch.
    rewrite Hsend, Hmarker. unfold ret. cbn [app]. by rewrite missing_record. }
  destruct (String.eqb_spec site "epic") as [->|_]; [|done].
  intros Hstatus. eexists. unfold Server.gen_epic. cbv zeta. unfold bind at 1. unfold fetch.
  rewrite Hsend, Hstatus. unfold ret. cbn [app]. by rewrite missing_record.
Qed.

Context (env : Server.Env) (now : Z) (request : Server.Request).
Context (memoryCache : gmap string (object * Z)).

(** X14. When the site answers that it has no such subject (by the marker
    in its page for Douban, IMDb, Bangumi and Indienova, by the status 302
    for Steam and 404 for Epic), the generate request is answered with
    status 200 and the record of the site, the subject id and the error "The
    corresponding resource does not exist."; one request has been sent and
    nothing is written to the cache. *)
Theorem subject_not_found (resp : response) (site sid : string) :
  let uri := url_parse (Server.url request) in
  (forall r, send r = Ok resp) ->
  (String.eqb (pathname uri) "/" && String.eqb (search uri) "") = false ->
  Server.apikey_missing env uri = false ->
  Server.query_get "search" uri = None ->
  Server.subject_of uri = (Some site, Some sid) ->
  not_found site resp = true ->
  memoryCache !! ("info-" +:+ site +:+ "-" +:+ sid) = None ->
  exists r,
    Server.handle env now request memoryCache
    = (memoryCache, [r],
       Server.makeJsonResponse env now
         (record [("site", VStr site); ("sid", VStr sid);
                  ("error", VStr Server.NONE_EXIST_ERROR)]) 200).
Proof.
  intros uri Hsend Hroot Hkey Hs Hsub Hnf Hmiss. subst uri.
  destruct (dispatch_generate_not_found resp site sid Hsend Hnf) as [r Hr].
  exists r.
  rewrite (handle_miss env now request memoryCache ("info-" +:+ site +:+ "-" +:+ sid)
             (Server.dispatch_generate site sid))
    by (try done; unfold route; by rewrite Hs, Hsub).
  rewrite Hr. unfold Server.respond, bind, ret. cbn [app]. reflexivity.
Qed.

End NotFound.

Lemma subject_not_found_witness :
  exists r,
    @Server.handle unsolvable (page_network 302 "") plain_platform open_env 0
      (get_request "/?site=steam&sid=10") ∅
    = (∅, [r],
       Server.makeJsonResponse open_env 0
         (record [("site", VStr "steam"); ("sid", VStr "10");
                  ("error", VStr Server.NONE_EXIST_ERROR)]) 200).
Proof.
  apply (@subject_not_found unsolvable (page_network 302 "") plain_platform open_env 0
           (get_request "/?site=steam&sid=10") ∅
           {| resp_status := 302; resp_url := None; resp_headers := []; resp_text := "" |}
           "steam" "10"); reflexivity.
Defined.

Lemma record_echoes_subject_witness :
  match outcome (@Server.dispatch_generate unsolvable bare_network plain_platform
                   "imdb" "tt42") with
  | Ok data => obj_get "site" data = VStr "imdb" /\ obj_get "sid" data = VStr "tt42"
  | Throw _ => True
  end.
Proof.
  apply (@record_echoes_subject unsolvable bare_network plain_platform "imdb" "tt42").
  right. left. reflexivity.
Defined.

Lemma format_is_trimmed_witness :
  match outcome (@Server.dispatch_generate unsolvable bare_network plain_platform
                   "steam" "10") with
  | Ok data =>
      obj_get "success" data = VBool true ->
      exists format, obj_get "format" data = VStr format /\ JS.trim format = format
  | Throw _ => True
  end.
Proof.
  apply (@format_is_trimmed unsolvable bare_network plain_platform "steam" "10").
  do 3 right. left. reflexivity.
Defined.

(** ** Recognising the address of a subject *)

Section Repetition.
Context (p : ascii -> bool).

Lemma star_chr_step c s caps k :
  p c = true ->
  Regex.rmatch (Regex.Star (Regex.Chr p)) (String c s) caps k
  = match Regex.rmatch (Regex.Star (Regex.Chr p)) s caps k with
    | Some x => Some x
    | None => k (String c s) caps
    end.
Proof.
  intros Hc. cbn -[Nat.ltb]. rewrite Hc.
  assert (Nat.ltb (String.length s) (S (String.length s)) = true) as ->
    by (apply Nat.ltb_lt; lia).
  reflexivity.
Qed.

Lemma star_chr_stop s caps k :
  match s with String c _ => p c = false | EmptyString => True end ->
  Regex.rmatch (Regex.Star (Regex.Chr p)) s caps k = k s caps.
Proof.
  destruct s as [|c s]; [done|]. intros Hc. cbn -[Nat.ltb]. by rewrite Hc.
Qed.

(** A greedy repetition takes the whole run of characters satisfying [p]
    when what follows the pattern matches after it. *)
Lemma star_chr_greedy run rest caps k x :
  forallb p (list_ascii_of_string run) = true ->
  match rest with String c _ => p c = false | EmptyString => True end ->
  k rest caps = Some x ->
  Regex.rmatch (Regex.Star (Regex.Chr p)) (run +:+ rest) caps k = Some x.
Proof.
  intros Hrun Hrest Hk. induction run as [|c run IH].
  - rewrite append_nil, star_chr_stop; done.
  - cbn [list_ascii_of_string forallb] in Hrun. apply andb_prop in Hrun as [Hc Hrun].
    rewrite append_cons, star_chr_step by done. by rewrite IH.
Qed.

Lemma plus_chr_greedy run rest caps k x :
  run <> "" ->
  forallb p (list_ascii_of_string run) = true ->
  match rest with String c _ => p c = false | EmptyString => True end ->
  k rest caps = Some x ->
  Regex.rmatch (Regex.plus (Regex.Chr p)) (run +:+ rest) caps k = Some x.
Proof.
  intros Hne Hrun Hrest Hk. destruct run as [|c run]; [done|].
  cbn [list_ascii_of_string forallb] in Hrun. apply andb_prop in Hrun as [Hc Hrun].
  rewrite append_cons. unfold Regex.plus. cbn [Regex.rmatch Regex.Chr]. rewrite Hc.
  by apply star_chr_greedy.
Qed.

End Repetition.

Lemma take_app_length run rest :
  JS.take (String.length (run +:+ rest) - String.length rest) (run +:+ rest) = run.
Proof.
  rewrite length_append. replace (String.length run + String.length rest
                                  - String.length rest) with (String.length run) by lia.
  induction run as [|c run IH]; [by destruct rest|]. rewrite append_cons. cbn. by rewrite IH.
Qed.

Lemma no_leading_digit_spec rest :
  no_leading_digit rest = true ->
  match rest with String c _ => Regex.is_digit c = false | EmptyString => True end.
Proof. destruct rest; [done|]. cbn. by intros ->%negb_true_iff. Qed.

(** The group of digits of a subject address, followed by whatever the
    pattern allows after it. *)
Lemma digits_group digits rest caps k x :
  digits <> "" -> all_digits digits = true -> no_leading_digit rest = true ->
  k rest ((1, digits) :: caps) = Some x ->
  Regex.rmatch (Regex.Group 1 (Regex.plus Regex.digit)) (digits +:+ rest) caps k = Some x.
Proof.
  intros Hne Hd Hrest Hk. cbn [Regex.rmatch]. unfold Regex.digit.
  apply plus_chr_greedy; [done|done|by apply no_leading_digit_spec|].
  by rewrite take_app_length.
Qed.

Lemma exec_here r s c :
  Regex.rmatch r s [] (fun _ c => Some c) = Some c -> Regex.exec r s = Some c.
Proof. intros Hm. destruct s; cbn; by rewrite Hm. Qed.

Lemma digits_then_slash digits rest caps :
  digits <> "" -> all_digits digits = true -> no_leading_digit rest = true ->
  Regex.rmatch (Regex.Seq (Regex.Group 1 (Regex.plus Regex.digit)) Server.trailing_slash)
    (digits +:+ rest) caps (fun _ c => Some c)
  = Some ((1, digits) :: caps).
Proof.
  intros Hne Hd Hrest.
  apply (digits_group digits rest caps
           (fun s' caps' => Regex.rmatch Server.trailing_slash s' caps' (fun _ c => Some c)));
    [done..|].
  destruct rest as [|c rest]; [reflexivity|]. cbn -[Ascii.eqb].
  by destruct (Ascii.eqb _ c).
Qed.

(** The pattern of one site on an address made of a fixed beginning, the
    digits and the rest. *)
Ltac match_digits_address digits rest :=
  apply exec_here; cbn [Regex.seq];
  let tail := fresh "tail" in
  let Htail := fresh "Htail" in
  match goal with
  | |- context [Regex.Seq (Regex.Group 1 (Regex.plus Regex.digit)) Server.trailing_slash] =>
      set (tail := Regex.Seq (Regex.Group 1 (Regex.plus Regex.digit)) Server.trailing_slash)
  end;
  assert (forall caps, Regex.rmatch tail (digits +:+ rest) caps (fun _ c => Some c)
                       = Some ((1, digits) :: caps)) as Htail
    by (intros caps; by apply digits_then_slash);
  clearbody tail; repeat (rewrite append_cons || rewrite append_nil);
  cbn -[String.append];
  rewrite Htail; reflexivity.

(** X15. An address of a Douban subject is recognised whatever comes after
    the number: for each of the eighteen beginnings that the pattern allows,
    a non-empty run of digits and a rest that does not go on with a digit,
    [identify] gives the site "douban" and the digits as the subject id. *)
Theorem identify_douban (prefix digits rest : string) :
  In prefix douban_prefixes ->
  digits <> "" -> all_digits digits = true -> no_leading_digit rest = true ->
  Server.identify Server.support_list (prefix +:+ digits +:+ rest)
  = Some ("douban", digits).
Proof.
  intros Hin Hne Hd Hrest.
  assert (Regex.exec (Regex.seq [Server.scheme;
               Regex.opt (Regex.Seq (Regex.Alt (Regex.lit "movie") (Regex.lit "www"))
                                    (Regex.lit "."));
               Regex.lit "douban.com/";
               Regex.Alt (Regex.lit "subject") (Regex.lit "movie");
               Regex.lit "/"; Regex.Group 1 (Regex.plus Regex.digit);
               Server.trailing_slash]) (prefix +:+ digits +:+ rest)
          = Some [(1, digits)]) as Hexec.
  { unfold douban_prefixes in Hin. cbn [flat_map map app] in Hin.
    repeat (destruct Hin as [<-|Hin]; [match_digits_address digits rest|]). destruct Hin. }
  unfold Server.support_list. cbn [Server.identify]. by rewrite Hexec.
Qed.

Lemma identify_douban_witness :
  Server.identify Server.support_list
    ("https://movie.douban.com/subject/" +:+ "1292052" +:+ "/?from=showing")
  = Some ("douban", "1292052").
Proof.
  apply (identify_douban "https://movie.douban.com/subject/" "1292052" "/?from=showing").
  - left. reflexivity.
  - discriminate.
  - reflexivity.
  - reflexivity.
Defined.

Lemma exec_cons r c s :
  Regex.exec r (String c s)
  = match Regex.rmatch r (String c s) [] (fun _ c => Some c) with
    | Some x => Some x
    | None => Regex.exec r s
    end.
Proof. reflexivity. Qed.

Lemma eqb_letter_digit c0 c :
  Regex.is_digit c = true -> Regex.is_digit c0 = false -> Ascii.eqb c0 c = false.
Proof. intros Hc Hc0. destruct (Ascii.eqb_spec c0 c) as [->|]; congruence. Qed.

Lemma exec_skip_digits pat digits rest :
  (forall c s, Regex.is_digit c = true ->
               Regex.rmatch pat (String c s) [] (fun _ c => Some c) = None) ->
  all_digits digits = true ->
  Regex.exec pat (digits +:+ rest) = Regex.exec pat rest.
Proof.
  intros Hfirst. unfold all_digits. induction digits as [|c digits IH]; [by rewrite append_nil|].
  cbn [list_ascii_of_string forallb]. intros [Hc Hd]%andb_prop.
  rewrite append_cons, exec_cons, Hfirst by done. by apply IH.
Qed.

Ltac first_is_digit :=
  let c := fresh "c" in
  let s := fresh "s" in
  let Hc := fresh "Hc" in
  intros c s Hc; cbn -[Ascii.eqb];
  rewrite ?(eqb_letter_digit _ c Hc) by reflexivity; reflexivity.

Lemma douban_not_at_digit c s :
  Regex.is_digit c = true ->
  Regex.rmatch (Regex.seq [Server.scheme;
               Regex.opt (Regex.Seq (Regex.Alt (Regex.lit "movie") (Regex.lit "www"))
                                    (Regex.lit "."));
               Regex.lit "douban.com/";
               Regex.Alt (Regex.lit "subject") (Regex.lit "movie");
               Regex.lit "/"; Regex.Group 1 (Regex.plus Regex.digit);
               Server.trailing_slash]) (String c s) [] (fun _ c => Some c) = None.
Proof. revert c s. first_is_digit. Qed.

Lemma imdb_not_at_digit c s :
  Regex.is_digit c = true ->
  Regex.rmatch (Regex.seq [Server.scheme; Regex.opt (Regex.lit "www.");
                           Regex.lit "imdb.com/title/";
               Regex.Group 1 (Regex.Seq (Regex.lit "tt") (Regex.plus Regex.digit));
               Server.trailing_slash]) (String c s) [] (fun _ c => Some c) = None.
Proof. revert c s. first_is_digit. Qed.

Lemma bangumi_not_at_digit c s :
  Regex.is_digit c = true ->
  Regex.rmatch (Regex.seq [Server.scheme;
               Regex.Alt (Regex.lit "bgm.tv")
                 (Regex.Alt (Regex.lit "bangumi.tv") (Regex.lit "chii.in"));
               Regex.lit "/subject/"; Regex.Group 1 (Regex.plus Regex.digit);
               Server.trailing_slash]) (String c s) [] (fun _ c => Some c) = None.
Proof. revert c s. first_is_digit. Qed.

Lemma tt_digits_then_slash digits rest caps :
  digits <> "" -> all_digits digits = true -> no_leading_digit rest = true ->
  Regex.rmatch
    (Regex.Seq (Regex.Group 1 (Regex.Seq (Regex.lit "tt") (Regex.plus Regex.digit)))
               Server.trailing_slash)
    (String "t" (String "t" (digits +:+ rest))) caps (fun _ c => Some c)
  = Some ((1, "tt" +:+ digits) :: caps).
Proof.
  intros Hne Hd Hrest.
  change (Regex.rmatch (Regex.plus Regex.digit) (digits +:+ rest) caps
            (fun s' caps' =>
               Regex.rmatch Server.trailing_slash s'
                 ((1, JS.take (String.length (String "t" (String "t" (digits +:+ rest)))
                               - String.length s')
                        (String "t" (String "t" (digits +:+ rest)))) :: caps')
                 (fun _ c => Some c))
          = Some ((1, "tt" +:+ digits) :: caps)).
  unfold Regex.digit.
  apply plus_chr_greedy; [done|done|by apply no_leading_digit_spec|].
  assert (JS.take (String.length (String "t" (String "t" (digits +:+ rest)))
                   - String.length rest) (String "t" (String "t" (digits +:+ rest)))
          = "tt" +:+ digits) as ->.
  { replace (String "t" (String "t" (digits +:+ rest))) with (("tt" +:+ digits) +:+ rest)
      by (by repeat (rewrite append_cons || rewrite append_nil)).
    apply take_app_length. }
  destruct rest as [|c rest]; [reflexivity|]. cbn -[Ascii.eqb String.append].
  by destruct (Ascii.eqb _ c).
Qed.

Section Identify.
Context (digits rest : string).
Hypothesis digits_nonempty : digits <> "".
Hypothesis digits_ok : all_digits digits = true.
Hypothesis rest_ok : no_leading_digit rest = true.
Hypothesis rest_plain : Server.identify Server.support_list rest = None.

Lemma rest_not_douban :
  Regex.exec (Regex.seq [Server.scheme;
               Regex.opt (Regex.Seq (Regex.Alt (Regex.lit "movie") (Regex.lit "www"))
                                    (Regex.lit "."));
               Regex.lit "douban.com/";
               Regex.Alt (Regex.lit "subject") (Regex.lit "movie");
               Regex.lit "/"; Regex.Group 1 (Regex.plus Regex.digit);
               Server.trailing_slash]) rest = None.
Proof.
  clear -rest_plain. unfold Server.support_list in rest_plain.
  cbn [Server.identify] in rest_plain.
  by destruct (Regex.exec _ rest).
Qed.

Lemma rest_not_imdb :
  Regex.exec (Regex.seq [Server.scheme; Regex.opt (Regex.lit "www.");
                         Regex.lit "imdb.com/title/";
               Regex.Group 1 (Regex.Seq (Regex.lit "tt") (Regex.plus Regex.digit));
               Server.trailing_slash]) rest = None.
Proof.
  clear -rest_plain. unfold Server.support_list in rest_plain.
  cbn [Server.identify] in rest_plain.
  destruct (Regex.exec _ rest); [done|]. by destruct (Regex.exec _ rest).
Qed.

Lemma rest_not_bangumi :
  Regex.exec (Regex.seq [Server.scheme;
               Regex.Alt (Regex.lit "bgm.tv")
                 (Regex.Alt (Regex.lit "bangumi.tv") (Regex.lit "chii.in"));
               Regex.lit "/subject/"; Regex.Group 1 (Regex.plus Regex.digit);
               Server.trailing_slash]) rest = None.
Proof.
  clear -rest_plain. unfold Server.support_list in rest_plain.
  cbn [Server.identify] in rest_plain.
  destruct (Regex.exec _ rest); [done|]. destruct (Regex.exec _ rest); [done|].
  by destruct (Regex.exec _ rest).
Qed.

(** An earlier pattern finds nothing in the address: not in its beginning,
    not at a digit, not in the rest. *)
Ltac not_earlier not_at_digit not_in_rest :=
  repeat (rewrite append_cons || rewrite append_nil);
  let pat := fresh "pat" in
  set (pat := Regex.seq _);
  repeat (rewrite exec_cons; cbn -[String.append Regex.exec]);
  change (Regex.exec pat (digits +:+ rest) = None);
  subst pat; rewrite exec_skip_digits by (exact not_at_digit || exact digits_ok);
  exact not_in_rest.

Ltac here_numbered :=
  apply exec_here; cbn [Regex.seq];
  let tail := fresh "tail" in
  let Htail := fresh "Htail" in
  set (tail := Regex.Seq (Regex.Group 1 (Regex.plus Regex.digit)) Server.trailing_slash);
  assert (forall caps, Regex.rmatch tail (digits +:+ rest) caps (fun _ c => Some c)
                       = Some ((1, digits) :: caps)) as Htail
    by (intros caps; by apply digits_then_slash);
  clearbody tail; repeat (rewrite append_cons || rewrite append_nil);
  cbn -[String.append];
  rewrite Htail; reflexivity.

Ltac here_imdb :=
  apply exec_here; cbn [Regex.seq];
  let tail := fresh "tail" in
  let Htail := fresh "Htail" in
  set (tail := Regex.Seq (Regex.Group 1 (Regex.Seq (Regex.lit "tt") (Regex.plus Regex.digit)))
                         Server.trailing_slash);
  assert (forall caps, Regex.rmatch tail (String "t" (String "t" (digits +:+ rest))) caps
                         (fun _ c => Some c)
                       = Some ((1, "tt" +:+ digits) :: caps)) as Htail
    by (intros caps; by apply tt_digits_then_slash);
  clearbody tail; repeat (rewrite append_cons || rewrite append_nil);
  cbn -[String.append];
  rewrite Htail; reflexivity.

(** X16. An address of an IMDb title, a Bangumi subject or a Steam
    application is recognised as such: the beginning of the address, the
    letters [tt] for IMDb, a non-empty run of digits, and a rest that does
    not go on with a digit and holds no address itself, give the site and
    the subject id, [tt] included for IMDb. *)
Theorem identify_numbered (site prefix lead : string) :
  In (site, prefix, lead) numbered_addresses ->
  Server.identify Server.support_list (prefix +:+ lead +:+ digits +:+ rest)
  = Some (site, lead +:+ digits).
Proof.
  intros Hin. unfold numbered_addresses in Hin. cbn [In] in Hin.
  unfold Server.support_list. cbn [Server.identify].
  destruct Hin as [[= <- <- <-]|[[= <- <- <-]|[[= <- <- <-]|[[= <- <- <-]|[[= <- <- <-]
                  |[[= <- <- <-]|[[= <- <- <-]|[]]]]]]]].
  - assert (Regex.exec _ _ = None) as -> by (not_earlier douban_not_at_digit rest_not_douban).
    assert (Regex.exec _ _ = Some [(1, "tt" +:+ digits)]) as -> by here_imdb. reflexivity.
  - assert (Regex.exec _ _ = None) as -> by (not_earlier douban_not_at_digit rest_not_douban).
    assert (Regex.exec _ _ = Some [(1, "tt" +:+ digits)]) as -> by here_imdb. reflexivity.
  - assert (Regex.exec _ _ = None) as -> by (not_earlier douban_not_at_digit rest_not_douban).
    assert (Regex.exec _ _ = None) as -> by (not_earlier imdb_not_at_digit rest_not_imdb).
    assert (Regex.exec _ _ = Some [(1, digits)]) as -> by here_numbered.
    by rewrite append_nil.
  - assert (Regex.exec _ _ = None) as -> by (not_earlier douban_not_at_digit rest_not_douban).
    assert (Regex.exec _ _ = None) as -> by (not_earlier imdb_not_at_digit rest_not_imdb).
    assert (Regex.exec _ _ = Some [(1, digits)]) as -> by here_numbered.
    by rewrite append_nil.
  - assert (Regex.exec _ _ = None) as -> by (not_earlier douban_not_at_digit rest_not_douban).
    assert (Regex.exec _ _ = None) as -> by (not_earlier imdb_not_at_digit rest_not_imdb).
    assert (Regex.exec _ _ = Some [(1, digits)]) as -> by here_numbered.
    by rewrite append_nil.
  - assert (Regex.exec _ _ = None) as -> by (not_earlier douban_not_at_digit rest_not_douban).
    assert (Regex.exec _ _ = None) as -> by (not_earlier imdb_not_at_digit rest_not_imdb).
    assert (Regex.exec _ _ = None) as -> by (not_earlier bangumi_not_at_digit rest_not_bangumi).
    assert (Regex.exec _ _ = Some [(1, digits)]) as -> by here_numbered.
    by rewrite append_nil.
  - assert (Regex.exec _ _ = None) as -> by (not_earlier douban_not_at_digit rest_not_douban).
    assert (Regex.exec _ _ = None) as -> by (not_earlier imdb_not_at_digit rest_not_imdb).
    assert (Regex.exec _ _ = None) as -> by (not_earlier bangumi_not_at_digit rest_not_bangumi).
    assert (Regex.exec _ _ = Some [(1, digits)]) as -> by here_numbered.
    by rewrite append_nil.
Qed.

End Identify.

(** ** The solver at any difficulty, and the hexadecimal rendering *)

Section AnyDifficulty.
Context `{Crypto}.
Context (cha : string) (difficulty : nat).

Lemma qualifies_spec n :
  qualifies cha difficulty n = true <-> leading_zeros difficulty (pow_digest cha n).
Proof. apply take_repeat_zeros. Qed.

Lemma search_any timeout :
  exists r,
    nonce_search (qualifies cha difficulty) timeout (S (N.to_nat NONCE_LIMIT)) 0 = Some r
    /\ (forall n,
          r = Ok n
          <-> (n <= 500000)%N
              /\ leading_zeros difficulty (pow_digest cha n)
              /\ forall m, (m < n)%N -> ~ leading_zeros difficulty (pow_digest cha m))
    /\ ((exists e, r = Throw e) ->
        r = Throw timeout
        /\ forall n, (n <= 500000)%N -> ~ leading_zeros difficulty (pow_digest cha n)).
Proof.
  destruct (nonce_search_terminates (qualifies cha difficulty) timeout
              (S (N.to_nat NONCE_LIMIT)) 0) as [r Hr]; [unfold NONCE_LIMIT; lia..|].
  exists r. split; [done|]. destruct r as [n0|e].
  - apply nonce_search_found in Hr as (Hn & Hq & Hbelow); [|unfold NONCE_LIMIT; lia].
    unfold NONCE_LIMIT in Hn. split; [|by intros [e [=]]].
    intros n. split.
    + intros [= <-]. split; [lia|]. split; [by apply qualifies_spec|].
      intros m Hm Hz. apply qualifies_spec in Hz. rewrite Hbelow in Hz by lia. done.
    + intros (Hle & Hz & Hmin). f_equal.
      destruct (N.lt_trichotomy n0 n) as [Hlt|[->|Hlt]]; [|done|].
      * apply Hmin in Hlt. by apply qualifies_spec in Hq.
      * apply qualifies_spec in Hz. rewrite Hbelow in Hz by lia. done.
  - apply nonce_search_timeout in Hr as [-> Hall]. unfold NONCE_LIMIT in Hall.
    assert (forall n, (n <= 500000)%N -> ~ leading_zeros difficulty (pow_digest cha n)) as Hno.
    { intros n Hn Hz. apply qualifies_spec in Hz. rewrite Hall in Hz by lia. done. }
    split; [|done]. intros n. split; [done|]. intros (Hle & Hz & _). by apply Hno in Hz.
Qed.

Lemma Server_solveChallenge_any :
  nonce_search (qualifies cha difficulty) (Error "Challenge timeout")
    (S (N.to_nat NONCE_LIMIT)) 0
  = Some (Server.solveChallenge cha difficulty).
Proof.
  destruct (search_any (Error "Challenge timeout")) as (r & Hr & _).
  unfold Server.solveChallenge, Server.run_solveChallenge.
  by rewrite Server_solve_loop_search, Hr.
Qed.

Lemma Lib_solveChallenge_any :
  nonce_search (qualifies cha difficulty)
    (Error "Challenge solution timeout - too many iterations") (S (N.to_nat NONCE_LIMIT)) 0
  = Some (Lib.solveChallenge cha difficulty).
Proof.
  destruct (search_any (Error "Challenge solution timeout - too many iterations"))
    as (r & Hr & _).
  unfold Lib.solveChallenge, Lib.run_solveChallenge.
  by rewrite Lib_solve_loop_search, Hr.
Qed.

(** X17. At any difficulty each copy of the solver returns the least nonce
    up to 500000 whose digest starts with that many zeros. So at difficulty
    0 it returns 0 for every challenge, and at a difficulty above the length
    of the digests it times out for every challenge. *)
Theorem solveChallenge_difficulty :
  (forall n,
     Server.solveChallenge cha difficulty = Ok n
     <-> (n <= 500000)%N
         /\ leading_zeros difficulty (pow_digest cha n)
         /\ forall m, (m < n)%N -> ~ leading_zeros difficulty (pow_digest cha m))
  /\ (forall n,
        Lib.solveChallenge cha difficulty = Ok n
        <-> Server.solveChallenge cha difficulty = Ok n)
  /\ (difficulty = 0 ->
      Server.solveChallenge cha difficulty = Ok 0%N
      /\ Lib.solveChallenge cha difficulty = Ok 0%N)
  /\ ((forall n, String.length (pow_digest cha n) < difficulty) ->
      Server.solveChallenge cha difficulty = Throw (Error "Challenge timeout")
      /\ Lib.solveChallenge cha difficulty
         = Throw (Error "Challenge solution timeout - too many iterations")).
Proof.
  destruct (search_any (Error "Challenge timeout")) as (rs & Hrs & Hsok & Hsthrow).
  destruct (search_any (Error "Challenge solution timeout - too many iterations"))
    as (rl & Hrl & Hlok & Hlthrow).
  rewrite Server_solveChallenge_any in Hrs. injection Hrs as <-.
  rewrite Lib_solveChallenge_any in Hrl. injection Hrl as <-.
  split; [exact Hsok|]. split; [intros n; by rewrite Hsok, Hlok|]. split.
  - intros Hd. assert (leading_zeros difficulty (pow_digest cha 0)) as Hz
      by (intros i Hi; lia).
    split; [apply Hsok|apply Hlok]; (split; [lia|]; split; [done|]; intros m Hm; lia).
  - intros Hshort.
    assert (forall n, ~ leading_zeros difficulty (pow_digest cha n)) as Hno.
    { intros n Hz. specialize (Hz (String.length (pow_digest cha n)) (Hshort n)).
      clear -Hz. revert Hz. generalize (pow_digest cha n). intros h.
      induction h as [|c h IH]; [done|]. exact IH. }
    split.
    + destruct (Server.solveChallenge cha difficulty) as [n|e].
      * destruct (proj1 (Hsok n) eq_refl) as (_ & Hz & _). by apply Hno in Hz.
      * apply Hsthrow. eauto.
    + destruct (Lib.solveChallenge cha difficulty) as [n|e].
      * destruct (proj1 (Hlok n) eq_refl) as (_ & Hz & _). by apply Hno in Hz.
      * apply Hlthrow. eauto.
Qed.

End AnyDifficulty.

Lemma digest_hex_length bytes :
  String.length (Server.digest_hex bytes) = 2 * List.length bytes.
Proof.
  unfold Server.digest_hex. induction bytes as [|b bytes IH]; [reflexivity|].
  cbn [fold_right List.length]. destruct b. cbn [Server.hex_byte String.length].
  rewrite IH. lia.
Qed.

Lemma nibble_char_hex b3 b2 b1 b0 :
  let c := Server.nibble_char b3 b2 b1 b0 in
  Regex.is_digit c = true
  \/ existsb (Ascii.eqb c) (list_ascii_of_string "abcdef") = true.
Proof. destruct b3, b2, b1, b0; cbn; auto. Qed.

(** X18. The rendering of the digest in [src/lib/douban_challenge.js], byte
    by byte with [toString(16)] and [padStart], is the hexadecimal digest of
    the server's copy: two characters per byte, each a digit or a lower-case
    letter from a to f. *)
Theorem hex_rendering (hashArray : list ascii) :
  Lib.hex_of_hashArray hashArray = Server.digest_hex hashArray
  /\ String.length (Lib.hex_of_hashArray hashArray) = 2 * List.length hashArray
  /\ Forall (fun c => Regex.is_digit c = true
                      \/ existsb (Ascii.eqb c) (list_ascii_of_string "abcdef") = true)
            (list_ascii_of_string (Lib.hex_of_hashArray hashArray)).
Proof.
  rewrite hex_of_hashArray_digest_hex. split; [done|]. split; [apply digest_hex_length|].
  unfold Server.digest_hex. induction hashArray as [|b bytes IH]; [constructor|].
  cbn [fold_right]. destruct b as [b0 b1 b2 b3 b4 b5 b6 b7].
  cbn [Server.hex_byte list_ascii_of_string].
  constructor; [apply nibble_char_hex|]. constructor; [apply nibble_char_hex|]. exact IH.
Qed.

(** ** Release dates, Bangumi staff and cache keys *)

Section SortByKey.
Context {A : Type} (cmp : A -> A -> Z) (key : A -> Z).

Lemma insert_sorted_by_key x l :
  (forall y, In y l -> cmp x y = (key x - key y)%Z) ->
  StronglySorted (fun a b => (key a <= key b)%Z) l ->
  StronglySorted (fun a b => (key a <= key b)%Z) (JS.insert_sorted cmp x l).
Proof.
  intros Hcmp Hsorted. induction Hsorted as [|y r Hr IH Hy]; [repeat constructor|].
  cbn [JS.insert_sorted]. rewrite (Hcmp y) by (by left).
  destruct (Z.ltb_spec 0 (key x - key y)) as [Hlt|Hle].
  - constructor.
    + apply IH. intros z Hz. apply Hcmp. by right.
    + rewrite insert_sorted_perm. constructor; [lia|done].
  - constructor; [by constructor|]. constructor; [lia|].
    eapply Forall_impl; [|exact Hy]. cbn. intros z Hz. lia.
Qed.

Lemma sort_by_key l :
  (forall x y, In x l -> In y l -> cmp x y = (key x - key y)%Z) ->
  StronglySorted (fun a b => (key a <= key b)%Z) (JS.sort cmp l).
Proof.
  unfold JS.sort. induction l as [|x l IH]; intros Hcmp; [constructor|]. cbn [fold_right].
  apply insert_sorted_by_key.
  - intros y Hy. apply Hcmp; [by left|right].
    eapply Permutation_in; [apply sort_perm|exact Hy].
  - apply IH. intros a b Ha Hb. apply Hcmp; by right.
Qed.

Lemma sort_all_equal l :
  (forall x y, In x l -> In y l -> cmp x y = 0%Z) -> JS.sort cmp l = l.
Proof.
  unfold JS.sort. induction l as [|x l IH]; intros Hcmp; [reflexivity|]. cbn [fold_right].
  rewrite IH by (intros a b Ha Hb; apply Hcmp; by right).
  destruct l as [|y l]; [reflexivity|]. cbn [JS.insert_sorted].
  rewrite (Hcmp x y); [done|by left|right; by left].
Qed.

End SortByKey.

Section Dates.
Context `{Platform}.

(** X19. The release dates of a Douban subject are put in the order of their
    dates, each as often as it occurs, when every one of them is a date; when
    none of them is, they stay in the order of the page. *)
Theorem playdate_order (playdate : list string) :
  Permutation (JS.sort Server.by_date playdate) playdate
  /\ ((forall d, In d playdate -> Date_parse d <> None) ->
      StronglySorted (fun a b => (default 0 (Date_parse a) <= default 0 (Date_parse b))%Z)
        (JS.sort Server.by_date playdate))
  /\ ((forall d, In d playdate -> Date_parse d = None) ->
      JS.sort Server.by_date playdate = playdate).
Proof.
  split; [apply sort_perm|]. split.
  - intros Hall. apply sort_by_key. intros x y Hx Hy. unfold Server.by_date.
    pose proof (Hall x Hx). pose proof (Hall y Hy).
    destruct (Date_parse x), (Date_parse y); done.
  - intros Hnone. apply sort_all_equal. intros x y Hx Hy. unfold Server.by_date.
    by rewrite (Hnone x Hx).
Qed.

End Dates.

Lemma filter_by_membership (f : string -> bool) (l : list string) :
  filter (fun d => existsb (String.eqb d) (filter f l)) l = filter f l.
Proof.
  apply filter_ext_in. intros d Hd. destruct (f d) eqn:Hf.
  - apply existsb_exists. exists d. split; [|apply String.eqb_refl].
    apply filter_In. auto.
  - destruct (existsb _ _) eqn:He; [|done]. apply existsb_exists in He as (d' & Hin & Heq).
    apply String.eqb_eq in Heq as <-. apply filter_In in Hin as [_ Hf']. congruence.
Qed.

Section Bangumi.
Context `{Crypto} `{Network} `{Platform}.

(** X20. When the page of a Bangumi subject does not carry the mark of a
    missing subject, [gen_bangumi] returns a record marked successful whose
    field [staff] holds, in the order of the page, the lines of the info box
    (the texts of [div#bangumiInfo ul#infobox li]) that do not begin with
    one of the six labels, and whose field [info] is equal to [staff]. *)
Theorem bangumi_info_is_staff (sid : string) (resp : response) :
  send (Server.GET ("https://bgm.tv/subject/" +:+ sid)) = Ok resp ->
  JS.includes "呜咕，出错了" (resp_text resp) = false ->
  exists data,
    outcome (Server.gen_bangumi sid) = Ok data
    /\ obj_get "success" data = VBool true
    /\ obj_get "staff" data
       = strings (filter (fun d => negb (Server.is_info_line d))
                    (cheerio_texts (resp_text resp) "div#bangumiInfo ul#infobox li"))
    /\ obj_get "info" data = obj_get "staff" data.
Proof.
  intros Hsend Hmarker. unfold Server.gen_bangumi. cbv zeta. unfold bind, fetch.
  rewrite Hsend, Hmarker. unfold ret, outcome. cbn [snd].
  eexists. split; [reflexivity|]. split; [reflexivity|]. split; [reflexivity|].
  change (strings (filter (fun d => existsb (String.eqb d)
                                      (filter (fun d => negb (Server.is_info_line d))
                                         (cheerio_texts (resp_text resp)
                                            "div#bangumiInfo ul#infobox li")))
                     (cheerio_texts (resp_text resp) "div#bangumiInfo ul#infobox li"))
          = strings (filter (fun d => negb (Server.is_info_line d))
                       (cheerio_texts (resp_text resp) "div#bangumiInfo ul#infobox li"))).
  by rewrite filter_by_membership.
Qed.

End Bangumi.

(** X21. Two requests that can be cached share a cache key only when they
    ask for the same thing: the keys of two generate requests for known
    sites are equal only for the same site and subject id, the keys of two
    searches in known sources only for the same source and keywords, and a
    generate key is never a search key. *)
Theorem cache_keys_distinct (site site' sid sid' source source' keywords keywords' : string) :
  In site SITES -> In site' SITES -> In source SOURCES -> In source' SOURCES ->
  ("info-" +:+ site +:+ "-" +:+ sid = "info-" +:+ site' +:+ "-" +:+ sid' ->
   site = site' /\ sid = sid')
  /\ ("search-" +:+ source +:+ "-" +:+ keywords = "search-" +:+ source' +:+ "-" +:+ keywords' ->
      source = source' /\ keywords = keywords')
  /\ "info-" +:+ site +:+ "-" +:+ sid <> "search-" +:+ source +:+ "-" +:+ keywords.
Proof.
  unfold SITES, SOURCES. cbn [In].
  intros Hs Hs' Hq Hq'. split; [|split].
  - clear Hq Hq'.
    destruct Hs as [<-|[<-|[<-|[<-|[<-|[<-|[]]]]]]];
      destruct Hs' as [<-|[<-|[<-|[<-|[<-|[<-|[]]]]]]];
      repeat (rewrite append_cons || rewrite append_nil);
      intros Heq; try discriminate Heq;
      (split; [reflexivity|]); by simplify_eq.
  - clear Hs Hs'.
    destruct Hq as [<-|[<-|[<-|[]]]]; destruct Hq' as [<-|[<-|[<-|[]]]];
      repeat (rewrite append_cons || rewrite append_nil);
      intros Heq; try discriminate Heq;
      (split; [reflexivity|]); by simplify_eq.
  - by rewrite !append_cons.
Qed.

(** ** A resolution and the request that follows it *)

Section Afterwards.
Context `{Crypto} `{Network} `{Platform}.
Context (env : Server.Env) (now : Z) (request : Server.Request).
Context (memoryCache : gmap string (object * Z)).

(** X22. After a generate request that was not in the cache and was answered
    without error, the same request at any instant within the two days that
    follow is answered from the cache: no request is sent, the record is the
    JSON image of the one sent the first time, and the entry is written
    again with a new expiry. *)
Theorem served_from_cache_afterwards (site sid : string) :
  let uri := url_parse (Server.url request) in
  (String.eqb (pathname uri) "/" && String.eqb (search uri) "") = false ->
  Server.apikey_missing env uri = false ->
  Server.query_get "search" uri = None ->
  Server.subject_of uri = (Some site, Some sid) ->
  memoryCache !! ("info-" +:+ site +:+ "-" +:+ sid) = None ->
  let first := Server.handle env now request memoryCache in
  ~ failed (snd first) ->
  exists response_data,
    snd first = Server.makeJsonResponse env now response_data 200
    /\ fst (fst first)
       = <["info-" +:+ site +:+ "-" +:+ sid
           := (jsonify_object response_data, (now + 172800000)%Z)]> memoryCache
    /\ forall now',
         (now' <= now + 172800000)%Z ->
         Server.handle env now' request (fst (fst first))
         = (<["info-" +:+ site +:+ "-" +:+ sid
              := (jsonify_object response_data, (now' + 172800000)%Z)]> memoryCache,
            [],
            Server.makeJsonResponse env now' (jsonify_object response_data) 200).
Proof.
  intros uri Hroot Hkey Hs Hsub Hmiss first. subst first uri.
  assert (route env (url_parse (Server.url request))
          = inr ("info-" +:+ site +:+ "-" +:+ sid, Server.dispatch_generate site sid))
    as Hroute by (unfold route; by rewrite Hs, Hsub).
  rewrite (handle_miss env now request memoryCache _ _ Hroot Hkey Hroute Hmiss).
  destruct (Server.dispatch_generate site sid) as [sent [response_data|err]].
  2:{ unfold Server.respond, bind. cbn [snd]. intros Hnot. destruct Hnot.
      by apply makeJsonResponse_failed. }
  unfold Server.respond, bind, ret. cbn [snd fst].
  intros Hnot. exists response_data.
  assert (truthy (obj_get "error" response_data) = false) as He.
  { destruct (truthy (obj_get "error" response_data)) eqn:He; [|done].
    destruct Hnot. by apply makeJsonResponse_failed. }
  rewrite He. cbn [negb]. split; [done|]. split; [done|].
  intros now' Hle. rewrite handle_resolve, Hroute by done.
  unfold Server.PT_GEN_STORE_put at 1.
  rewrite (cached_or_hit now' _ _ _ (jsonify_object response_data) (now + 172800000)%Z)
    by (rewrite ?lookup_insert_eq; done).
  unfold Server.respond, ret. rewrite jsonify_object_error by done. cbn [negb].
  unfold Server.PT_GEN_STORE_put. by rewrite jsonify_object_idempotent, insert_insert_eq.
Qed.

End Afterwards.

Lemma served_from_cache_afterwards_witness :
  let first :=
    @Server.handle unsolvable bare_network plain_platform open_env 0
      (get_request "/?site=imdb&sid=tt42") ∅ in
  exists response_data,
    snd first = Server.makeJsonResponse open_env 0 response_data 200
    /\ fst (fst first)
       = <["info-" +:+ "imdb" +:+ "-" +:+ "tt42"
           := (jsonify_object response_data, (0 + 172800000)%Z)]> ∅
    /\ forall now',
         (now' <= 0 + 172800000)%Z ->
         @Server.handle unsolvable bare_network plain_platform open_env now'
           (get_request "/?site=imdb&sid=tt42") (fst (fst first))
         = (<["info-" +:+ "imdb" +:+ "-" +:+ "tt42"
              := (jsonify_object response_data, (now' + 172800000)%Z)]> ∅,
            [],
            Server.makeJsonResponse open_env now' (jsonify_object response_data) 200).
Proof.
  apply (@served_from_cache_afterwards unsolvable bare_network plain_platform open_env 0
           (get_request "/?site=imdb&sid=tt42") ∅ "imdb" "tt42").
  - reflexivity.
  - reflexivity.
  - reflexivity.
  - reflexivity.
  - reflexivity.
  - vm_compute. intros Hfailed. discriminate Hfailed.
Defined.

Lemma identify_numbered_witness :
  Server.identify Server.support_list
    ("https://store.steampowered.com/app/" +:+ "" +:+ "10" +:+ "/")
  = Some ("steam", "" +:+ "10").
Proof.
  apply (identify_numbered "10" "/").
  - discriminate.
  - reflexivity.
  - reflexivity.
  - reflexivity.
  - do 5 right. left. reflexivity.
Defined.

Lemma cache_keys_distinct_witness :
  ("info-" +:+ "douban" +:+ "-" +:+ "1" = "info-" +:+ "imdb" +:+ "-" +:+ "1" ->
   "douban" = "imdb" /\ "1" = "1")
  /\ ("search-" +:+ "douban" +:+ "-" +:+ "x" = "search-" +:+ "imdb" +:+ "-" +:+ "y" ->
      "douban" = "imdb" /\ "x" = "y")
  /\ "info-" +:+ "douban" +:+ "-" +:+ "1" <> "search-" +:+ "douban" +:+ "-" +:+ "x".
Proof.
  apply (cache_keys_distinct "douban" "imdb" "1" "1" "douban" "imdb" "x" "y").
  - left. reflexivity.
  - right. left. reflexivity.
  - left. reflexivity.
  - right. left. reflexivity.
Defined.

Lemma bangumi_info_is_staff_witness :
  (exists data,
     outcome (@Server.gen_bangumi (page_network 200 infobox_page) infobox_platform "1")
     = Ok data
     /\ obj_get "success" data = VBool true
     /\ obj_get "staff" data
        = strings (filter (fun d => negb (Server.is_info_line d))
                     (@cheerio_texts infobox_platform infobox_page
                        "div#bangumiInfo ul#infobox li"))
     /\ obj_get "info" data = obj_get "staff" data)
  /\ match outcome (@Server.gen_bangumi (page_network 200 infobox_page) infobox_platform "1")
     with
     | Ok data => obj_get "staff" data = strings ["导演: 乙"]
     | Throw _ => False
     end.
Proof.
  split.
  - apply (@bangumi_info_is_staff (page_network 200 infobox_page) infobox_platform "1"
             {| resp_status := 200; resp_url := None; resp_headers := [];
                resp_text := infobox_page |}); reflexivity.
  - vm_compute. reflexivity.
Defined.

(** ** Gate pages and unreadable answers on the server *)

Section GateOnServer.
Context `{Crypto} `{Network} `{Platform}.
Context (env : Server.Env) (now : Z) (request : Server.Request).
Context (memoryCache : gmap string (object * Z)).

Lemma gen_douban_gate resp sid :
  (forall r, send r = Ok resp) ->
  is_gate (resp_text resp) = true ->
  match_param "tok" (resp_text resp) <> None ->
  match_param "cha" (resp_text resp) <> None ->
  exists e,
    Server.gen_douban sid
    = ([Server.GET ("https://movie.douban.com/subject/" +:+ sid +:+ "/")], Throw e)
    /\ (e = Error "Challenge timeout" \/ e = TypeError "formData.append is not a function").
Proof.
  intros Hsend Hg Htok Hcha. unfold Server.gen_douban. cbv zeta.
  unfold bind at 1. unfold fetch. rewrite Hsend.
  match goal with
  | |- context [Server.solveDoubanChallenge ?url ?text] =>
      destruct (server_challenge_cases url text)
        as [(r & _ & _ & _ & _ & Hmissing)|[-> | ->]]
  end.
  - destruct (Hmissing Hg); congruence.
  - eexists. split; [reflexivity|by left].
  - eexists. split; [reflexivity|by right].
Qed.

(** X23. The server cannot pass the challenge of Douban: when Douban answers
    with a gate page whose token and challenge can be extracted, a generate
    request for a Douban subject that is not in the cache is answered with
    status 500 and the error "Internal Error: Challenge timeout" or
    "Internal Error: formData.append is not a function"; only the request
    for the page has been sent and nothing is written to the cache. *)
Theorem douban_gate_fails (resp : response) (sid : string) :
  let uri := url_parse (Server.url request) in
  (forall r, send r = Ok resp) ->
  is_gate (resp_text resp) = true ->
  match_param "tok" (resp_text resp) <> None ->
  match_param "cha" (resp_text resp) <> None ->
  (String.eqb (pathname uri) "/" && String.eqb (search uri) "") = false ->
  Server.apikey_missing env uri = false ->
  Server.query_get "search" uri = None ->
  Server.subject_of uri = (Some "douban", Some sid) ->
  memoryCache !! ("info-" +:+ "douban" +:+ "-" +:+ sid) = None ->
  exists e,
    (e = Error "Challenge timeout" \/ e = TypeError "formData.append is not a function")
    /\ Server.handle env now request memoryCache
       = (memoryCache,
          [Server.GET ("https://movie.douban.com/subject/" +:+ sid +:+ "/")],
          Server.makeJsonResponse env now
            (record [("error", VStr ("Internal Error: " +:+ err_message e));
                     ("debug", Server.debug_get_err now e request)]) 500).
Proof.
  intros uri Hsend Hg Htok Hcha Hroot Hkey Hs Hsub Hmiss. subst uri.
  destruct (gen_douban_gate resp sid Hsend Hg Htok Hcha) as (e & Hgen & He).
  exists e. split; [done|].
  rewrite (handle_miss env now request memoryCache ("info-" +:+ "douban" +:+ "-" +:+ sid)
             (Server.dispatch_generate "douban" sid))
    by (try done; unfold route; by rewrite Hs, Hsub).
  change (Server.dispatch_generate "douban" sid) with (Server.gen_douban sid).
  by rewrite Hgen.
Qed.


End GateOnServer.

Lemma douban_gate_fails_witness :
  exists e,
    (e = Error "Challenge timeout" \/ e = TypeError "formData.append is not a function")
    /\ @Server.handle unsolvable (page_network 200 gate_page) plain_platform open_env 0
         (get_request "/?site=douban&sid=1") ∅
       = (∅,
          [Server.GET ("https://movie.douban.com/subject/" +:+ "1" +:+ "/")],
          Server.makeJsonResponse open_env 0
            (record [("error", VStr ("Internal Error: " +:+ err_message e));
                     ("debug", Server.debug_get_err 0 e (get_request "/?site=douban&sid=1"))])
            500).
Proof.
  apply (@douban_gate_fails unsolvable (page_network 200 gate_page) plain_platform open_env 0
           (get_request "/?site=douban&sid=1") ∅
           {| resp_status := 200; resp_url := None; resp_headers := [];
              resp_text := gate_page |} "1").
  - reflexivity.
  - vm_compute. reflexivity.
  - vm_compute. discriminate.
  - vm_compute. discriminate.
  - reflexivity.
  - reflexivity.
  - reflexivity.
  - reflexivity.
  - reflexivity.
Defined.

